(** * ThinkR chatbot: the retrieval core

    A shallow embedding of [thinkr_chatbot/core/pdf_processor.py] (the
    chunker) and [thinkr_chatbot/core/vector_store.py] (the embedding index
    and the context builder), with the properties of the retrieval pipeline
    stated and proved over it.

    Conventions.
    - A Python [str] is a [string]; [len] is [String.length]; the characters
      are code points below 256.
    - A Python [int] is a [Z]; [//] is [Z.div] (both round down).
    - A Python [float] that is finite is a [Q], and so is a [numpy.float32]:
      only the order of scores and their rendering with three decimals are
      ever used. Where a [float32] meets a Python [float] in a comparison the
      latter is rounded to single precision first ([to_float32]).
    - A [dict] with string keys is a [gmap string pyval].
    - A method of [VectorStore] is a function in the monad [M]: it takes the
      state of the object and of the disk, and returns a result (a value or a
      raised exception) with the new state. *)

From Stdlib Require Import ZArith QArith Lia List Ascii String Sorted Permutation.
From stdpp Require Import base gmap strings list pretty.

Local Open Scope Z_scope.

(** ** Python values and strings *)

Inductive pyval : Type :=
  | PyNone
  | PyInt (z : Z)
  | PyStr (s : string).

Abbreviation dict := (gmap string pyval).

(** [bool(v)] *)
Definition truthy (v : pyval) : bool :=
  match v with
  | PyNone => false
  | PyInt z => negb (z =? 0)
  | PyStr s => negb (String.eqb s "")
  end.

(** [str(v)], which is also what an f-string field [{v}] renders. *)
Definition py_str (v : pyval) : string :=
  match v with
  | PyNone => "None"
  | PyInt z => pretty z
  | PyStr s => s
  end.

(** [a or b] *)
Definition py_or (a b : pyval) : pyval := if truthy a then a else b.

(** [d.get(key, default)] *)
Definition dict_get (d : dict) (key : string) (default : pyval) : pyval :=
  match d !! key with
  | Some v => v
  | None => default
  end.

Module Str.

Definition newline : ascii := "010"%char.

(** [c.isspace()], which is also the class [\s] of [re] on [str]. *)
Definition is_space (c : ascii) : bool :=
  let n := nat_of_ascii c in
  (((9 <=? n) && (n <=? 13)) || ((28 <=? n) && (n <=? 32))
   || (n =? 133) || (n =? 160))%nat.

Definition non_empty (s : string) : bool :=
  match s with
  | EmptyString => false
  | String _ _ => true
  end.

Fixpoint lstrip (s : string) : string :=
  match s with
  | EmptyString => EmptyString
  | String c s' => if is_space c then lstrip s' else s
  end.

Fixpoint rstrip (s : string) : string :=
  match s with
  | EmptyString => EmptyString
  | String c s' =>
      match rstrip s' with
      | EmptyString => if is_space c then EmptyString else String c EmptyString
      | r => String c r
      end
  end.

(** [s.strip()] *)
Definition strip (s : string) : string := lstrip (rstrip s).

Fixpoint drop (n : nat) (s : string) : string :=
  match n, s with
  | O, _ => s
  | S n', String _ s' => drop n' s'
  | S _, EmptyString => EmptyString
  end.

(** [sub in s] *)
Fixpoint contains (sub s : string) : bool :=
  String.prefix sub s
  || match s with
     | EmptyString => false
     | String _ s' => contains sub s'
     end.

(** [s.replace(old, new)] for a non-empty [old]: the occurrences are taken
    from the left and do not overlap. [skip] counts the characters of the
    occurrence just replaced that are still to be passed over. *)
Fixpoint replace_from (old new s : string) (skip : nat) : string :=
  match s with
  | EmptyString => EmptyString
  | String c s' =>
      match skip with
      | S n => replace_from old new s' n
      | O =>
          if String.prefix old s
          then new +:+ replace_from old new s' (Nat.pred (String.length old))
          else String c (replace_from old new s' O)
      end
  end.

Definition replace (s old new : string) : string := replace_from old new s O.

(** [sep.join(l)] *)
Fixpoint join (sep : string) (l : list string) : string :=
  match l with
  | [] => EmptyString
  | [x] => x
  | x :: rest => x +:+ sep +:+ join sep rest
  end.

(** [l[a:b]] for [0 <= a]; [b] may exceed the length, and [a > b] gives the
    empty list. *)
Definition slice {A} (l : list A) (a b : Z) : list A :=
  take (Z.to_nat (b - a)) (list.drop (Z.to_nat a) l).

Definition len (s : string) : Z := Z.of_nat (String.length s).

End Str.

(** ** The regular expressions of the chunker *)

Module Re.

Import Str.

Definition fence_open : string := "```r".
Definition fence_close : string := String newline "```".
Definition PLACEHOLDER : string := "CODE_BLOCK_PLACEHOLDER".

(** The tail [(.*?)\n```] of [code_pattern] under [re.DOTALL]: the shortest
    body followed by the closing fence. Returns the body (group 1) and the
    number of characters matched. *)
Fixpoint find_close (v : string) : option (string * nat) :=
  if String.prefix fence_close v then Some (EmptyString, 4%nat)
  else
    match v with
    | EmptyString => None
    | String c v' =>
        match find_close v' with
        | Some (body, n) => Some (String c body, S n)
        | None => None
        end
    end.

(** [\s*\n(.*?)\n```]: the greedy [\s*] first tries to take the character,
    and gives it back to [\n] only when the rest cannot match. *)
Fixpoint match_after_open (t : string) : option (string * nat) :=
  match t with
  | EmptyString => None
  | String c t' =>
      if is_space c then
        match match_after_open t' with
        | Some (body, n) => Some (body, S n)
        | None =>
            if Ascii.eqb c newline then
              match find_close t' with
              | Some (body, n) => Some (body, S n)
              | None => None
              end
            else None
        end
      else None
  end.

(** A match of [code_pattern = r'```r\s*\n(.*?)\n```'] at the start of [s]. *)
Definition match_code_block (s : string) : option (string * nat) :=
  if String.prefix fence_open s then
    match match_after_open (drop 4 s) with
    | Some (body, n) => Some (body, (4 + n)%nat)
    | None => None
    end
  else None.

(** [re.findall(code_pattern, text, re.DOTALL)]: group 1 of the matches,
    leftmost first, not overlapping. *)
Fixpoint findall_from (s : string) (skip : nat) : list string :=
  match s with
  | EmptyString => []
  | String _ s' =>
      match skip with
      | S n => findall_from s' n
      | O =>
          match match_code_block s with
          | Some (body, n) => body :: findall_from s' (Nat.pred n)
          | None => findall_from s' O
          end
      end
  end.

Definition findall_code (text : string) : list string := findall_from text O.

(** [re.sub(code_pattern, 'CODE_BLOCK_PLACEHOLDER', text, flags=re.DOTALL)] *)
Fixpoint sub_from (s : string) (skip : nat) : string :=
  match s with
  | EmptyString => EmptyString
  | String c s' =>
      match skip with
      | S n => sub_from s' n
      | O =>
          match match_code_block s with
          | Some (_, n) => PLACEHOLDER +:+ sub_from s' (Nat.pred n)
          | None => String c (sub_from s' O)
          end
      end
  end.

Definition sub_code (text : string) : string := sub_from text O.

Definition is_end_punct (c : ascii) : bool :=
  Ascii.eqb c "."%char || Ascii.eqb c "!"%char || Ascii.eqb c "?"%char.

Definition cons_head (c : ascii) (l : list string) : list string :=
  match l with
  | [] => [String c EmptyString]
  | p :: rest => String c p :: rest
  end.

(** [re.split(r'(?<=[.!?])\s+', s)]: a separator is a maximal run of white
    space that starts right after one of [.!?]. [prev_punct] says that the
    character before was one of them, [in_sep] that a separator is being
    consumed. The head of the result is the piece under construction. *)
Fixpoint split_from (s : string) (prev_punct in_sep : bool) : list string :=
  match s with
  | EmptyString => [EmptyString]
  | String c s' =>
      if is_space c && (in_sep || prev_punct) then
        if in_sep then split_from s' false true
        else EmptyString :: split_from s' false true
      else cons_head c (split_from s' (is_end_punct c) false)
  end.

Definition split_sentences (s : string) : list string := split_from s false false.

End Re.

(** ** [PDFProcessor]: the chunker *)

Module PDFProcessor.

Import Str.

(** One entry of [text_content]. *)
Record PageData := {
  pd_text : string;
  pd_page : Z;
  pd_filename : option string
}.

Record Chunk := {
  c_text : string;
  c_page : Z;
  start_sentence : Z;
  end_sentence : Z;
  c_metadata : dict
}.

(** The loop of [_split_into_sentences] that puts the code back. *)
Fixpoint restore_code (sentences code_blocks : list string) (code_index : nat)
  : list string :=
  match sentences with
  | [] => []
  | sentence :: rest =>
      if contains Re.PLACEHOLDER sentence then
        match code_blocks !! code_index with
        | Some code =>
            replace sentence Re.PLACEHOLDER code
              :: restore_code rest code_blocks (S code_index)
        | None => sentence :: restore_code rest code_blocks code_index
        end
      else sentence :: restore_code rest code_blocks code_index
  end.

Definition _split_into_sentences (text : string) : list string :=
  let code_blocks := Re.findall_code text in
  let text_with_placeholders := Re.sub_code text in
  let sentences := Re.split_sentences text_with_placeholders in
  let sentences := restore_code sentences code_blocks 0 in
  omap (fun s => if non_empty (strip s) then Some (strip s) else None) sentences.

Section Chunking.

Variable chunk_size : Z.
Variable chunk_overlap : Z.

(** The local variables of the loop over the sentences of one page;
    [chunks] is the list shared by all the pages. *)
Record LoopState := {
  chunks : list Chunk;
  current_chunk : string;
  chunk_start_sentence : Z
}.

Definition page_metadata (page_data : PageData) : dict :=
  <["source" := PyStr (default "" (pd_filename page_data))]>
    (<["page" := PyInt (pd_page page_data)]> ∅).

Definition make_chunk (page_data : PageData) (body : string) (first last : Z)
  : Chunk :=
  {| c_text := strip body;
     c_page := pd_page page_data;
     start_sentence := first;
     end_sentence := last;
     c_metadata := page_metadata page_data |}.

(** The overlap window, in units. *)
Definition overlap_start (i : Z) : Z := Z.max 0 (i - chunk_overlap / 50).

(** One iteration of [for i, sentence in enumerate(sentences)]. *)
Definition chunk_step (page_data : PageData) (sentences : list string)
    (i : Z) (sentence : string) (st : LoopState) : LoopState :=
  let st1 :=
    if (len (current_chunk st +:+ sentence) >? chunk_size)
       && non_empty (current_chunk st)
    then
      {| chunks :=
           chunks st ++
             [make_chunk page_data (current_chunk st)
                (chunk_start_sentence st) (i - 1)];
         current_chunk := join " " (slice sentences (overlap_start i) i);
         chunk_start_sentence := overlap_start i |}
    else st in
  {| chunks := chunks st1;
     current_chunk := current_chunk st1 +:+ (sentence +:+ " ");
     chunk_start_sentence := chunk_start_sentence st1 |}.

Fixpoint chunk_loop (page_data : PageData) (sentences rest : list string)
    (i : Z) (st : LoopState) : LoopState :=
  match rest with
  | [] => st
  | sentence :: rest' =>
      chunk_loop page_data sentences rest' (i + 1)
        (chunk_step page_data sentences i sentence st)
  end.

(** The body of [for page_data in text_content]. *)
Definition chunk_page (acc : list Chunk) (page_data : PageData) : list Chunk :=
  let sentences := _split_into_sentences (pd_text page_data) in
  let st :=
    chunk_loop page_data sentences sentences 0
      {| chunks := acc; current_chunk := ""; chunk_start_sentence := 0 |} in
  if non_empty (strip (current_chunk st)) then
    chunks st ++
      [make_chunk page_data (current_chunk st) (chunk_start_sentence st)
         (Z.of_nat (length sentences) - 1)]
  else chunks st.

Definition chunk_text (text_content : list PageData) : list Chunk :=
  fold_left chunk_page text_content [].

End Chunking.

(** *** Extraction and the directory loop *)

(** The loop of [_extract_with_pymupdf], [_extract_with_pdfplumber] and
    [_extract_with_pypdf] over the pages of a file: [pages] are the texts the
    library returns, [None] where it returns none; [page_num] is the index of
    the first of them. An entry has no key ['filename']. *)
Fixpoint extract_pages (pages : list (option string)) (page_num : Z)
  : list PageData :=
  match pages with
  | [] => []
  | text :: rest =>
      let tail := extract_pages rest (page_num + 1) in
      match text with
      | Some t =>
          if non_empty (strip t)
          then {| pd_text := strip t; pd_page := page_num + 1; pd_filename := None |}
                 :: tail
          else tail
      | None => tail
      end
  end.

(** What [extract_text_from_pdf] returns. *)
Record Extracted := {
  ex_text_content : list PageData;
  ex_metadata : dict;
  ex_filename : string
}.

(** [_extract_with_pdfplumber], for the metadata and the page texts that the
    library gives and the base name of the path. *)
Definition _extract_with_pdfplumber (pdf_metadata : dict)
    (pages : list (option string)) (basename : string) : Extracted :=
  {| ex_text_content := extract_pages pages 0;
     ex_metadata :=
       <["title" := dict_get pdf_metadata "Title" (PyStr "")]>
         (<["author" := dict_get pdf_metadata "Author" (PyStr "")]>
            (<["subject" := dict_get pdf_metadata "Subject" (PyStr "")]>
               (<["creator" := dict_get pdf_metadata "Creator" (PyStr "")]>
                  (<["producer" := dict_get pdf_metadata "Producer" (PyStr "")]>
                     (<["total_pages" := PyInt (Z.of_nat (length pages))]> ∅)))));
     ex_filename := basename |}.

(** [chunk['metadata'].update({...})] in [process_pdf_directory]. *)
Definition annotate (extracted_data : Extracted) (chunk : Chunk) : Chunk :=
  {| c_text := c_text chunk;
     c_page := c_page chunk;
     start_sentence := start_sentence chunk;
     end_sentence := end_sentence chunk;
     c_metadata :=
       <["filename" := PyStr (ex_filename extracted_data)]>
         (<["subject" := dict_get (ex_metadata extracted_data) "subject" (PyStr "")]>
            (<["author" := dict_get (ex_metadata extracted_data) "author" (PyStr "")]>
               (<["title" := dict_get (ex_metadata extracted_data) "title" (PyStr "")]>
                  (c_metadata chunk)))) |}.

(** [process_pdf_directory] over the files of the directory, each with the
    outcome of [extract_text_from_pdf]: [None] when it raised, and the file
    is then passed over. *)
Definition process_pdf_directory (chunk_size chunk_overlap : Z)
    (files : list (option Extracted)) : list Chunk :=
  flat_map
    (fun file =>
       match file with
       | Some extracted_data =>
           map (annotate extracted_data)
             (chunk_text chunk_size chunk_overlap (ex_text_content extracted_data))
       | None => []
       end) files.

(** *** [extract_timestamps] *)

(** [\d] on [str], for code points below 256. *)
Definition is_digit (c : ascii) : bool :=
  let n := nat_of_ascii c in ((48 <=? n) && (n <=? 57))%nat.

(** [\w] on [str], for code points below 256: the letters, the digits and
    the other numeric characters, and the underscore. *)
Definition is_word (c : ascii) : bool :=
  let n := nat_of_ascii c in
  (((48 <=? n) && (n <=? 57)) || ((65 <=? n) && (n <=? 90)) || (n =? 95)
   || ((97 <=? n) && (n <=? 122)) || (n =? 170) || (n =? 178) || (n =? 179)
   || (n =? 181) || (n =? 185) || (n =? 186) || ((188 <=? n) && (n <=? 190))
   || ((192 <=? n) && (n <=? 214)) || ((216 <=? n) && (n <=? 246))
   || ((248 <=? n) && (n <=? 255)))%nat.

(** A piece of a pattern: the texts that may remain after it, the
    preferred one first. *)
Definition matcher := string -> list string.

Definition m_seq (m1 m2 : matcher) : matcher := fun s => flat_map m2 (m1 s).

Definition m_digit : matcher :=
  fun s =>
    match s with
    | String c rest => if is_digit c then [rest] else []
    | EmptyString => []
    end.

(** [\d{1,2}], greedy: two digits are tried before one. *)
Definition m_digits_1_2 : matcher :=
  fun s => flat_map (fun r1 => m_digit r1 ++ [r1]) (m_digit s).

(** [\d{2}] and [\d{3}] *)
Definition m_digits_2 : matcher := m_seq m_digit m_digit.
Definition m_digits_3 : matcher := m_seq m_digit m_digits_2.

Definition m_char (a : ascii) : matcher :=
  fun s =>
    match s with
    | String c rest => if Ascii.eqb c a then [rest] else []
    | EmptyString => []
    end.

(** [\b] after a digit: the end of the text, or a character that is not of
    a word. *)
Definition m_boundary_after : matcher :=
  fun s =>
    match s with
    | EmptyString => [s]
    | String c _ => if is_word c then [] else [s]
    end.

(** [\d{1,2}:\d{2}\b], [\d{1,2}:\d{2}:\d{2}\b] and
    [\d{1,2}:\d{2}:\d{2}\.\d{3}\b], after the leading [\b]. *)
Definition mm_ss : matcher :=
  m_seq m_digits_1_2 (m_seq (m_char ":") (m_seq m_digits_2 m_boundary_after)).

Definition hh_mm_ss : matcher :=
  m_seq m_digits_1_2
    (m_seq (m_char ":")
       (m_seq m_digits_2
          (m_seq (m_char ":") (m_seq m_digits_2 m_boundary_after)))).

Definition hh_mm_ss_mmm : matcher :=
  m_seq m_digits_1_2
    (m_seq (m_char ":")
       (m_seq m_digits_2
          (m_seq (m_char ":")
             (m_seq m_digits_2
                (m_seq (m_char ".") (m_seq m_digits_3 m_boundary_after)))))).

Fixpoint str_take (n : nat) (s : string) : string :=
  match n, s with
  | S n', String c s' => String c (str_take n' s')
  | _, _ => EmptyString
  end.

(** A match of [\b] followed by the pattern at the start of [s]: the number
    of characters matched. [prev_word] says that the character before is of
    a word. *)
Definition match_stamp (pattern : matcher) (prev_word : bool) (s : string)
  : option nat :=
  if prev_word then None
  else
    match pattern s with
    | rest :: _ => Some (String.length s - String.length rest)%nat
    | [] => None
    end.

(** [re.findall(pattern, text)]: the matches from the left, not
    overlapping. *)
Fixpoint findall_stamps (pattern : matcher) (s : string) (prev_word : bool)
    (skip : nat) : list string :=
  match s with
  | EmptyString => []
  | String c s' =>
      match skip with
      | S n => findall_stamps pattern s' (is_word c) n
      | O =>
          match match_stamp pattern prev_word s with
          | Some n =>
              str_take n s :: findall_stamps pattern s' (is_word c) (Nat.pred n)
          | None => findall_stamps pattern s' (is_word c) O
          end
      end
  end.

Definition extract_timestamps (text : string) : list string :=
  findall_stamps mm_ss text false O
    ++ findall_stamps hh_mm_ss text false O
    ++ findall_stamps hh_mm_ss_mmm text false O.

End PDFProcessor.

(** ** [VectorStore]: the embedding index and the context builder *)

Module VectorStore.

Import Str.

Definition vector := list Q.

(** [faiss.IndexFlatIP]: the dimension and the stored rows, in the order in
    which they were added; row [i] has label [i]. *)
Record IndexFlatIP := {
  d : Z;
  vectors : list vector
}.

Definition new_IndexFlatIP (dimension : Z) : IndexFlatIP :=
  {| d := dimension; vectors := [] |}.

Definition ntotal (ix : IndexFlatIP) : Z := Z.of_nat (length (vectors ix)).

Inductive exn : Type :=
  | AssertionError
  | IndexError
  | RuntimeError
  | OSError
  | UnpicklingError.

Inductive result (A : Type) : Type :=
  | Ok (a : A)
  | Raise (e : exn).
Arguments Ok {A} a.
Arguments Raise {A} e.

(** A file under [index_path]: absent, present but unreadable, or holding a
    value. *)
Inductive file (A : Type) : Type :=
  | Missing
  | Corrupt
  | Stored (a : A).
Arguments Missing {A}.
Arguments Corrupt {A}.
Arguments Stored {A} a.

Definition file_exists {A} (f : file A) : bool :=
  match f with
  | Missing => false
  | _ => true
  end.

(** How a write that fails does so: the file cannot be opened and stays as
    it was, or it is opened for writing, which empties it, and the write
    breaks off. *)
Inductive failure : Type :=
  | at_open
  | after_open.

(** The two artifacts, [faiss_index.bin] and [metadata.pkl], whether a write
    to each of them succeeds, and how it fails when it does not. *)
Record Disk := {
  index_file : file IndexFlatIP;
  metadata_file : file (list dict);
  index_writable : bool;
  metadata_writable : bool;
  index_failure : failure;
  metadata_failure : failure
}.

Definition set_index_file (f : file IndexFlatIP) (dk : Disk) : Disk :=
  {| index_file := f;
     metadata_file := metadata_file dk;
     index_writable := index_writable dk;
     metadata_writable := metadata_writable dk;
     index_failure := index_failure dk;
     metadata_failure := metadata_failure dk |}.

Definition set_metadata_file (f : file (list dict)) (dk : Disk) : Disk :=
  {| index_file := index_file dk;
     metadata_file := f;
     index_writable := index_writable dk;
     metadata_writable := metadata_writable dk;
     index_failure := index_failure dk;
     metadata_failure := metadata_failure dk |}.

Inductive level : Type := INFO | WARNING | ERROR.

(** What a call does besides changing the object and the disk. *)
Inductive event : Type :=
  | Logged (lvl : level) (msg : string)
  | Encoded (texts : list string)
  | Searched (k : Z)
  | Added (n : nat).

(** The object ([self]) and its surroundings. *)
Record State := {
  model_name : string;
  dimension : Z;
  index : IndexFlatIP;
  metadata : list dict;
  disk : Disk;
  events : list event
}.

Definition set_index (ix : IndexFlatIP) (s : State) : State :=
  {| model_name := model_name s; dimension := dimension s; index := ix;
     metadata := metadata s; disk := disk s; events := events s |}.

Definition set_metadata (md : list dict) (s : State) : State :=
  {| model_name := model_name s; dimension := dimension s; index := index s;
     metadata := md; disk := disk s; events := events s |}.

Definition set_disk (dk : Disk) (s : State) : State :=
  {| model_name := model_name s; dimension := dimension s; index := index s;
     metadata := metadata s; disk := dk; events := events s |}.

Definition add_event (e : event) (s : State) : State :=
  {| model_name := model_name s; dimension := dimension s; index := index s;
     metadata := metadata s; disk := disk s; events := events s ++ [e] |}.

(** *** The monad of the methods *)

Definition M (A : Type) : Type := State -> result A * State.

Definition ret {A} (a : A) : M A := fun s => (Ok a, s).

Definition bind {A B} (m : M A) (k : A -> M B) : M B :=
  fun s =>
    match m s with
    | (Ok a, s') => k a s'
    | (Raise e, s') => (Raise e, s')
    end.

Definition raise {A} (e : exn) : M A := fun s => (Raise e, s).

Definition gets {A} (f : State -> A) : M A := fun s => (Ok (f s), s).

Definition modify (f : State -> State) : M unit := fun s => (Ok tt, f s).

Definition lift {A} (r : result A) : M A := fun s => (r, s).

(** [try: body / except Exception as e: handler] *)
Definition try_except {A} (body : M A) (handler : exn -> M A) : M A :=
  fun s =>
    match body s with
    | (Ok a, s') => (Ok a, s')
    | (Raise e, s') => handler e s'
    end.

Notation "'let*' x ':=' m 'in' k" := (bind m (fun x => k))
  (at level 10, x name, m at level 100, k at level 200).
Notation "m ';;' k" := (bind m (fun _ => k))
  (at level 100, k at level 200, right associativity).

Definition log (lvl : level) (msg : string) : M unit :=
  modify (add_event (Logged lvl msg)).

(** *** The calls into [faiss] and [pickle] *)

(** [index.add(x)]: the wrapper asserts the dimension of the rows, then the
    rows are appended. *)
Definition index_add (x : list vector) : M unit :=
  fun s =>
    if forallb (fun v => Z.of_nat (length v) =? d (index s)) x
    then
      (Ok tt,
       add_event (Added (length x))
         (set_index {| d := d (index s); vectors := vectors (index s) ++ x |} s))
    else (Raise AssertionError, s).

(** [faiss.write_index(self.index, index_file)]: the file is opened for
    writing, then the index is written to it. *)
Definition write_index : M unit :=
  fun s =>
    if index_writable (disk s)
    then (Ok tt, set_disk (set_index_file (Stored (index s)) (disk s)) s)
    else
      match index_failure (disk s) with
      | at_open => (Raise RuntimeError, s)
      | after_open =>
          (Raise RuntimeError, set_disk (set_index_file Corrupt (disk s)) s)
      end.

(** [with open(metadata_file, 'wb') as f: pickle.dump(self.metadata, f)]:
    [open] empties the file before [pickle.dump] writes. *)
Definition dump_metadata : M unit :=
  fun s =>
    if metadata_writable (disk s)
    then (Ok tt, set_disk (set_metadata_file (Stored (metadata s)) (disk s)) s)
    else
      match metadata_failure (disk s) with
      | at_open => (Raise OSError, s)
      | after_open =>
          (Raise OSError, set_disk (set_metadata_file Corrupt (disk s)) s)
      end.

(** [faiss.read_index(index_file)] *)
Definition read_index : M IndexFlatIP :=
  fun s =>
    match index_file (disk s) with
    | Stored ix => (Ok ix, s)
    | _ => (Raise RuntimeError, s)
    end.

(** [with open(metadata_file, 'rb') as f: pickle.load(f)] *)
Definition load_metadata : M (list dict) :=
  fun s =>
    match metadata_file (disk s) with
    | Stored md => (Ok md, s)
    | Corrupt => (Raise UnpicklingError, s)
    | Missing => (Raise OSError, s)
    end.

(** *** Persistence *)

Definition count_message (prefix : string) (n : nat) : string :=
  prefix +:+ pretty n +:+ " documents".

Definition _load_existing_index : M unit :=
  let* dk := gets disk in
  if file_exists (index_file dk) && file_exists (metadata_file dk) then
    try_except
      (let* ix := read_index in
       modify (set_index ix) ;;
       let* md := load_metadata in
       modify (set_metadata md) ;;
       let* md' := gets metadata in
       log INFO (count_message "Loaded existing index with " (length md')))
      (fun _ =>
         log ERROR "Failed to load existing index" ;;
         let* dim := gets dimension in
         modify (set_index (new_IndexFlatIP dim)) ;;
         modify (set_metadata []))
  else ret tt.

Definition _save_index : M unit :=
  try_except
    (write_index ;;
     dump_metadata ;;
     let* md := gets metadata in
     log INFO (count_message "Saved index with " (length md)))
    (fun _ => log ERROR "Failed to save index").

(** [VectorStore(model_name, index_path)], for an encoder of the given
    dimension and the given content of [index_path]. *)
Definition __init__ (name : string) (encoder_dimension : Z) (dk : Disk)
  : result unit * State :=
  _load_existing_index
    {| model_name := name;
       dimension := encoder_dimension;
       index := new_IndexFlatIP encoder_dimension;
       metadata := [];
       disk := dk;
       events := [Logged INFO "Loaded sentence transformer model"] |}.

Definition clear_index : M unit :=
  let* dim := gets dimension in
  modify (set_index (new_IndexFlatIP dim)) ;;
  modify (set_metadata []) ;;
  _save_index ;;
  log INFO "Cleared vector store index".

Record Stats := {
  total_documents : Z;
  index_size : Z;
  stats_dimension : Z;
  stats_model_name : string
}.

Definition get_index_stats (s : State) : Stats :=
  {| total_documents := Z.of_nat (length (metadata s));
     index_size := ntotal (index s);
     stats_dimension := dimension s;
     stats_model_name := model_name s |}.

(** *** Search results and references *)

(** One entry of the list [similarity_search] returns; [position] is the
    key ['index']. *)
Record SearchResult := {
  score : Q;
  r_metadata : dict;
  position : Z
}.

Record Reference := {
  module : pyval;
  ref_page : string;
  ref_score : Q;
  source : pyval
}.

(** [l[i]] *)
Definition py_index {A} (l : list A) (i : Z) : result A :=
  let j := if i <? 0 then i + Z.of_nat (length l) else i in
  if j <? 0 then Raise IndexError
  else
    match l !! Z.to_nat j with
    | Some x => Ok x
    | None => Raise IndexError
    end.

(** The integer nearest to [num / den], a tie going to the even one. *)
Definition round_half_even (num den : Z) : Z :=
  let q := num / den in
  let r := num mod den in
  if 2 * r <? den then q
  else if den <? 2 * r then q + 1
  else if Z.even q then q else q + 1.

(** [2 ** e] *)
Definition pow2 (e : Z) : Q :=
  if 0 <=? e then inject_Z (2 ^ e) else 1 # Z.to_pos (2 ^ (- e)).

(** The exponent of a positive [x]: the greatest [e] with [2 ** e <= x]. *)
Definition exponent (x : Q) : Z :=
  let e := Z.log2 (Qnum x) - Z.log2 (Z.pos (Qden x)) in
  if Qle_bool (pow2 e) x then e else e - 1.

Inductive float32 : Type :=
  | F32 (x : Q)
  | F32_inf (negative : bool).

(** [numpy.float32(x)] for a Python [float]: the nearest number with a
    mantissa of 24 bits, a tie going to the even mantissa; below [2 ** -126]
    the spacing is that of the subnormal numbers, and what rounds to
    [2 ** 128] is infinite. *)
Definition to_float32 (x : Q) : float32 :=
  if Qeq_bool x 0 then F32 0
  else
    let a := Z.abs (Qnum x) # Qden x in
    let ulp := pow2 (Z.max (exponent a) (-126) - 23) in
    let q := Qred (a / ulp) in
    let r := Qred (inject_Z (round_half_even (Qnum q) (Z.pos (Qden q))) * ulp) in
    if Qle_bool (pow2 128) r then F32_inf (Qnum x <? 0)
    else F32 (if Qnum x <? 0 then Qopp r else r).

(** [score >= threshold] for a [numpy.float32] score and a Python [float]
    threshold: the threshold is converted to [float32], and the two are
    compared there. *)
Definition float32_ge (sc threshold : Q) : bool :=
  match to_float32 threshold with
  | F32 t => Qle_bool t sc
  | F32_inf negative => negative
  end.

(** [for score, idx in zip(scores[0], indices[0])] *)
Fixpoint collect_results (md : list dict) (threshold : Q) (hits : list (Q * Z))
    (results : list SearchResult) : result (list SearchResult) :=
  match hits with
  | [] => Ok results
  | (sc, idx) :: rest =>
      if (idx <? Z.of_nat (length md)) && float32_ge sc threshold then
        match py_index md idx with
        | Ok m =>
            collect_results md threshold rest
              (results ++ [{| score := sc; r_metadata := m; position := idx |}])
        | Raise e => Raise e
        end
      else collect_results md threshold rest results
  end.

(** [results.sort(key=lambda x: x['score'], reverse=True)]: a stable sort,
    entries with equal scores stay in the order they had. *)
Fixpoint insert_desc (x : SearchResult) (l : list SearchResult)
  : list SearchResult :=
  match l with
  | [] => [x]
  | y :: l' =>
      if Qle_bool (score y) (score x) then x :: y :: l'
      else y :: insert_desc x l'
  end.

Definition sort_desc (l : list SearchResult) : list SearchResult :=
  foldr insert_desc [] l.

Definition pad3 (n : Z) : string :=
  (if n <? 10 then "00" else if n <? 100 then "0" else "") +:+ pretty n.

(** [f"{x:.3f}"]: the decimal expansion rounded to three places, a tie going
    to the even neighbour. *)
Definition format_3f (x : Q) : string :=
  let m := round_half_even (Z.abs (Qnum x) * 1000) (Z.pos (Qden x)) in
  (if Qnum x <? 0 then "-" else "")
    +:+ pretty (m / 1000) +:+ "." +:+ pad3 (m mod 1000).

Definition make_reference (result : SearchResult) : Reference :=
  let source := dict_get (r_metadata result) "source" (PyStr "Unknown Source") in
  let page := dict_get (r_metadata result) "page" (PyStr "") in
  let title := dict_get (r_metadata result) "title" (PyStr "") in
  {| module := py_or title source;
     ref_page := if truthy page then py_str page else "";
     ref_score := score result;
     source := source |}.

(** The line appended to [context_parts] at index [i]. *)
Definition context_line (i : nat) (result : SearchResult) : string :=
  let page := dict_get (r_metadata result) "page" (PyStr "") in
  let title := dict_get (r_metadata result) "title" (PyStr "") in
  "[Reference " +:+ pretty (Z.of_nat i + 1) +:+ "] " +:+ py_str title
    +:+ " - Page " +:+ py_str page
    +:+ " (Relevance: " +:+ format_3f (score result) +:+ ")".

(** A document handed to [add_documents]; a missing key is [None]. *)
Record Document := {
  doc_text : option string;
  doc_metadata : option dict
}.

Definition of_chunk (c : PDFProcessor.Chunk) : Document :=
  {| doc_text := Some (PDFProcessor.c_text c);
     doc_metadata := Some (PDFProcessor.c_metadata c) |}.

(** The documents [add_documents] keeps: those whose text is not blank. *)
Definition valid_documents (documents : list Document) : list (string * dict) :=
  omap (fun doc =>
          let text := default "" (doc_text doc) in
          if non_empty (strip text)
          then Some (text, default ∅ (doc_metadata doc))
          else None) documents.

Section Store.

(** [SentenceTransformer.encode], one text at a time. *)
Variable encode : string -> vector.

(** [index.search(x, k)] for one query row: the scores and the labels,
    paired. *)
Variable index_search : IndexFlatIP -> vector -> Z -> result (list (Q * Z)).

Definition encoder_encode (texts : list string) : M (list vector) :=
  modify (add_event (Encoded texts)) ;;
  ret (map encode texts).

Definition faiss_search (x : vector) (k : Z) : M (list (Q * Z)) :=
  modify (add_event (Searched k)) ;;
  let* ix := gets index in
  lift (index_search ix x k).

Definition add_documents (documents : list Document) : M unit :=
  match documents with
  | [] => log WARNING "No documents provided to add"
  | _ =>
      let texts := map fst (valid_documents documents) in
      let new_metadata := map snd (valid_documents documents) in
      match texts with
      | [] => log WARNING "No valid texts found in documents"
      | _ =>
          log INFO "Encoding documents" ;;
          let* embeddings := encoder_encode texts in
          index_add embeddings ;;
          let* md := gets metadata in
          modify (set_metadata (md ++ new_metadata)) ;;
          _save_index ;;
          log INFO "Added documents to vector store"
      end
  end.

Definition similarity_search (query : string) (k : Z) (threshold : Q)
  : M (list SearchResult) :=
  if negb (non_empty (strip query)) then ret []
  else
    let* query_embedding := encoder_encode [query] in
    let* hits := faiss_search (hd [] query_embedding) k in
    let* md := gets metadata in
    let* results := lift (collect_results md threshold hits []) in
    ret (sort_desc results).

Definition search_with_context (query : string) (k : Z) (threshold : Q)
  : M (string * list Reference) :=
  let* results := similarity_search query k threshold in
  match results with
  | [] => ret ("", [])
  | _ =>
      ret (join (String newline "") (imap context_line results),
           map make_reference results)
  end.

Definition update_documents (documents : list Document) : M unit :=
  log INFO "Updating documents in vector store" ;;
  clear_index ;;
  add_documents documents.

(** [index.search(x, k)] for the rows of [x], one answer per row; an
    exception of the call is an exception for all of them. *)
Fixpoint search_rows (ix : IndexFlatIP) (x : list vector) (k : Z)
  : result (list (list (Q * Z))) :=
  match x with
  | [] => Ok []
  | row :: rest =>
      match index_search ix row k with
      | Ok hits =>
          match search_rows ix rest k with
          | Ok others => Ok (hits :: others)
          | Raise e => Raise e
          end
      | Raise e => Raise e
      end
  end.

(** The inner loop of [batch_similarity_search]: no threshold. *)
Fixpoint collect_all (md : list dict) (hits : list (Q * Z))
    (query_results : list SearchResult) : result (list SearchResult) :=
  match hits with
  | [] => Ok query_results
  | (sc, idx) :: rest =>
      if idx <? Z.of_nat (length md) then
        match py_index md idx with
        | Ok m =>
            collect_all md rest
              (query_results ++ [{| score := sc; r_metadata := m; position := idx |}])
        | Raise e => Raise e
        end
      else collect_all md rest query_results
  end.

(** The outer loop of [batch_similarity_search]. *)
Fixpoint collect_rows (md : list dict) (rows : list (list (Q * Z)))
  : result (list (list SearchResult)) :=
  match rows with
  | [] => Ok []
  | hits :: rest =>
      match collect_all md hits [] with
      | Ok query_results =>
          match collect_rows md rest with
          | Ok others => Ok (sort_desc query_results :: others)
          | Raise e => Raise e
          end
      | Raise e => Raise e
      end
  end.

Definition batch_similarity_search (queries : list string) (k : Z)
  : M (list (list SearchResult)) :=
  match queries with
  | [] => ret []
  | _ =>
      let* query_embeddings := encoder_encode queries in
      modify (add_event (Searched k)) ;;
      let* ix := gets index in
      let* rows := lift (search_rows ix query_embeddings k) in
      let* md := gets metadata in
      lift (collect_rows md rows)
  end.

End Store.

(** *** A reference backend

    An exhaustive inner-product search as [faiss.IndexFlatIP] performs it:
    the wrapper asserts the dimension of the query and [k > 0]; the rows are
    met in the order of their labels and collected in a heap of [k] entries,
    which starts filled with the label [-1] and the lowest [float32] as
    score; a row enters the heap only with a score above the lowest of the
    heap, whose place it takes, so of the rows that tie for the last places
    those met first stay; the heap is emptied by decreasing score, the
    labels of equal scores decreasing. The inner products are exact here,
    where [faiss] rounds each operation to single precision. *)

Definition NEG_FLT_MAX : Q := inject_Z (- (2 ^ 128 - 2 ^ 104)).

Definition inner_product (u v : vector) : Q :=
  Qred (foldr Qplus 0%Q (zip_with Qmult u v)).

Definition hit_before (a b : Q * Z) : bool :=
  negb (Qle_bool (fst a) (fst b))
  || (Qeq_bool (fst a) (fst b) && (snd b <? snd a)).

Fixpoint insert_hit (x : Q * Z) (l : list (Q * Z)) : list (Q * Z) :=
  match l with
  | [] => [x]
  | y :: l' => if hit_before y x then y :: insert_hit x l' else x :: y :: l'
  end.

(** The heap, by decreasing score and label, after the row [x] was met. *)
Definition heap_push (heap : list (Q * Z)) (x : Q * Z) : list (Q * Z) :=
  match List.rev heap with
  | [] => heap
  | low :: above =>
      if Qle_bool (fst x) (fst low) then heap
      else insert_hit x (List.rev above)
  end.

Definition flat_ip_search (ix : IndexFlatIP) (x : vector) (k : Z)
  : result (list (Q * Z)) :=
  if negb (Z.of_nat (length x) =? d ix) then Raise AssertionError
  else if negb (k >? 0) then Raise AssertionError
  else
    let scored := imap (fun i v => (inner_product x v, Z.of_nat i)) (vectors ix) in
    Ok (fold_left heap_push scored (replicate (Z.to_nat k) (NEG_FLT_MAX, -1))).

End VectorStore.

(** ** [ThinkRChatbot]: the recommendations *)

Module Chatbot.

Import VectorStore.

Record Recommendation := {
  rec_topic : string;
  rec_module : pyval;
  rec_page : pyval;
  rec_source : pyval;
  relevance_score : Q;
  suggestion : string
}.

(** The body of the loop of [get_recommendations]. *)
Definition make_recommendation (topic : string) (doc : SearchResult)
  : Recommendation :=
  let metadata := r_metadata doc in
  {| rec_topic := topic;
     rec_module := dict_get metadata "title" (PyStr "Unknown Module");
     rec_page := dict_get metadata "page" (PyStr "");
     rec_source := dict_get metadata "source" (PyStr "");
     relevance_score := score doc;
     suggestion :=
       "Review " +:+ py_str (dict_get metadata "title" (PyStr "this module"))
         +:+ " on page " +:+ py_str (dict_get metadata "page" (PyStr "N/A")) |}.

(** [get_recommendations]: the search runs with the default threshold 0.5. *)
Definition get_recommendations
    (encode : string -> vector)
    (index_search : IndexFlatIP -> vector -> Z -> result (list (Q * Z)))
    (topic : string) (num_recommendations : Z) : M (list Recommendation) :=
  let* similar_docs :=
    similarity_search encode index_search topic num_recommendations (1 # 2) in
  ret (map (make_recommendation topic) similar_docs).

(** What [index_pdfs] returns. *)
Record IndexReport := {
  status : string;
  report_message : string;
  report_stats : option Stats
}.

(** [index_pdfs], for the files of the directory as [process_pdf_directory]
    finds them; the chatbot's [PDFProcessor()] has the default sizes. *)
Definition index_pdfs (encode : string -> vector)
    (files : list (option PDFProcessor.Extracted)) : M IndexReport :=
  log INFO "Indexing PDFs" ;;
  let chunks := PDFProcessor.process_pdf_directory 1000 200 files in
  match chunks with
  | [] =>
      ret {| status := "warning";
             report_message := "No PDF chunks found to index";
             report_stats := None |}
  | _ =>
      add_documents encode (map of_chunk chunks) ;;
      let* stats := gets get_index_stats in
      log INFO ("Indexed " +:+ pretty (total_documents stats) +:+ " documents") ;;
      ret {| status := "success";
             report_message :=
               "Successfully indexed " +:+ pretty (total_documents stats)
                 +:+ " documents";
             report_stats := Some stats |}
  end.

End Chatbot.

(** ** [PromptManager] *)

Module PromptManager.

Record ChatMessage := {
  role : string;
  content : string;
  timestamp : option string
}.

(** The object: the system prompt, whatever its text, and the history. *)
Record Manager := {
  system_prompt : string;
  conversation_history : list ChatMessage
}.

(** [{"role": ..., "content": ...}] *)
Definition message (r c : string) : string * string := (r, c).

(** [if context:] for a [context] that is [None] or a [str]. *)
Definition has_context (context : option string) : bool :=
  match context with
  | Some c => Str.non_empty c
  | None => false
  end.

Definition get_messages_with_context (pm : Manager) (user_message : string)
    (context : option string) : list (string * string) :=
  if has_context context then
    [message "system" (system_prompt pm);
     message "user"
       ("Relevant course material context:" +:+ String Str.newline
          (default "" context +:+ String Str.newline
             (String Str.newline ("User question: " +:+ user_message))))]
  else
    [message "system" (system_prompt pm); message "user" user_message].

Definition add_to_history (r c : string) (ts : option string) (pm : Manager)
  : Manager :=
  {| system_prompt := system_prompt pm;
     conversation_history :=
       conversation_history pm
         ++ [{| role := r; content := c; timestamp := ts |}] |}.

(** [l[-n:]]: for [n > 0] the last [n] entries, all of them when there are
    fewer; for [n = 0] the start is [-0 = 0], all of them; for [n < 0] the
    entries from [-n] on. *)
Definition last_slice {A} (l : list A) (n : Z) : list A :=
  let start := if 0 <? n then Z.max 0 (Z.of_nat (length l) - n) else - n in
  drop (Z.to_nat start) l.

Definition get_recent_history (pm : Manager) (max_messages : Z)
  : list (string * string) :=
  let recent_messages :=
    match conversation_history pm with
    | [] => []
    | _ => last_slice (conversation_history pm) max_messages
    end in
  map (fun msg => message (role msg) (content msg)) recent_messages.

Definition clear_history (pm : Manager) : Manager :=
  {| system_prompt := system_prompt pm; conversation_history := [] |}.

(** One iteration of the loop of [format_response_with_references]. *)
Definition reference_line (ref : dict) : string :=
  let module := dict_get ref "module" (PyStr "Unknown Module") in
  let timestamp := dict_get ref "timestamp" (PyStr "N/A") in
  let page := dict_get ref "page" (PyStr "") in
  let ref_text := "- **" +:+ py_str module +:+ "**" in
  let ref_text :=
    match timestamp with
    | PyStr "N/A" => ref_text
    | _ => ref_text +:+ " (Timestamp: " +:+ py_str timestamp +:+ ")"
    end in
  let ref_text :=
    if truthy page then ref_text +:+ " (Page: " +:+ py_str page +:+ ")"
    else ref_text in
  ref_text +:+ String Str.newline "".

Definition references_header : string :=
  String Str.newline (String Str.newline
    ("**Relevant Course References:**" +:+ String Str.newline "")).

(** [format_response_with_references]; [references] is [None] or a list. *)
Definition format_response_with_references (response : string)
    (references : option (list dict)) : string :=
  match references with
  | Some (ref :: refs) =>
      fold_left (fun formatted_response r => formatted_response +:+ reference_line r)
        (ref :: refs) (response +:+ references_header)
  | _ => response
  end.

(** The keys of a reference of [search_with_context] that the formatter
    reads; the key ['score'], a float, is not among them. *)
Definition reference_dict (ref : VectorStore.Reference) : dict :=
  <["module" := VectorStore.module ref]>
    (<["page" := PyStr (VectorStore.ref_page ref)]>
       (<["source" := VectorStore.source ref]> ∅)).

End PromptManager.

Import PDFProcessor.
Import VectorStore.

(** * Statements and inputs *)

(** The page of the overlap scenario. *)
Definition scenario_page : PageData :=
  {| pd_text := "Vectors store values. Use c() to combine them. Lists hold mixed types.";
     pd_page := 1;
     pd_filename := None |}.

(** The text of [test_split_into_sentences] and the fenced block in it. *)
Definition fenced_block : string :=
  "```r" +:+ String Str.newline "x <- 1" +:+ String Str.newline "```".

Definition fenced_text : string :=
  "This is a sentence. " +:+ fenced_block +:+ " This is another sentence.".

Definition fenced_page : PageData :=
  {| pd_text := fenced_text; pd_page := 1; pd_filename := Some "intro.pdf" |}.

(** Two plain sentences, no code. *)
Definition plain_page : PageData :=
  {| pd_text := "Aaaaaaaaa bbbbbbbbb cccccccccc. Dddddddd eeeeeeee ffffffff.";
     pd_page := 1;
     pd_filename := None |}.

(** A chunk is one code-block unit: it spans a single unit, and a code block
    of its page lies in its text. *)
Definition code_block_unit (pages : list PageData) (c : Chunk) : Prop :=
  start_sentence c = end_sentence c /\
  exists p code,
    In p pages /\ pd_page p = c_page c /\
    In code (Re.findall_code (pd_text p)) /\
    Str.contains code (c_text c) = true.

(** The size bound as the specification words it. *)
Definition size_bound_or_code (chunk_size chunk_overlap : Z)
    (pages : list PageData) : Prop :=
  forall c, In c (chunk_text chunk_size chunk_overlap pages) ->
    Str.len (c_text c) <= chunk_size \/ code_block_unit pages c.

(** The units of a list, each followed by a space: what the loop appends to
    the chunk under construction. *)
Fixpoint spaced (l : list string) : string :=
  match l with
  | [] => ""
  | u :: l' => u +:+ " " +:+ spaced l'
  end.

(** The text of a chunk of the units [first] to [last] whose first [m] units
    are an overlap window: the units of the window joined by a space, then,
    with nothing in between, the units that follow, joined by a space. *)
Definition window_text (units : list string) (first m last : Z) : string :=
  Str.join " " (Str.slice units first (first + m))
  +:+ Str.join " " (Str.slice units (first + m) (last + 1)).

(** The size bound of the code. The text of a chunk is made of the units of
    its page from [start_sentence] to [end_sentence], the first [m] of them
    being an overlap window of at most [chunk_overlap // 50] units; and the
    chunk fits, or it holds exactly one unit beyond its window. *)
Definition chunk_of_units (chunk_size chunk_overlap : Z) (units : list string)
    (c : Chunk) : Prop :=
  exists m,
    0 <= m <= chunk_overlap / 50 /\
    0 <= start_sentence c /\
    start_sentence c + m <= end_sentence c < Z.of_nat (length units) /\
    c_text c = window_text units (start_sentence c) m (end_sentence c) /\
    (Str.len (c_text c) <= chunk_size \/ end_sentence c = start_sentence c + m).

(** A chunk is one unit of its page, as it is. *)
Definition single_unit (units : list string) (c : Chunk) : Prop :=
  start_sentence c = end_sentence c /\
  units !! Z.to_nat (start_sentence c) = Some (c_text c).

(** A chunk of the pages, with the size bound of the code for the units of
    its page. *)
Definition chunk_ok (chunk_size chunk_overlap : Z) (pages : list PageData)
    (c : Chunk) : Prop :=
  exists p,
    In p pages /\ c_page c = pd_page p /\
    chunk_of_units chunk_size chunk_overlap (_split_into_sentences (pd_text p)) c /\
    (chunk_overlap < 50 ->
     Str.len (c_text c) <= chunk_size
     \/ single_unit (_split_into_sentences (pd_text p)) c).

(** The second chunk starts with the unit that ends the first. *)
Definition begins_with_overlap (sentences : list string) (c1 c2 : Chunk) : Prop :=
  exists u,
    sentences !! Z.to_nat (end_sentence c1) = Some u /\
    String.prefix u (c_text c2) = true.

Section ChunkerInvariant.

Variable chunk_size : Z.
Variable chunk_overlap : Z.
Variable units : list string.

(** What holds of the chunk under construction when [i] units have been
    consumed: nothing yet; or a window of [m] units and the units after it
    up to [i], each followed by a space, and it fits or holds one unit
    beyond the window. *)
Definition pending_ok (i : Z) (st : LoopState) : Prop :=
  if i =? 0 then current_chunk st = "" /\ chunk_start_sentence st = 0
  else
    exists m,
      0 <= m <= chunk_overlap / 50 /\
      0 <= chunk_start_sentence st /\
      chunk_start_sentence st + m <= i - 1 /\
      current_chunk st
      = Str.join " " (Str.slice units (chunk_start_sentence st)
                        (chunk_start_sentence st + m))
        +:+ spaced (Str.slice units (chunk_start_sentence st + m) i) /\
      (Str.len (Str.strip (current_chunk st)) <= chunk_size
       \/ i - 1 = chunk_start_sentence st + m).

(** The invariant of the loop over the units of a page. *)
Definition loop_inv (i : Z) (st : LoopState) : Prop :=
  0 <= i <= Z.of_nat (length units) /\
  Forall (chunk_of_units chunk_size chunk_overlap units) (chunks st) /\
  pending_ok i st.

End ChunkerInvariant.

(** The state after the encoder and the backend were called. *)
Definition searched (query : string) (k : Z) (s : State) : State :=
  add_event (Searched k) (add_event (Encoded [query]) s).

(** A backend row passes the filter of the loop. *)
Definition passes (md : list dict) (threshold : Q) (h : Q * Z) : bool :=
  (snd h <? Z.of_nat (length md)) && float32_ge (fst h) threshold.

(** The rows of the backend that the loop retains, in the backend's order. *)
Definition kept (md : list dict) (threshold : Q) (hits : list (Q * Z))
  : list (Q * Z) :=
  List.filter (passes md threshold) hits.

Definition hit_of (r : SearchResult) : Q * Z := (score r, position r).

(** [sc] is at least the threshold taken in single precision. *)
Definition at_least32 (threshold sc : Q) : Prop :=
  match to_float32 threshold with
  | F32 t => (t <= sc)%Q
  | F32_inf negative => negative = true
  end.

(** [x] is a number of single precision. *)
Definition is_float32 (x : Q) : Prop :=
  exists t, to_float32 x = F32 t /\ (t == x)%Q.

Definition desc (a b : SearchResult) : Prop := (score b <= score a)%Q.

Definition same_score (v : Q) (r : SearchResult) : bool := Qeq_bool (score r) v.

(** Ties go to the earlier position, as the specification words it. *)
Definition ties_by_insertion (results : list SearchResult) : Prop :=
  forall (i j : nat) (r1 r2 : SearchResult),
    results !! i = Some r1 -> results !! j = Some r2 -> (i < j)%nat ->
    (score r1 == score r2)%Q -> position r1 < position r2.

Definition demo_query : string := "How do I combine values?".

(** A synthetic embedding space of dimension 2. *)
Definition demo_encode (text : string) : vector :=
  if String.prefix "Use c()" text then [4 # 5; 3 # 5]%Q
  else if String.prefix "Lists" text then [3 # 5; 4 # 5]%Q
  else [1; 0]%Q.

Definition fresh_disk : Disk :=
  {| index_file := Missing; metadata_file := Missing;
     index_writable := true; metadata_writable := true;
     index_failure := at_open; metadata_failure := at_open |}.

Definition empty_store : State := snd (__init__ "all-MiniLM-L6-v2" 2 fresh_disk).

(** A chunk as [chunk_text] emits it: a source and a page, no title. *)
Definition doc_intro : Document :=
  {| doc_text := Some "Use c() to combine them.";
     doc_metadata :=
       Some (<["source" := PyStr "intro.pdf"]> (<["page" := PyInt 3]> ∅)) |}.

(** The same passage in a second file. *)
Definition doc_basics : Document :=
  {| doc_text := Some "Use c() to combine them.";
     doc_metadata :=
       Some (<["source" := PyStr "basics.pdf"]> (<["page" := PyInt 7]> ∅)) |}.

Definition store_one : State := snd (add_documents demo_encode [doc_intro] empty_store).

Definition store_twins : State :=
  snd (add_documents demo_encode [doc_intro; doc_basics] empty_store).

(** An embedding space in which a passage scores one half. *)
Definition half_encode (text : string) : vector :=
  if String.prefix "Half" text then [1 # 2; 0]%Q else [1; 0]%Q.

Definition doc_half : Document :=
  {| doc_text := Some "Half of it.";
     doc_metadata :=
       Some (<["source" := PyStr "half.pdf"]> (<["page" := PyInt 1]> ∅)) |}.

Definition store_half : State := snd (add_documents half_encode [doc_half] empty_store).

(** A threshold just above one half. *)
Definition above_half : Q := 500000000931 # 1000000000000.

(** The ranking as the specification words it. *)
Definition ranked_by_spec (k : Z) (threshold : Q) (results : list SearchResult)
  : Prop :=
  Z.of_nat (length results) <= k /\
  Forall (fun r => (threshold <= score r)%Q) results /\
  StronglySorted desc results /\
  ties_by_insertion results.

Definition twins_results : list SearchResult :=
  [{| score := 4 # 5;
      r_metadata := <["source" := PyStr "basics.pdf"]> (<["page" := PyInt 7]> ∅);
      position := 1 |};
   {| score := 4 # 5;
      r_metadata := <["source" := PyStr "intro.pdf"]> (<["page" := PyInt 3]> ∅);
      position := 0 |}].

(** [total_documents == index_size] *)
Definition consistent (s : State) : Prop :=
  total_documents (get_index_stats s) = index_size (get_index_stats s).

(** The persisted pair has as many metadata entries as vectors, when both
    artifacts can be read. *)
Definition disk_consistent (dk : Disk) : Prop :=
  match index_file dk, metadata_file dk with
  | Stored ix, Stored md => Z.of_nat (length md) = ntotal ix
  | _, _ => True
  end.

(** The fields of the object are those of [s]. *)
Definition same_memory (s s' : State) : Prop :=
  index s' = index s /\ metadata s' = metadata s /\
  dimension s' = dimension s /\ model_name s' = model_name s.

Definition save_failed : event := Logged ERROR "Failed to save index".

(** The files that a save which fails leaves, for the object and the files
    of [s]. When the index cannot be written the metadata file is as it was,
    and the index file is as it was or emptied; when only the metadata
    cannot be written the index file holds the index, and the metadata file
    is as it was when it could not be opened, emptied when [pickle.dump]
    broke off. *)
Definition left_by_failed_save (s : State) (dk : Disk) : Prop :=
  (index_writable (disk s) = false ->
   metadata_file dk = metadata_file (disk s) /\
   index_file dk = match index_failure (disk s) with
                   | at_open => index_file (disk s)
                   | after_open => Corrupt
                   end) /\
  (index_writable (disk s) = true ->
   index_file dk = Stored (index s) /\
   metadata_file dk = match metadata_failure (disk s) with
                      | at_open => metadata_file (disk s)
                      | after_open => Corrupt
                      end).

(** The rows of [x] have the dimension of the index of [s]. *)
Definition rows_fit (x : list vector) (s : State) : bool :=
  forallb (fun v => Z.of_nat (length v) =? d (index s)) x.

(** The state in which [add_documents] calls [_save_index]. *)
Definition extended (encode : string -> vector) (documents : list Document)
    (s : State) : State :=
  let valid := valid_documents documents in
  let x := map encode (map fst valid) in
  set_metadata (metadata s ++ map snd valid)
    (add_event (Added (length x))
       (set_index {| d := d (index s); vectors := vectors (index s) ++ x |}
          (add_event (Encoded (map fst valid))
             (add_event (Logged INFO "Encoding documents") s)))).

(** The state in which [clear_index] calls [_save_index]. *)
Definition cleared (s : State) : State :=
  set_metadata [] (set_index (new_IndexFlatIP (dimension s)) s).

Definition mismatched_disk : Disk :=
  {| index_file := Stored {| d := 2; vectors := [[4 # 5; 3 # 5]; [3 # 5; 4 # 5]]%Q |};
     metadata_file := Stored [<["source" := PyStr "intro.pdf"]> (<["page" := PyInt 3]> ∅)];
     index_writable := true;
     metadata_writable := true;
     index_failure := at_open;
     metadata_failure := at_open |}.



(** The store of one document on a disk that refuses the writes. *)
Definition readonly_store : State :=
  set_disk {| index_file := index_file (disk store_one);
              metadata_file := metadata_file (disk store_one);
              index_writable := false;
              metadata_writable := false;
              index_failure := at_open;
              metadata_failure := at_open |} store_one.

(** The store of one document on a disk where the index is written and
    [pickle.dump] breaks off. *)
Definition full_disk_store : State :=
  set_disk {| index_file := index_file (disk store_one);
              metadata_file := metadata_file (disk store_one);
              index_writable := true;
              metadata_writable := false;
              index_failure := at_open;
              metadata_failure := after_open |} store_one.

(** ** Vocabulary of the further properties *)

(** [s] has a character that is not white space. *)
Fixpoint has_ink (s : string) : bool :=
  match s with
  | EmptyString => false
  | String c s' => negb (Str.is_space c) || has_ink s'
  end.

(** [s.strip() == s] *)
Definition trimmed (s : string) : Prop := Str.strip s = s.

(** [u] occurs in [x]. *)
Definition substr (u x : string) : Prop := exists a b, x = a +:+ (u +:+ b).

(** A chunk is of the page [p]: its number and its metadata. *)
Definition of_page (p : PageData) (c : Chunk) : Prop :=
  c_page c = pd_page p /\ c_metadata c = page_metadata p.

(** A unit as [_split_into_sentences] returns them. *)
Definition unit_like (u : string) : Prop := trimmed u /\ has_ink u = true.

(** A chunk as it should be: of the page, its text trimmed and not blank. *)
Definition sound_chunk (p : PageData) (c : Chunk) : Prop :=
  of_page p c /\ trimmed (c_text c) /\ has_ink (c_text c) = true.

(** Each of the units [us] is in a chunk emitted so far, or in the chunk
    under construction. *)
Definition covers (us : list string) (st : LoopState) : Prop :=
  forall u, In u us ->
    (exists c, In c (chunks st) /\ substr u (c_text c)) \/
    substr u (current_chunk st).

(** The characters of [s] that are not white space, in order. *)
Fixpoint squeeze (s : string) : string :=
  match s with
  | EmptyString => EmptyString
  | String c s' => if Str.is_space c then squeeze s' else String c (squeeze s')
  end.

(** The texts of a list, put end to end. *)
Definition concat_str (l : list string) : string := foldr String.append "" l.
Arguments concat_str : simpl never.

(** A page of white space only. *)
Definition blank_page : PageData :=
  {| pd_text := String Str.newline "   "; pd_page := 2; pd_filename := None |}.

(** The order of references and of recommendations: by score, as the
    results. *)
Definition desc_ref (a b : Reference) : Prop := (ref_score b <= ref_score a)%Q.

Definition desc_rec (a b : Chatbot.Recommendation) : Prop :=
  (Chatbot.relevance_score b <= Chatbot.relevance_score a)%Q.

(** A list of results as a search returns it for [k] and a threshold. *)
Definition ranked (k : Z) (threshold : Q) (md : list dict)
    (results : list SearchResult) : Prop :=
  Z.of_nat (length results) <= k /\
  Forall (fun r => at_least32 threshold (score r)) results /\
  Forall (fun r => position r < Z.of_nat (length md)) results /\
  StronglySorted desc results.

(** The results of a search over the rows [hits] of the backend: one for
    each row that the loop retains, with the metadata stored at its
    position, by non-increasing score. *)
Definition results_of (md : list dict) (threshold : Q) (hits : list (Q * Z))
    (results : list SearchResult) : Prop :=
  Permutation (map hit_of results) (kept md threshold hits) /\
  Forall (fun r => py_index md (position r) = Ok (r_metadata r)) results /\
  StronglySorted desc results.

(** The rows that the loop of [batch_similarity_search] retains: no
    threshold. *)
Definition kept_all (md : list dict) (hits : list (Q * Z)) : list (Q * Z) :=
  List.filter (fun h => snd h <? Z.of_nat (length md)) hits.

(** The results of the batch search for one query, over the rows [hits]. *)
Definition batch_results_of (md : list dict) (hits : list (Q * Z))
    (results : list SearchResult) : Prop :=
  Permutation (map hit_of results) (kept_all md hits) /\
  Forall (fun r => py_index md (position r) = Ok (r_metadata r)) results /\
  StronglySorted desc results.

(** No label of the rows lies below [-len(md)]. *)
Definition labels_indexable (md : list dict) (hits : list (Q * Z)) : bool :=
  forallb (fun h => - Z.of_nat (length md) <=? snd h) hits.

(** A list of results of [batch_similarity_search] for one query. *)
Definition batch_ranked (k : Z) (md : list dict) (results : list SearchResult)
  : Prop :=
  Z.of_nat (length results) <= k /\
  Forall (fun r => position r < Z.of_nat (length md)) results /\
  StronglySorted desc results.

(** Two queries, the second of them blank. *)
Definition batch_demo : list string := [demo_query; "  "].

(** A file of three pages, the second without text and the third blank, as
    [_extract_with_pdfplumber] returns it. *)
Definition demo_extracted : Extracted :=
  _extract_with_pdfplumber
    (<["Title" := PyStr "R basics"]> ∅)
    [Some (pd_text scenario_page); None; Some "   "]
    "intro.pdf".

(** The first chunk of that file. *)
Definition demo_chunk : Chunk :=
  {| c_text := "Vectors store values. Use c() to combine them.";
     c_page := 1;
     start_sentence := 0;
     end_sentence := 1;
     c_metadata :=
       <["filename" := PyStr "intro.pdf"]>
         (<["subject" := PyStr ""]>
            (<["author" := PyStr ""]>
               (<["title" := PyStr "R basics"]>
                  (<["source" := PyStr ""]> (<["page" := PyInt 1]> ∅))))) |}.

(** [{"role": msg.role, "content": msg.content}] *)
Definition view (msg : PromptManager.ChatMessage) : string * string :=
  PromptManager.message (PromptManager.role msg) (PromptManager.content msg).

(** The line of the formatter for a reference of the retriever. *)
Definition retriever_line (ref : Reference) : string :=
  "- **" +:+ py_str (module ref) +:+ "**"
    +:+ (if Str.non_empty (ref_page ref)
         then " (Page: " +:+ ref_page ref +:+ ")" else "")
    +:+ String Str.newline "".

(** A manager with two messages. *)
Definition demo_manager : PromptManager.Manager :=
  PromptManager.add_to_history "assistant" "Use c()." None
    (PromptManager.add_to_history "user" "How do I combine values?" None
       {| PromptManager.system_prompt := "You are a friendly R tutor.";
          PromptManager.conversation_history := [] |}).

(** The text of [test_extract_timestamps]. *)
Definition stamps_text : string :=
  "At 12:34 we discussed vectors. Later at 1:23:45 we covered data frames.".

(** A text of digits only. *)
Fixpoint digits_only (x : string) : bool :=
  match x with
  | EmptyString => true
  | String c x' => is_digit c && digits_only x'
  end.

(** [n] digits. *)
Definition digits (n : nat) (x : string) : Prop :=
  digits_only x = true /\ String.length x = n.

(** The three forms of a timestamp: [M:SS], [H:MM:SS] and [H:MM:SS.mmm],
    the first field of one or two digits. *)
Definition stamp_mm_ss (t : string) : Prop :=
  exists a b, (digits 1 a \/ digits 2 a) /\ digits 2 b /\ t = a +:+ ":" +:+ b.

Definition stamp_hh_mm_ss (t : string) : Prop :=
  exists a b c,
    (digits 1 a \/ digits 2 a) /\ digits 2 b /\ digits 2 c /\
    t = a +:+ ":" +:+ b +:+ ":" +:+ c.

Definition stamp_hh_mm_ss_mmm (t : string) : Prop :=
  exists a b c e,
    (digits 1 a \/ digits 2 a) /\ digits 2 b /\ digits 2 c /\ digits 3 e /\
    t = a +:+ ":" +:+ b +:+ ":" +:+ c +:+ "." +:+ e.

(** What is left by a matcher is what follows a text with [P]. *)
Definition sound (m : matcher) (P : string -> Prop) : Prop :=
  forall s rest, In rest (m s) -> exists x, s = x +:+ rest /\ P x.

(** The text has the character [a]. *)
Fixpoint has_char (a : ascii) (s : string) : bool :=
  match s with
  | EmptyString => false
  | String c s' => Ascii.eqb c a || has_char a s'
  end.

(** * Proofs *)

(** ** Strings *)

Lemma str_length_app (a b : string) :
  String.length (a +:+ b) = (String.length a + String.length b)%nat.
Proof.
  induction a as [|c a IH]; [reflexivity |].
  change (S (String.length (a +:+ b)) = S (String.length a + String.length b)).
  now rewrite IH.
Qed.

Lemma app_assoc_str (a b c : string) : (a +:+ b) +:+ c = a +:+ (b +:+ c).
Proof.
  induction a as [|x a IH]; [reflexivity |].
  change (String x ((a +:+ b) +:+ c) = String x (a +:+ (b +:+ c))).
  now rewrite IH.
Qed.

Lemma length_lstrip (s : string) :
  (String.length (Str.lstrip s) <= String.length s)%nat.
Proof.
  induction s as [|c s IH]; simpl; [lia |].
  destruct (Str.is_space c); simpl; lia.
Qed.

Lemma length_rstrip (s : string) :
  (String.length (Str.rstrip s) <= String.length s)%nat.
Proof.
  induction s as [|c s IH]; simpl; [lia |].
  destruct (Str.rstrip s) as [|c' r]; simpl in *.
  - destruct (Str.is_space c); simpl; lia.
  - lia.
Qed.

Lemma rstrip_app_space (s : string) : Str.rstrip (s +:+ " ") = Str.rstrip s.
Proof.
  induction s as [|c s IH]; [reflexivity |].
  change (Str.rstrip (String c (s +:+ " ")) = Str.rstrip (String c s)).
  simpl. now rewrite IH.
Qed.

Lemma length_strip (s : string) :
  (String.length (Str.strip s) <= String.length s)%nat.
Proof.
  unfold Str.strip.
  pose proof (length_lstrip (Str.rstrip s)). pose proof (length_rstrip s). lia.
Qed.

(** Stripping what ends with the separator that the loop appends costs at
    least that separator. *)
Lemma len_strip_app_space (s : string) :
  Str.len (Str.strip (s +:+ " ")) <= Str.len s.
Proof.
  unfold Str.len, Str.strip. rewrite rstrip_app_space.
  pose proof (length_lstrip (Str.rstrip s)). pose proof (length_rstrip s). lia.
Qed.

Lemma non_empty_false (s : string) : Str.non_empty s = false -> s = "".
Proof. destruct s; simpl; [reflexivity | discriminate]. Qed.

(** ** The chunker *)

Lemma non_empty_app_space (a b : string) :
  Str.non_empty (a +:+ (b +:+ " ")) = true.
Proof. destruct a; [destruct b |]; reflexivity. Qed.

(** C2, as stated, fails: with [chunk_size = 20] and [chunk_overlap = 50] the
    second chunk of two plain sentences is longer than 20 characters, and the
    page has no code block at all. *)
Lemma size_bound_or_code_fails : ~ size_bound_or_code 20 50 [plain_page].
Proof.
  intros H.
  destruct (H {| c_text := "Aaaaaaaaa bbbbbbbbb cccccccccc.Dddddddd eeeeeeee ffffffff.";
                 c_page := 1; start_sentence := 0; end_sentence := 1;
                 c_metadata := page_metadata plain_page |})
    as [Hlen | [Hspan _]].
  - vm_compute. right. left. reflexivity.
  - vm_compute in Hlen. apply Hlen. reflexivity.
  - simpl in Hspan. discriminate.
Qed.

(** The two ways in which a chunk exceeds the size: a plain sentence that is
    too long by itself, and an overlap window put in front of a unit. *)
Example oversize_chunks :
  map (fun c => (c_text c, start_sentence c, end_sentence c))
    (chunk_text 20 50 [plain_page])
  = [("Aaaaaaaaa bbbbbbbbb cccccccccc.", 0, 0);
     ("Aaaaaaaaa bbbbbbbbb cccccccccc.Dddddddd eeeeeeee ffffffff.", 0, 1)].
Proof. vm_compute. reflexivity. Qed.

(** C7, as amended. With [chunk_size = 50] and [chunk_overlap = 10] the page
    of the scenario gives exactly two chunks; the overlap window is
    [10 // 50 = 0] units, so the second chunk is the third sentence alone and
    starts at unit 2, after the last unit of the first. *)
Theorem scenario_chunks :
  map (fun c => (c_text c, c_page c, start_sentence c, end_sentence c))
    (chunk_text 50 10 [scenario_page])
  = [("Vectors store values. Use c() to combine them.", 1, 0, 1);
     ("Lists hold mixed types.", 1, 2, 2)]
  /\ overlap_start 10 2 = 2.
Proof. split; vm_compute; reflexivity. Qed.

(** C7, as stated, fails: there are two chunks, but the second does not begin
    with the last sentence of the first. *)
Lemma scenario_no_overlap :
  ~ exists c1 c2,
      chunk_text 50 10 [scenario_page] = [c1; c2] /\
      begins_with_overlap (_split_into_sentences (pd_text scenario_page)) c1 c2.
Proof.
  intros (c1 & c2 & Heq & u & Hu & Hpre).
  vm_compute in Heq. injection Heq as <- <-.
  vm_compute in Hu. injection Hu as <-.
  vm_compute in Hpre. discriminate.
Qed.

(** C6 at the text of [test_split_into_sentences]: the fences are dropped
    when the code is put back, so the fenced block is in no sentence and in no
    chunk, and the first sentence is not the one the test expects. *)
Theorem fenced_block_not_preserved :
  _split_into_sentences fenced_text
  = ["This is a sentence."; "x <- 1 This is another sentence."]
  /\ map c_text (chunk_text 1000 200 [fenced_page])
     = ["This is a sentence. x <- 1 This is another sentence."]
  /\ Str.contains fenced_block fenced_text = true
  /\ forallb (fun c => negb (Str.contains fenced_block (c_text c)))
       (chunk_text 1000 200 [fenced_page]) = true.
Proof. repeat split; vm_compute; reflexivity. Qed.

(** ** Ranking *)

Lemma Qle_bool_false (a b : Q) : Qle_bool a b = false -> (b < a)%Q.
Proof.
  intros H. apply Qnot_le_lt. intros Hle.
  apply Qle_bool_iff in Hle. congruence.
Qed.

Lemma insert_desc_Forall (P : SearchResult -> Prop) x l :
  P x -> Forall P l -> Forall P (insert_desc x l).
Proof.
  intros Hx Hl. induction l as [|y l IH]; simpl.
  - now constructor.
  - inversion Hl; subst.
    destruct (Qle_bool (score y) (score x)); repeat constructor; auto.
Qed.

Lemma insert_desc_length x l : length (insert_desc x l) = S (length l).
Proof.
  induction l as [|y l IH]; simpl; [reflexivity |].
  destruct (Qle_bool (score y) (score x)); simpl; [reflexivity | now rewrite IH].
Qed.

Lemma insert_desc_sorted x l :
  StronglySorted desc l -> StronglySorted desc (insert_desc x l).
Proof.
  induction l as [|y l IH]; intros Hs; simpl.
  - repeat constructor.
  - inversion Hs as [|? ? Hs' Hy]; subst.
    destruct (Qle_bool (score y) (score x)) eqn:Hle.
    + apply Qle_bool_iff in Hle.
      constructor; [exact Hs |]. constructor; [exact Hle |].
      eapply Forall_impl; [exact Hy |].
      intros z Hz. unfold desc in *. now apply Qle_trans with (score y).
    + apply Qle_bool_false in Hle.
      constructor; [now apply IH |].
      apply insert_desc_Forall; [| exact Hy].
      unfold desc. now apply Qlt_le_weak.
Qed.

(** An entry is put in front of the entries of its own score: the sort is
    stable. *)
Lemma insert_desc_filter v x l :
  List.filter (same_score v) (insert_desc x l)
  = if same_score v x then x :: List.filter (same_score v) l
    else List.filter (same_score v) l.
Proof.
  induction l as [|y l IH]; simpl.
  - reflexivity.
  - destruct (Qle_bool (score y) (score x)) eqn:Hle; simpl; [reflexivity |].
    rewrite IH. destruct (same_score v x) eqn:Hx; [| reflexivity].
    assert (Hy : same_score v y = false).
    { unfold same_score in *. destruct (Qeq_bool (score y) v) eqn:Hy; [| reflexivity].
      apply Qeq_bool_iff in Hx, Hy. apply Qle_bool_false in Hle.
      rewrite Hx, Hy in Hle. now apply Qlt_irrefl in Hle. }
    now rewrite Hy.
Qed.

Lemma sort_desc_sorted l : StronglySorted desc (sort_desc l).
Proof.
  induction l as [|x l IH]; simpl; [constructor | now apply insert_desc_sorted].
Qed.

Lemma sort_desc_length l : length (sort_desc l) = length l.
Proof.
  induction l as [|x l IH]; simpl; [reflexivity |].
  now rewrite insert_desc_length, IH.
Qed.

Lemma sort_desc_Forall (P : SearchResult -> Prop) l :
  Forall P l -> Forall P (sort_desc l).
Proof.
  induction 1; simpl; [constructor | now apply insert_desc_Forall].
Qed.

Lemma sort_desc_stable v l :
  List.filter (same_score v) (sort_desc l) = List.filter (same_score v) l.
Proof.
  induction l as [|x l IH]; simpl; [reflexivity |].
  rewrite insert_desc_filter, IH. reflexivity.
Qed.

(** The test of the loop on the score. *)
Lemma float32_ge_spec (sc threshold : Q) :
  float32_ge sc threshold = true <-> at_least32 threshold sc.
Proof.
  unfold float32_ge, at_least32.
  destruct (to_float32 threshold) as [t|negative];
    [apply Qle_bool_iff | reflexivity].
Qed.

(** For a threshold of single precision the test is the comparison of the
    two numbers. *)
Lemma at_least32_exact (threshold sc : Q) :
  is_float32 threshold -> at_least32 threshold sc -> (threshold <= sc)%Q.
Proof.
  intros (t & Ht & Heq). unfold at_least32. rewrite Ht. intros H.
  now rewrite <- Heq.
Qed.

(** The loop appends one entry per retained row, in order. *)
Lemma collect_results_hits md threshold hits : forall acc res,
  collect_results md threshold hits acc = Ok res ->
  map hit_of res = map hit_of acc ++ kept md threshold hits.
Proof.
  induction hits as [|[sc idx] hits IH]; intros acc res H; simpl in H.
  - injection H as <-. unfold kept. simpl. now rewrite app_nil_r.
  - unfold kept, passes. simpl.
    destruct ((idx <? Z.of_nat (length md)) && float32_ge sc threshold) eqn:Hp.
    + destruct (py_index md idx) as [m|e]; [| discriminate].
      apply IH in H. rewrite H, map_app. simpl.
      now rewrite <- app_assoc.
    + now apply IH in H.
Qed.

Lemma filter_length_le {A} (f : A -> bool) (l : list A) :
  (length (List.filter f l) <= length l)%nat.
Proof.
  induction l as [|x l IH]; simpl; [lia |]. destruct (f x); simpl; lia.
Qed.

Lemma kept_passes md threshold hits :
  Forall (fun h => passes md threshold h = true) (kept md threshold hits).
Proof.
  unfold kept. induction hits as [|h hits IH]; simpl; [constructor |].
  destruct (passes md threshold h) eqn:Hp; [constructor |]; assumption.
Qed.

(** ** [similarity_search] *)

Section SearchProofs.

Variable encode : string -> vector.
Variable index_search : IndexFlatIP -> vector -> Z -> result (list (Q * Z)).

Let search := similarity_search encode index_search.

Lemma similarity_search_blank query k threshold s :
  Str.non_empty (Str.strip query) = false ->
  search query k threshold s = (Ok [], s).
Proof.
  intros H. unfold search, similarity_search. now rewrite H.
Qed.

Lemma similarity_search_unfold query k threshold s :
  Str.non_empty (Str.strip query) = true ->
  search query k threshold s
  = match index_search (index s) (encode query) k with
    | Ok hits =>
        match collect_results (metadata s) threshold hits [] with
        | Ok res => (Ok (sort_desc res), searched query k s)
        | Raise e => (Raise e, searched query k s)
        end
    | Raise e => (Raise e, searched query k s)
    end.
Proof.
  intros H. unfold search, similarity_search. rewrite H. simpl.
  unfold bind, encoder_encode, faiss_search, bind, modify, ret, gets, lift, searched.
  simpl.
  destruct (index_search (index s) (encode query) k) as [hits|e]; [| reflexivity].
  destruct (collect_results (metadata s) threshold hits []); reflexivity.
Qed.

(** What a successful call returns. *)
Lemma similarity_search_ok query k threshold s results s' :
  search query k threshold s = (Ok results, s') ->
  (Str.non_empty (Str.strip query) = false /\ results = [] /\ s' = s) \/
  (Str.non_empty (Str.strip query) = true /\
   exists hits res,
     index_search (index s) (encode query) k = Ok hits /\
     collect_results (metadata s) threshold hits [] = Ok res /\
     results = sort_desc res /\ s' = searched query k s).
Proof.
  intros H. destruct (Str.non_empty (Str.strip query)) eqn:Hq.
  - right. split; [reflexivity |].
    rewrite similarity_search_unfold in H by exact Hq.
    destruct (index_search (index s) (encode query) k) as [hits|e];
      [| discriminate].
    destruct (collect_results (metadata s) threshold hits []) as [res|e] eqn:Hc;
      [| discriminate].
    injection H as <- <-. now exists hits, res.
  - left. rewrite similarity_search_blank in H by exact Hq.
    injection H as <- <-. auto.
Qed.

Lemma ranked_properties md threshold hits res :
  collect_results md threshold hits [] = Ok res ->
  (length (sort_desc res) <= length hits)%nat /\
  Forall (fun r => at_least32 threshold (score r)) (sort_desc res) /\
  Forall (fun r => position r < Z.of_nat (length md)) (sort_desc res) /\
  StronglySorted desc (sort_desc res) /\
  forall v,
    map position (List.filter (same_score v) (sort_desc res))
    = map snd (List.filter (fun h => Qeq_bool (fst h) v) (kept md threshold hits)).
Proof.
  intros Hc. apply collect_results_hits in Hc. simpl in Hc.
  assert (Hall : Forall (fun r => passes md threshold (hit_of r) = true) res).
  { pose proof (kept_passes md threshold hits) as Hk. rewrite <- Hc in Hk.
    clear Hc. induction res as [|r res IH]; [constructor |].
    inversion Hk; subst. constructor; auto. }
  split; [| split; [| split; [| split]]].
  - rewrite sort_desc_length.
    rewrite <- (length_map hit_of), Hc. apply filter_length_le.
  - apply sort_desc_Forall. eapply Forall_impl; [exact Hall |].
    intros r Hr. unfold passes in Hr. apply andb_true_iff in Hr as [_ Hr].
    now apply float32_ge_spec.
  - apply sort_desc_Forall. eapply Forall_impl; [exact Hall |].
    intros r Hr. unfold passes in Hr. apply andb_true_iff in Hr as [Hr _].
    now apply Z.ltb_lt in Hr.
  - apply sort_desc_sorted.
  - intros v. rewrite sort_desc_stable, <- Hc. clear.
    induction res as [|r res IH]; simpl; [reflexivity |].
    unfold same_score at 1. simpl.
    destruct (Qeq_bool (score r) v); simpl; now rewrite IH.
Qed.

End SearchProofs.

(** C1, as amended. For every query, positive [k] and threshold, when the
    backend answers with at most [k] rows, [similarity_search] returns at
    most [k] results, each with a score of at least the threshold rounded to
    single precision (the comparison is made there), hence of at least the
    threshold when that is a number of single precision; they are sorted by
    non-increasing score, and results of equal score keep the order in which
    the backend returned them (the sort is stable), whatever their
    positions. *)
Theorem similarity_search_ranked
    (encode : string -> vector)
    (index_search : IndexFlatIP -> vector -> Z -> result (list (Q * Z)))
    (query : string) (k : Z) (threshold : Q) (s s' : State)
    (results : list SearchResult) :
  0 < k ->
  (forall hits, index_search (index s) (encode query) k = Ok hits ->
                Z.of_nat (length hits) <= k) ->
  similarity_search encode index_search query k threshold s = (Ok results, s') ->
  Z.of_nat (length results) <= k /\
  Forall (fun r => at_least32 threshold (score r)) results /\
  (is_float32 threshold -> Forall (fun r => (threshold <= score r)%Q) results) /\
  StronglySorted desc results /\
  (forall hits v,
     Str.non_empty (Str.strip query) = true ->
     index_search (index s) (encode query) k = Ok hits ->
     map position (List.filter (same_score v) results)
     = map snd (List.filter (fun h => Qeq_bool (fst h) v)
                  (kept (metadata s) threshold hits))).
Proof.
  intros Hk Hlen Hs.
  apply similarity_search_ok in Hs
    as [(Hq & -> & ->) | (Hq & hits & res & Hh & Hc & -> & ->)].
  - repeat split; try constructor; simpl; try lia.
    intros hits v Hq'. congruence.
  - destruct (ranked_properties _ _ _ _ Hc) as (Hl & Ht & _ & Hsorted & Hstable).
    specialize (Hlen hits Hh).
    split; [lia |]. split; [exact Ht |]. split; [| split; [exact Hsorted |]].
    + intros Hf. eapply Forall_impl; [exact Ht |].
      intros r Hr. now apply at_least32_exact.
    + intros hits' v _ Hh'. rewrite Hh in Hh'. injection Hh' as <-. apply Hstable.
Qed.

(** The rounding at a few numbers: one tenth; an integer between two numbers
    of single precision, the tie going to the even mantissa; half of the
    smallest subnormal number; [2 ** 128]; and the threshold just above one
    half. *)
Example to_float32_values :
  to_float32 (1 # 10) = F32 (13421773 # 134217728)
  /\ to_float32 (inject_Z 16777217) = F32 (inject_Z 16777216)
  /\ to_float32 (1 # Z.to_pos (2 ^ 150)) = F32 0
  /\ to_float32 (inject_Z (- 2 ^ 128)) = F32_inf true
  /\ to_float32 above_half = F32 (1 # 2).
Proof. repeat split; vm_compute; reflexivity. Qed.

(** The threshold is compared in single precision: a passage that scores
    one half is returned for a threshold just above one half. *)
Example threshold_in_single_precision :
  (1 # 2 < above_half)%Q /\
  exists results s',
    similarity_search half_encode flat_ip_search demo_query 2 above_half store_half
    = (Ok results, s') /\
    map hit_of results = [(1 # 2, 0)].
Proof.
  split; [reflexivity |].
  eexists _, _. split; [vm_compute; reflexivity | reflexivity].
Qed.

(** The reference backend on rows that tie: with [k = 1] the row met first
    stays, with [k = 2] both come, the greater label first. *)
Example flat_ip_search_ties :
  flat_ip_search (index store_twins) (demo_encode demo_query) 1 = Ok [(4 # 5, 0)]
  /\ flat_ip_search (index store_twins) (demo_encode demo_query) 2
     = Ok [(4 # 5, 1); (4 # 5, 0)]
  /\ flat_ip_search (index store_twins) (demo_encode demo_query) 3
     = Ok [(4 # 5, 1); (4 # 5, 0); (NEG_FLT_MAX, -1)].
Proof. repeat split; vm_compute; reflexivity. Qed.

Lemma twins_search :
  similarity_search demo_encode flat_ip_search demo_query 2 (1 # 2) store_twins
  = (Ok twins_results, searched demo_query 2 store_twins).
Proof. vm_compute. reflexivity. Qed.

(** The ranking at the store of the twin passages, [k = 2] and the
    threshold 1/2. *)
Lemma similarity_search_ranked_witness :
  0 < 2 /\
  (forall hits,
     flat_ip_search (index store_twins) (demo_encode demo_query) 2 = Ok hits ->
     Z.of_nat (length hits) <= 2) /\
  similarity_search demo_encode flat_ip_search demo_query 2 (1 # 2) store_twins
  = (Ok twins_results, searched demo_query 2 store_twins) /\
  Z.of_nat (length twins_results) <= 2 /\
  Forall (fun r => at_least32 (1 # 2) (score r)) twins_results /\
  (is_float32 (1 # 2) -> Forall (fun r => (1 # 2 <= score r)%Q) twins_results) /\
  StronglySorted desc twins_results /\
  (forall hits v,
     Str.non_empty (Str.strip demo_query) = true ->
     flat_ip_search (index store_twins) (demo_encode demo_query) 2 = Ok hits ->
     map position (List.filter (same_score v) twins_results)
     = map snd (List.filter (fun h => Qeq_bool (fst h) v)
                  (kept (metadata store_twins) (1 # 2) hits))).
Proof.
  assert (H1 : 0 < 2) by lia.
  assert (H2 : forall hits,
             flat_ip_search (index store_twins) (demo_encode demo_query) 2 = Ok hits ->
             Z.of_nat (length hits) <= 2).
  { intros hits H. vm_compute in H. injection H as <-. simpl. lia. }
  split; [exact H1 |]. split; [exact H2 |]. split; [exact twins_search |].
  exact (similarity_search_ranked demo_encode flat_ip_search demo_query 2
           (1 # 2) store_twins _ twins_results H1 H2 twins_search).
Defined.

(** C1, as stated, fails on ties: the same passage stored at positions 0 and
    1 scores 4/5 twice, the backend lists position 1 first, and the stable
    sort leaves it there. *)
Lemma ties_not_by_insertion :
  exists results s',
    similarity_search demo_encode flat_ip_search demo_query 2 (1 # 2) store_twins
    = (Ok results, s') /\
    map hit_of results = [(4 # 5, 1); (4 # 5, 0)] /\
    ~ ranked_by_spec 2 (1 # 2) results.
Proof.
  exists twins_results, (searched demo_query 2 store_twins).
  split; [exact twins_search |]. split; [reflexivity |].
  intros (_ & _ & _ & Hties).
  specialize (Hties 0%nat 1%nat _ _ eq_refl eq_refl).
  simpl in Hties. assert (1 < 0) by (apply Hties; [lia | reflexivity]). lia.
Qed.

(** C5, as amended. A query that is empty or all white space gives the empty
    list without raising, for every [k] and every state, and leaves the state
    as it was: neither the encoder nor the index is called. *)
Theorem blank_query_empty
    (encode : string -> vector)
    (index_search : IndexFlatIP -> vector -> Z -> result (list (Q * Z)))
    (query : string) (k : Z) (threshold : Q) (s : State) :
  Str.non_empty (Str.strip query) = false ->
  similarity_search encode index_search query k threshold s = (Ok [], s).
Proof. apply similarity_search_blank. Qed.

(** A query of a newline and two spaces, with [k = 0]. *)
Lemma blank_query_empty_witness :
  Str.non_empty (Str.strip (String Str.newline "  ")) = false /\
  similarity_search demo_encode flat_ip_search (String Str.newline "  ") 0 (1 # 2)
    store_one = (Ok [], store_one).
Proof.
  split; [reflexivity |].
  apply (blank_query_empty demo_encode flat_ip_search (String Str.newline "  ") 0
           (1 # 2) store_one).
  reflexivity.
Defined.

(** There is no guard on [k]: with a query that is not blank, what the
    backend raises is what the caller gets. *)
Lemma backend_error_propagates
    (encode : string -> vector)
    (index_search : IndexFlatIP -> vector -> Z -> result (list (Q * Z)))
    (query : string) (k : Z) (threshold : Q) (s : State) (e : exn) :
  Str.non_empty (Str.strip query) = true ->
  index_search (index s) (encode query) k = Raise e ->
  similarity_search encode index_search query k threshold s
  = (Raise e, searched query k s).
Proof.
  intros Hq He. rewrite similarity_search_unfold by exact Hq. now rewrite He.
Qed.

(** C5, as stated, fails for [k <= 0]: the query goes to the encoder and to
    the backend, whose assertion [k > 0] fails. *)
Lemma nonpositive_k_raises :
  similarity_search demo_encode flat_ip_search demo_query (-1) (1 # 2) store_one
  = (Raise AssertionError, searched demo_query (-1) store_one)
  /\ similarity_search demo_encode flat_ip_search demo_query 0 (1 # 2) store_one
     = (Raise AssertionError, searched demo_query 0 store_one).
Proof. split; vm_compute; reflexivity. Qed.

(** C10 at a store of one document, [k = 2] and the lowest threshold: the
    padding row of the backend passes the filter, which has no lower bound,
    and comes back with the position [-1] and the metadata of the last entry.
    On the empty store the same row makes [metadata[-1]] raise. *)
Theorem padding_position_surfaced :
  (exists results s',
     similarity_search demo_encode flat_ip_search demo_query 2 NEG_FLT_MAX store_one
     = (Ok results, s') /\
     map position results = [0; -1] /\
     Z.of_nat (length (metadata store_one)) = 1)
  /\ fst (similarity_search demo_encode flat_ip_search demo_query 1 NEG_FLT_MAX
            empty_store) = Raise IndexError.
Proof.
  split.
  - eexists _, _. split; [vm_compute; reflexivity |]. split; reflexivity.
  - vm_compute. reflexivity.
Qed.

(** The context and the references are built from the results, one line and
    one record each; no result gives the empty context and no reference. *)
Lemma search_with_context_shape
    (encode : string -> vector)
    (index_search : IndexFlatIP -> vector -> Z -> result (list (Q * Z)))
    (query : string) (k : Z) (threshold : Q) (s s' : State)
    (results : list SearchResult) :
  similarity_search encode index_search query k threshold s = (Ok results, s') ->
  search_with_context encode index_search query k threshold s
  = (Ok (Str.join (String Str.newline "") (imap context_line results),
         map make_reference results), s').
Proof.
  intros H. unfold search_with_context, bind. rewrite H.
  destruct results; reflexivity.
Qed.

(** With a title, the line shows what the reference has as its module. *)
Lemma context_line_titled (i : nat) (r : SearchResult) (t : string) :
  r_metadata r !! "title" = Some (PyStr t) -> t <> "" ->
  context_line i r
  = "[Reference " +:+ pretty (Z.of_nat i + 1) +:+ "] "
      +:+ py_str (module (make_reference r))
      +:+ " - Page " +:+ py_str (dict_get (r_metadata r) "page" (PyStr ""))
      +:+ " (Relevance: " +:+ format_3f (score r) +:+ ")".
Proof.
  intros Ht Hne. unfold context_line, make_reference, dict_get, py_or. simpl.
  rewrite Ht. simpl.
  destruct (String.eqb_spec t ""); [contradiction | reflexivity].
Qed.

(** C8 at a chunk without title, which is what [chunk_text] emits: the
    reference gets the source as its module, the context line gets the empty
    title. *)
Theorem context_line_drops_source :
  fst (search_with_context demo_encode flat_ip_search demo_query 5 (1 # 2) store_one)
  = Ok ("[Reference 1]  - Page 3 (Relevance: 0.800)",
        [{| module := PyStr "intro.pdf"; ref_page := "3"; ref_score := 4 # 5;
            source := PyStr "intro.pdf" |}]).
Proof. vm_compute. reflexivity. Qed.

(** ** Persistence and the lifecycle of the index *)

Lemma _save_index_returns s :
  exists s', _save_index s = (Ok tt, s') /\ same_memory s s'.
Proof.
  unfold _save_index, try_except, bind, write_index, dump_metadata, gets, log, modify.
  destruct (index_writable (disk s)); simpl;
    [destruct (metadata_writable (disk s)); simpl;
       [| destruct (metadata_failure (disk s)); simpl]
    | destruct (index_failure (disk s)); simpl];
    eexists; (split; [reflexivity | repeat split]).
Qed.

Lemma _save_index_failure s s' :
  index_writable (disk s) = false \/ metadata_writable (disk s) = false ->
  _save_index s = (Ok tt, s') ->
  left_by_failed_save s (disk s') /\
  events s' = events s ++ [save_failed].
Proof.
  unfold _save_index, try_except, bind, write_index, dump_metadata, gets, log, modify,
    left_by_failed_save.
  intros Hfail.
  destruct (index_writable (disk s)) eqn:Hi; simpl;
    [destruct (metadata_writable (disk s)) eqn:Hm; simpl;
       [| destruct (metadata_failure (disk s)); simpl]
    | destruct (index_failure (disk s)); simpl];
    intros H; injection H as <-; simpl;
    try (destruct Hfail; discriminate);
    (split; [| reflexivity]);
    (split; intros Hw; [try discriminate | try discriminate]; auto).
Qed.

Lemma _save_index_success s s' :
  index_writable (disk s) = true -> metadata_writable (disk s) = true ->
  _save_index s = (Ok tt, s') ->
  index_file (disk s') = Stored (index s) /\
  metadata_file (disk s') = Stored (metadata s).
Proof.
  unfold _save_index, try_except, bind, write_index, dump_metadata, gets, log, modify.
  intros Hi Hm. rewrite Hi. simpl. rewrite Hm. simpl.
  intros H; injection H as <-; simpl; auto.
Qed.

Lemma clear_index_unfold s :
  clear_index s
  = match _save_index (cleared s) with
    | (Ok _, s1) => (Ok tt, add_event (Logged INFO "Cleared vector store index") s1)
    | (Raise e, s1) => (Raise e, s1)
    end.
Proof.
  unfold clear_index, bind, gets, modify, log, cleared. simpl.
  destruct (_save_index _) as [[[]|e] s1]; reflexivity.
Qed.

(** The three ways through [add_documents]. *)
Lemma add_documents_unfold encode documents s :
  add_documents encode documents s
  = match valid_documents documents with
    | [] =>
        (Ok tt,
         add_event (Logged WARNING
                      (match documents with
                       | [] => "No documents provided to add"
                       | _ => "No valid texts found in documents"
                       end)) s)
    | _ =>
        if rows_fit (map encode (map fst (valid_documents documents))) s
        then
          match _save_index (extended encode documents s) with
          | (Ok _, s1) =>
              (Ok tt, add_event (Logged INFO "Added documents to vector store") s1)
          | (Raise e, s1) => (Raise e, s1)
          end
        else
          (Raise AssertionError,
           add_event (Encoded (map fst (valid_documents documents)))
             (add_event (Logged INFO "Encoding documents") s))
    end.
Proof.
  unfold add_documents.
  destruct documents as [|doc documents]; [reflexivity |].
  destruct (valid_documents (doc :: documents)) as [|v valid] eqn:Hv;
    [reflexivity |].
  unfold rows_fit, extended. rewrite Hv.
  assert (Ht : exists t ts, map fst (v :: valid) = t :: ts) by (simpl; eauto).
  destruct Ht as (t & ts & Ht). rewrite Ht. clear Ht Hv.
  generalize (map snd (v :: valid)). intros new_metadata.
  unfold bind, log, modify, encoder_encode, ret, index_add, gets. simpl.
  match goal with
  | |- context [if ?b then _ else _] => destruct b
  end; simpl; [| reflexivity].
  destruct (_save_index _) as [[[]|e] s1]; reflexivity.
Qed.

Lemma _load_existing_index_spec s :
  exists s',
    _load_existing_index s = (Ok tt, s') /\ disk s' = disk s /\
    dimension s' = dimension s /\ model_name s' = model_name s /\
    (index s', metadata s')
    = match index_file (disk s), metadata_file (disk s) with
      | Stored ix, Stored md => (ix, md)
      | Missing, _ | _, Missing => (index s, metadata s)
      | _, _ => (new_IndexFlatIP (dimension s), [])
      end.
Proof.
  unfold _load_existing_index, try_except, bind, gets, read_index, load_metadata,
    modify, log.
  simpl.
  destruct (index_file (disk s)) as [| |ix] eqn:Hi;
    destruct (metadata_file (disk s)) as [| |md] eqn:Hm; simpl;
    try rewrite Hi; try rewrite Hm; simpl;
    eexists; (split; [reflexivity |]); repeat split; simpl; congruence.
Qed.

Lemma add_documents_consistent encode documents s :
  consistent s -> consistent (snd (add_documents encode documents s)).
Proof.
  unfold consistent, get_index_stats, ntotal. simpl. intros Hs.
  rewrite add_documents_unfold.
  destruct (valid_documents documents) as [|v valid] eqn:Hv; [exact Hs |].
  destruct (rows_fit _ s); [| exact Hs].
  destruct (_save_index_returns (extended encode documents s))
    as (s1 & Hsave & Hi & Hm & _).
  rewrite Hsave. simpl. rewrite Hi, Hm. unfold extended. rewrite Hv. simpl.
  rewrite ?List.length_app, ?List.length_map in *. simpl.
  rewrite ?List.length_map. lia.
Qed.

Lemma clear_index_empty s :
  exists s',
    clear_index s = (Ok tt, s') /\
    metadata s' = [] /\ index s' = new_IndexFlatIP (dimension s).
Proof.
  rewrite clear_index_unfold.
  destruct (_save_index_returns (cleared s)) as (s1 & Hsave & Hi & Hm & _).
  rewrite Hsave. eexists. split; [reflexivity |]. simpl. now rewrite Hi, Hm.
Qed.

(** C9, as amended. [total_documents == index_size] holds after construction
    whenever the persisted pair is absent, unreadable or has equal counts
    itself; every [add_documents] preserves it, whether it returns or raises;
    after [clear_index], from any state, both are 0. *)
Theorem stats_invariant
    (name : string) (encoder_dimension : Z) (dk : Disk)
    (encode : string -> vector) (documents : list Document) (s s0 : State) :
  disk_consistent dk ->
  consistent s ->
  consistent (snd (__init__ name encoder_dimension dk)) /\
  consistent (snd (add_documents encode documents s)) /\
  total_documents (get_index_stats (snd (clear_index s0))) = 0 /\
  index_size (get_index_stats (snd (clear_index s0))) = 0.
Proof.
  intros Hdk Hs. split; [| split].
  - unfold __init__.
    match goal with
    | |- context [_load_existing_index ?s1] =>
        destruct (_load_existing_index_spec s1) as (s' & -> & _ & _ & _ & Hst)
    end.
    simpl in *. unfold consistent, get_index_stats, disk_consistent in *. simpl.
    destruct (index_file dk) as [| |ix]; destruct (metadata_file dk) as [| |md];
      injection Hst as -> ->; simpl; auto.
  - now apply add_documents_consistent.
  - destruct (clear_index_empty s0) as (s' & -> & Hm & Hi).
    unfold get_index_stats, ntotal. simpl. now rewrite Hm, Hi.
Qed.

(** The invariant from a fresh disk, through an add and a clear. *)
Lemma stats_invariant_witness :
  disk_consistent fresh_disk /\ consistent store_one /\
  consistent (snd (__init__ "all-MiniLM-L6-v2" 2 fresh_disk)) /\
  consistent (snd (add_documents demo_encode [doc_basics] store_one)) /\
  total_documents (get_index_stats (snd (clear_index store_twins))) = 0 /\
  index_size (get_index_stats (snd (clear_index store_twins))) = 0.
Proof.
  assert (H1 : disk_consistent fresh_disk) by exact I.
  assert (H2 : consistent store_one) by reflexivity.
  split; [exact H1 |]. split; [exact H2 |].
  exact (stats_invariant "all-MiniLM-L6-v2" 2 fresh_disk demo_encode [doc_basics]
           store_one store_twins H1 H2).
Defined.

(** C9, as stated, fails at construction: a persisted pair of two vectors
    and one metadata entry is loaded as it is. *)
Lemma stats_differ_after_load :
  let s := snd (__init__ "all-MiniLM-L6-v2" 2 mismatched_disk) in
  total_documents (get_index_stats s) = 1 /\ index_size (get_index_stats s) = 2.
Proof. split; reflexivity. Qed.



(** C4, as amended. When a write of [_save_index] fails, the error is logged
    and the call returns; [add_documents] (for rows of the dimension of the
    index) and [clear_index] then return without raising, the object
    updated. The metadata file is left as it was when the failure comes
    before it is opened (the index is not written, or the file cannot be
    opened), and is left emptied when [pickle.dump] breaks off, the index
    file then holding the new index already. *)
Theorem save_failure_not_propagated
    (encode : string -> vector) (documents : list Document) (s : State) :
  index_writable (disk s) = false \/ metadata_writable (disk s) = false ->
  valid_documents documents <> [] ->
  rows_fit (map encode (map fst (valid_documents documents))) s = true ->
  (exists s1,
     _save_index s = (Ok tt, s1) /\ same_memory s s1 /\
     left_by_failed_save s (disk s1) /\
     events s1 = events s ++ [save_failed])
  /\ (exists s2,
        add_documents encode documents s = (Ok tt, s2) /\
        metadata s2 = metadata s ++ map snd (valid_documents documents) /\
        ntotal (index s2)
        = ntotal (index s) + Z.of_nat (length (valid_documents documents)) /\
        left_by_failed_save (extended encode documents s) (disk s2) /\
        In save_failed (events s2))
  /\ (exists s3,
        clear_index s = (Ok tt, s3) /\
        metadata s3 = [] /\ ntotal (index s3) = 0 /\
        left_by_failed_save (cleared s) (disk s3) /\
        In save_failed (events s3)).
Proof.
  intros Hfail Hvalid Hfit. split; [| split].
  - destruct (_save_index_returns s) as (s1 & Hsave & Hmem).
    exists s1. destruct (_save_index_failure s s1 Hfail Hsave) as [Hf He]. auto.
  - rewrite add_documents_unfold, Hfit.
    destruct (valid_documents documents) as [|v valid] eqn:Hv; [congruence |].
    destruct (_save_index_returns (extended encode documents s))
      as (s1 & Hsave & Hi & Hm & _).
    rewrite Hsave. eexists. split; [reflexivity |].
    destruct (_save_index_failure (extended encode documents s) s1 Hfail Hsave)
      as [Hf He].
    simpl. rewrite Hi, Hm, He.
    split; [| split; [| split; [exact Hf |]]].
    + unfold extended. now rewrite Hv.
    + unfold extended, ntotal. rewrite Hv. simpl.
      rewrite ?List.length_app, ?List.length_map. simpl.
      rewrite ?List.length_map. lia.
    + apply in_or_app. left. apply in_or_app. right. now left.
  - rewrite clear_index_unfold.
    destruct (_save_index_returns (cleared s)) as (s1 & Hsave & Hi & Hm & _).
    rewrite Hsave. eexists. split; [reflexivity |].
    destruct (_save_index_failure (cleared s) s1 Hfail Hsave) as [Hf He].
    simpl. rewrite Hi, Hm, He.
    split; [reflexivity |]. split; [reflexivity |]. split; [exact Hf |].
    apply in_or_app. left. apply in_or_app. right. now left.
Qed.

(** An add on the disk that refuses the writes. *)
Lemma save_failure_not_propagated_witness :
  (index_writable (disk readonly_store) = false
   \/ metadata_writable (disk readonly_store) = false)
  /\ valid_documents [doc_basics] <> []
  /\ rows_fit (map demo_encode (map fst (valid_documents [doc_basics])))
       readonly_store = true
  /\ (exists s2,
        add_documents demo_encode [doc_basics] readonly_store = (Ok tt, s2) /\
        metadata s2 = metadata readonly_store ++ map snd (valid_documents [doc_basics])).
Proof.
  assert (H1 : index_writable (disk readonly_store) = false
               \/ metadata_writable (disk readonly_store) = false)
    by (left; reflexivity).
  assert (H2 : valid_documents [doc_basics] <> []) by (vm_compute; discriminate).
  assert (H3 : rows_fit (map demo_encode (map fst (valid_documents [doc_basics])))
                 readonly_store = true) by reflexivity.
  split; [exact H1 |]. split; [exact H2 |]. split; [exact H3 |].
  destruct (save_failure_not_propagated demo_encode [doc_basics] readonly_store
              H1 H2 H3) as (_ & (s2 & Ha & Hb & _) & _).
  exists s2. auto.
Defined.

(** C4, as stated, fails: on a disk that refuses the writes, [add_documents]
    returns normally, the new document is in memory only, and the files are
    those of before. *)
Lemma failed_write_is_swallowed :
  let r := add_documents demo_encode [doc_basics] readonly_store in
  fst r = Ok tt
  /\ length (metadata (snd r)) = 2%nat
  /\ disk (snd r) = disk readonly_store
  /\ metadata_file (disk (snd r)) = Stored (metadata store_one)
  /\ fst (clear_index readonly_store) = Ok tt.
Proof. repeat split; vm_compute; reflexivity. Qed.

(** When [pickle.dump] breaks off, the metadata file is left emptied beside
    the new index: a store built on these files starts empty, the document
    saved before being lost with the one just added. *)
Example interrupted_dump_empties_metadata :
  let r := add_documents demo_encode [doc_basics] full_disk_store in
  fst r = Ok tt
  /\ metadata_file (disk full_disk_store) = Stored (metadata store_one)
  /\ metadata_file (disk (snd r)) = Corrupt
  /\ index_file (disk (snd r)) = Stored (index (snd r))
  /\ metadata (snd (__init__ "all-MiniLM-L6-v2" 2 (disk (snd r)))) = [].
Proof. repeat split; vm_compute; reflexivity. Qed.

(** * Further properties *)

(** ** White space *)

Ltac str_cons :=
  repeat match goal with
    | |- context [String ?c ?a +:+ ?b] =>
        change (String c a +:+ b) with (String c (a +:+ b))
    | |- context [EmptyString +:+ ?b] => change (EmptyString +:+ b) with b
    end.

Lemma app_empty_r (a : string) : a +:+ "" = a.
Proof. induction a as [|c a IH]; str_cons; [reflexivity | now rewrite IH]. Qed.

Lemma has_ink_app (a b : string) : has_ink (a +:+ b) = has_ink a || has_ink b.
Proof.
  induction a as [|c a IH]; str_cons; simpl; [reflexivity |].
  rewrite IH. now rewrite orb_assoc.
Qed.

Lemma lstrip_no_ink (s : string) : has_ink s = false -> Str.lstrip s = "".
Proof.
  induction s as [|c s IH]; simpl; [reflexivity |].
  destruct (Str.is_space c); simpl; [exact IH | discriminate].
Qed.

Lemma rstrip_no_ink (s : string) : has_ink s = false -> Str.rstrip s = "".
Proof.
  induction s as [|c s IH]; simpl; [reflexivity |].
  destruct (Str.is_space c); simpl; [| discriminate].
  intros H. now rewrite IH.
Qed.

Lemma rstrip_ink (s : string) : has_ink s = true -> Str.rstrip s <> "".
Proof.
  induction s as [|c s IH]; simpl; [discriminate |].
  destruct (Str.rstrip s) as [|c' r] eqn:Hr.
  - destruct (Str.is_space c); simpl; [| discriminate].
    intros H. now apply IH in H.
  - discriminate.
Qed.

Lemma lstrip_app (a b : string) :
  Str.lstrip (a +:+ b) = if has_ink a then Str.lstrip a +:+ b else Str.lstrip b.
Proof.
  induction a as [|c a IH]; str_cons; simpl; [reflexivity |].
  destruct (Str.is_space c); simpl; [exact IH | reflexivity].
Qed.

Lemma rstrip_app (a b : string) :
  Str.rstrip (a +:+ b) = if has_ink b then a +:+ Str.rstrip b else Str.rstrip a.
Proof.
  induction a as [|c a IH]; str_cons; simpl.
  - destruct (has_ink b) eqn:Hb; [reflexivity | now apply rstrip_no_ink].
  - rewrite IH. destruct (has_ink b) eqn:Hb; [| reflexivity].
    str_cons.
    destruct (a +:+ Str.rstrip b) eqn:Hab; [| reflexivity].
    exfalso. destruct a; [| discriminate].
    change (Str.rstrip b = "") in Hab. now apply rstrip_ink in Hb.
Qed.

Lemma has_ink_lstrip (s : string) : has_ink (Str.lstrip s) = has_ink s.
Proof.
  induction s as [|c s IH]; simpl; [reflexivity |].
  destruct (Str.is_space c) eqn:Hc; simpl; [exact IH | now rewrite Hc].
Qed.

Lemma has_ink_rstrip (s : string) : has_ink (Str.rstrip s) = has_ink s.
Proof.
  induction s as [|c s IH]; simpl; [reflexivity |].
  destruct (Str.rstrip s) as [|c' r] eqn:Hr.
  - simpl in IH. rewrite <- IH.
    destruct (Str.is_space c) eqn:Hc; simpl; now rewrite ?Hc.
  - simpl. simpl in IH. now rewrite IH.
Qed.

Lemma has_ink_strip (s : string) : has_ink (Str.strip s) = has_ink s.
Proof. unfold Str.strip. now rewrite has_ink_lstrip, has_ink_rstrip. Qed.

Lemma non_empty_lstrip (s : string) : Str.non_empty (Str.lstrip s) = has_ink s.
Proof.
  induction s as [|c s IH]; simpl; [reflexivity |].
  destruct (Str.is_space c); simpl; [exact IH | reflexivity].
Qed.

(** What [strip] leaves is not empty exactly when there is ink. *)
Lemma non_empty_strip (s : string) : Str.non_empty (Str.strip s) = has_ink s.
Proof. unfold Str.strip. now rewrite non_empty_lstrip, has_ink_rstrip. Qed.

Lemma lstrip_idem (s : string) : Str.lstrip (Str.lstrip s) = Str.lstrip s.
Proof.
  induction s as [|c s IH]; simpl; [reflexivity |].
  destruct (Str.is_space c) eqn:Hc; simpl; [exact IH | now rewrite Hc].
Qed.

Lemma rstrip_lstrip (s : string) :
  Str.rstrip (Str.lstrip s) = Str.lstrip (Str.rstrip s).
Proof.
  induction s as [|c s IH]; simpl; [reflexivity |].
  destruct (Str.is_space c) eqn:Hc.
  - rewrite IH. destruct (Str.rstrip s) as [|c' r]; simpl; now rewrite ?Hc.
  - simpl. destruct (Str.rstrip s) as [|c' r]; simpl; now rewrite Hc.
Qed.

Lemma rstrip_idem (s : string) : Str.rstrip (Str.rstrip s) = Str.rstrip s.
Proof.
  induction s as [|c s IH]; simpl; [reflexivity |].
  destruct (Str.rstrip s) as [|c' r] eqn:Hr.
  - destruct (Str.is_space c) eqn:Hc; simpl; now rewrite ?Hc.
  - simpl. simpl in IH. now rewrite IH.
Qed.

Lemma strip_idem (s : string) : Str.strip (Str.strip s) = Str.strip s.
Proof.
  unfold Str.strip.
  now rewrite rstrip_lstrip, rstrip_idem, lstrip_idem.
Qed.

Lemma trimmed_lstrip (u : string) : trimmed u -> Str.lstrip u = u.
Proof. unfold trimmed, Str.strip. intros H. rewrite <- H. apply lstrip_idem. Qed.

Lemma trimmed_rstrip (u : string) : trimmed u -> Str.rstrip u = u.
Proof.
  unfold trimmed, Str.strip. intros H. rewrite <- H at 1.
  now rewrite rstrip_lstrip, rstrip_idem.
Qed.

Lemma substr_refl_app (u a b : string) : substr u (a +:+ (u +:+ b)).
Proof. now exists a, b. Qed.

Lemma substr_app_r (u x y : string) : substr u x -> substr u (x +:+ y).
Proof.
  intros (a & b & ->). exists a, (b +:+ y). now rewrite !app_assoc_str.
Qed.

Lemma substr_app_l (u x y : string) : substr u y -> substr u (x +:+ y).
Proof.
  intros (a & b & ->). exists (x +:+ a), b. now rewrite !app_assoc_str.
Qed.

Lemma substr_ink (u x : string) : substr u x -> has_ink u = true -> has_ink x = true.
Proof.
  intros (a & b & ->) Hu. rewrite !has_ink_app, Hu. now rewrite orb_true_r.
Qed.

(** A trimmed text with ink that occurs in [x] occurs in [x.strip()]. *)
Lemma substr_strip (u x : string) :
  trimmed u -> has_ink u = true -> substr u x -> substr u (Str.strip x).
Proof.
  intros Ht Hu (a & b & ->). unfold Str.strip.
  rewrite rstrip_app, has_ink_app, Hu. simpl.
  rewrite rstrip_app.
  assert (Hr : exists b', (if has_ink b then u +:+ Str.rstrip b else Str.rstrip u)
                          = u +:+ b').
  { destruct (has_ink b); [now eexists |].
    exists "". now rewrite trimmed_rstrip, app_empty_r. }
  destruct Hr as (b' & ->).
  rewrite lstrip_app. destruct (has_ink a).
  - now exists (Str.lstrip a), b'.
  - rewrite lstrip_app, Hu, trimmed_lstrip by exact Ht. now exists "", b'.
Qed.

(** ** The units of a page *)

Lemma split_into_sentences_units (text : string) :
  Forall unit_like (_split_into_sentences text).
Proof.
  unfold _split_into_sentences.
  generalize (restore_code (Re.split_sentences (Re.sub_code text))
                (Re.findall_code text) 0).
  intros l. induction l as [|x l IH]; simpl; [constructor |].
  destruct (Str.non_empty (Str.strip x)) eqn:Hx; simpl; [| exact IH].
  constructor; [| exact IH]. split.
  - apply strip_idem.
  - now rewrite has_ink_strip, <- non_empty_strip.
Qed.

(** ** Chunks, page by page *)

Section ChunkerMore.

Variable chunk_size : Z.
Variable chunk_overlap : Z.

Let step := chunk_step chunk_size chunk_overlap.
Let loop := chunk_loop chunk_size chunk_overlap.

(** The loop only appends to [chunks]. *)
Lemma chunk_loop_app page_data sentences rest : forall i acc cs cur start,
  loop page_data sentences rest i
    {| chunks := acc ++ cs; current_chunk := cur; chunk_start_sentence := start |}
  = let r := loop page_data sentences rest i
               {| chunks := cs; current_chunk := cur; chunk_start_sentence := start |} in
    {| chunks := acc ++ chunks r;
       current_chunk := current_chunk r;
       chunk_start_sentence := chunk_start_sentence r |}.
Proof.
  induction rest as [|sentence rest IH]; intros i acc cs cur start.
  - reflexivity.
  - unfold loop in *. simpl chunk_loop. unfold chunk_step. simpl.
    destruct ((Str.len (cur +:+ sentence) >? chunk_size) && Str.non_empty cur);
      simpl.
    + rewrite <- app_assoc. apply IH.
    + apply IH.
Qed.

Lemma chunk_page_app acc page_data :
  chunk_page chunk_size chunk_overlap acc page_data
  = acc ++ chunk_page chunk_size chunk_overlap [] page_data.
Proof.
  unfold chunk_page.
  pose proof (chunk_loop_app page_data (_split_into_sentences (pd_text page_data))
                (_split_into_sentences (pd_text page_data)) 0 acc [] "" 0) as H.
  unfold loop in H. rewrite app_nil_r in H. rewrite H. simpl.
  destruct (Str.non_empty (Str.strip (current_chunk _))); simpl.
  - now rewrite app_assoc.
  - reflexivity.
Qed.

Lemma fold_chunk_page_app pages : forall acc,
  fold_left (chunk_page chunk_size chunk_overlap) pages acc
  = acc ++ fold_left (chunk_page chunk_size chunk_overlap) pages [].
Proof.
  induction pages as [|p pages IH]; intros acc; simpl.
  - now rewrite app_nil_r.
  - rewrite IH, (IH (chunk_page _ _ [] p)), chunk_page_app.
    now rewrite app_assoc.
Qed.

Lemma chunk_text_app_pages pages1 pages2 :
  chunk_text chunk_size chunk_overlap (pages1 ++ pages2)
  = chunk_text chunk_size chunk_overlap pages1
    ++ chunk_text chunk_size chunk_overlap pages2.
Proof.
  unfold chunk_text. rewrite fold_left_app. apply fold_chunk_page_app.
Qed.

Lemma chunk_text_cons p pages :
  chunk_text chunk_size chunk_overlap (p :: pages)
  = chunk_page chunk_size chunk_overlap [] p
    ++ chunk_text chunk_size chunk_overlap pages.
Proof.
  change (p :: pages) with ([p] ++ pages). now rewrite chunk_text_app_pages.
Qed.

Lemma in_chunk_text c pages :
  In c (chunk_text chunk_size chunk_overlap pages) <->
  exists p, In p pages /\ In c (chunk_page chunk_size chunk_overlap [] p).
Proof.
  induction pages as [|p pages IH].
  - split; [intros [] | intros (p & [] & _)].
  - rewrite chunk_text_cons, in_app_iff, IH. split.
    + intros [H | (q & Hq & H)]; [exists p | exists q]; simpl; auto.
    + intros (q & [<- | Hq] & H); [now left | right; now exists q].
Qed.

(** The invariant of the loop over the units [us] already consumed. *)
Lemma chunk_step_sound page_data sentences i sentence us st :
  Forall unit_like us -> unit_like sentence ->
  Forall (sound_chunk page_data) (chunks st) ->
  (Str.non_empty (current_chunk st) = true -> has_ink (current_chunk st) = true) ->
  covers us st ->
  let st' := step page_data sentences i sentence st in
  Forall (sound_chunk page_data) (chunks st') /\
  has_ink (current_chunk st') = true /\
  covers (us ++ [sentence]) st'.
Proof.
  intros Hus [Htrim Hink] Hall Hcur Hcov. unfold step, chunk_step.
  destruct ((Str.len (current_chunk st +:+ sentence) >? chunk_size)
            && Str.non_empty (current_chunk st)) eqn:Hcut; simpl.
  - apply andb_true_iff in Hcut as [_ Hne]. split; [| split].
    + apply Forall_app. split; [exact Hall |].
      constructor; [| constructor].
      split; [split; reflexivity |]. simpl. split.
      * apply strip_idem.
      * rewrite has_ink_strip. now apply Hcur.
    + rewrite !has_ink_app, Hink. now rewrite orb_true_r.
    + intros u Hu. apply in_app_iff in Hu as [Hu | [<- | []]].
      * left. destruct (Hcov u Hu) as [(c & Hc & Hs) | Hs].
        -- exists c. split; [apply in_or_app; now left | exact Hs].
        -- eexists. split; [apply in_or_app; right; now left |]. simpl.
           rewrite List.Forall_forall in Hus. destruct (Hus u Hu) as [Hut Hui].
           now apply substr_strip.
      * right. apply substr_app_l. now exists "", " ".
  - split; [exact Hall |]. split.
    + rewrite !has_ink_app, Hink. now rewrite orb_true_r.
    + intros u Hu. apply in_app_iff in Hu as [Hu | [<- | []]].
      * destruct (Hcov u Hu) as [Hc | Hs]; [now left | right].
        now apply substr_app_r.
      * right. apply substr_app_l. now exists "", " ".
Qed.

Lemma chunk_loop_sound page_data sentences rest : forall i us st,
  Forall unit_like us -> Forall unit_like rest ->
  Forall (sound_chunk page_data) (chunks st) ->
  (Str.non_empty (current_chunk st) = true -> has_ink (current_chunk st) = true) ->
  covers us st ->
  let st' := loop page_data sentences rest i st in
  Forall (sound_chunk page_data) (chunks st') /\
  (Str.non_empty (current_chunk st') = true -> has_ink (current_chunk st') = true) /\
  covers (us ++ rest) st'.
Proof.
  induction rest as [|sentence rest IH]; intros i us st Hus Hrest Hall Hcur Hcov.
  - simpl. rewrite app_nil_r. auto.
  - inversion Hrest as [|? ? Hs Hrest']; subst.
    destruct (chunk_step_sound page_data sentences i sentence us st
                Hus Hs Hall Hcur Hcov) as (Hall' & Hcur' & Hcov').
    unfold loop in *. simpl chunk_loop.
    replace (us ++ sentence :: rest) with ((us ++ [sentence]) ++ rest)
      by now rewrite <- app_assoc.
    apply IH; auto.
    apply Forall_app. split; [exact Hus | now constructor].
Qed.

(** The chunks of one page: each is sound, and each unit of the page is in
    one of them. *)
Lemma chunk_page_sound page_data :
  let cs := chunk_page chunk_size chunk_overlap [] page_data in
  Forall (sound_chunk page_data) cs /\
  forall u, In u (_split_into_sentences (pd_text page_data)) ->
            exists c, In c cs /\ substr u (c_text c).
Proof.
  unfold chunk_page.
  set (sentences := _split_into_sentences (pd_text page_data)).
  pose proof (split_into_sentences_units (pd_text page_data)) as Hunits.
  fold sentences in Hunits.
  set (st0 := {| chunks := []; current_chunk := ""; chunk_start_sentence := 0 |}).
  assert (H1 : Forall unit_like []) by constructor.
  assert (H2 : Forall (sound_chunk page_data) (chunks st0)) by constructor.
  assert (H3 : Str.non_empty (current_chunk st0) = true ->
               has_ink (current_chunk st0) = true) by (simpl; discriminate).
  assert (H4 : covers [] st0) by (intros u []).
  destruct (chunk_loop_sound page_data sentences sentences 0 [] st0
              H1 Hunits H2 H3 H4) as (Hall & Hcur & Hcov).
  unfold loop in *. simpl app in Hcov. simpl.
  destruct (Str.non_empty (Str.strip (current_chunk _))) eqn:Hlast.
  - split.
    + apply Forall_app. split; [exact Hall |].
      constructor; [| constructor].
      split; [split; reflexivity |]. simpl. split; [apply strip_idem |].
      now rewrite has_ink_strip, <- non_empty_strip.
    + intros u Hu. rewrite List.Forall_forall in Hunits.
      destruct (Hunits u Hu) as [Hut Hui].
      destruct (Hcov u Hu) as [(c & Hc & Hs) | Hs].
      * exists c. split; [apply in_or_app; now left | exact Hs].
      * eexists. split; [apply in_or_app; right; now left |]. simpl.
        now apply substr_strip.
  - split; [exact Hall |].
    intros u Hu. rewrite List.Forall_forall in Hunits.
    destruct (Hunits u Hu) as [Hut Hui].
    destruct (Hcov u Hu) as [Hc | Hs]; [exact Hc |].
    apply substr_ink in Hs; [| exact Hui].
    rewrite <- non_empty_strip in Hs. congruence.
Qed.

End ChunkerMore.

(** X1. Pages are chunked one by one, in order: the chunks of two lists of
    pages put end to end are the chunks of the first followed by the chunks
    of the second. *)
Theorem chunk_text_app (chunk_size chunk_overlap : Z) (pages1 pages2 : list PageData) :
  chunk_text chunk_size chunk_overlap (pages1 ++ pages2)
  = chunk_text chunk_size chunk_overlap pages1
    ++ chunk_text chunk_size chunk_overlap pages2.
Proof. apply chunk_text_app_pages. Qed.

(** X2. Every chunk has a text that is trimmed and not blank, and carries
    the number and the metadata (source and page) of a page of the input. *)
Theorem chunks_sound (chunk_size chunk_overlap : Z) (pages : list PageData) :
  Forall (fun c => exists p, In p pages /\ sound_chunk p c)
    (chunk_text chunk_size chunk_overlap pages).
Proof.
  apply List.Forall_forall. intros c Hc.
  apply in_chunk_text in Hc as (p & Hp & Hc).
  exists p. split; [exact Hp |].
  destruct (chunk_page_sound chunk_size chunk_overlap p) as [Hall _].
  rewrite List.Forall_forall in Hall. now apply Hall.
Qed.

(** X3. No unit is lost: every sentence of every page occurs, as it is, in
    the text of a chunk of that page, whatever the size and the overlap. *)
Theorem no_unit_lost (chunk_size chunk_overlap : Z) (pages : list PageData)
    (p : PageData) (u : string) :
  In p pages ->
  In u (_split_into_sentences (pd_text p)) ->
  exists c,
    In c (chunk_text chunk_size chunk_overlap pages) /\
    c_page c = pd_page p /\ substr u (c_text c).
Proof.
  intros Hp Hu.
  destruct (chunk_page_sound chunk_size chunk_overlap p) as [Hall Hcov].
  destruct (Hcov u Hu) as (c & Hc & Hs).
  exists c. split; [apply in_chunk_text; now exists p |]. split; [| exact Hs].
  rewrite List.Forall_forall in Hall. now destruct (Hall c Hc) as [[? _] _].
Qed.

(** A unit of the scenario and the chunk in which it is. *)
Lemma no_unit_lost_witness :
  In scenario_page [scenario_page] /\
  In "Use c() to combine them." (_split_into_sentences (pd_text scenario_page)) /\
  exists c,
    In c (chunk_text 50 10 [scenario_page]) /\
    c_page c = pd_page scenario_page /\
    substr "Use c() to combine them." (c_text c).
Proof.
  assert (H1 : In scenario_page [scenario_page]) by (left; reflexivity).
  assert (H2 : In "Use c() to combine them."
                 (_split_into_sentences (pd_text scenario_page)))
    by (vm_compute; right; left; reflexivity).
  split; [exact H1 |]. split; [exact H2 |].
  exact (no_unit_lost 50 10 [scenario_page] scenario_page
           "Use c() to combine them." H1 H2).
Defined.

(** ** The text of a chunk *)

Lemma slice_nil {A} (l : list A) (a : Z) : Str.slice l a a = [].
Proof. unfold Str.slice. now rewrite Z.sub_diag. Qed.

Lemma slice_snoc {A} (l : list A) (a i : Z) (x : A) :
  0 <= a <= i -> l !! Z.to_nat i = Some x ->
  Str.slice l a (i + 1) = Str.slice l a i ++ [x].
Proof.
  intros Ha Hx. unfold Str.slice.
  replace (Z.to_nat (i + 1 - a)) with (S (Z.to_nat (i - a))) by lia.
  apply take_S_r. rewrite lookup_drop.
  now replace (Z.to_nat a + Z.to_nat (i - a))%nat with (Z.to_nat i) by lia.
Qed.

Lemma slice_one {A} (l : list A) (i : Z) (x : A) :
  0 <= i -> l !! Z.to_nat i = Some x -> Str.slice l i (i + 1) = [x].
Proof.
  intros Hi Hx. rewrite (slice_snoc l i i x) by (auto; lia).
  now rewrite slice_nil.
Qed.

Lemma Forall_slice {A} (P : A -> Prop) (l : list A) (a b : Z) :
  Forall P l -> Forall P (Str.slice l a b).
Proof. intros H. unfold Str.slice. now apply Forall_take, Forall_drop. Qed.

Lemma spaced_app (l1 l2 : list string) :
  spaced (l1 ++ l2) = spaced l1 +:+ spaced l2.
Proof.
  induction l1 as [|u l1 IH]; [reflexivity |].
  change (u +:+ " " +:+ spaced (l1 ++ l2) = (u +:+ " " +:+ spaced l1) +:+ spaced l2).
  now rewrite IH, !app_assoc_str.
Qed.

Lemma spaced_snoc (l : list string) (x : string) :
  spaced (l ++ [x]) = spaced l +:+ (x +:+ " ").
Proof. rewrite spaced_app. reflexivity. Qed.

Lemma join_cons_more (u : string) (l : list string) :
  l <> [] -> Str.join " " (u :: l) = u +:+ " " +:+ Str.join " " l.
Proof. destruct l; [congruence | reflexivity]. Qed.

Lemma join_snoc (l : list string) (x : string) :
  Str.join " " (l ++ [x]) = spaced l +:+ x.
Proof.
  induction l as [|u l IH]; [reflexivity |].
  change ((u :: l) ++ [x]) with (u :: (l ++ [x])).
  rewrite join_cons_more by (destruct l; discriminate).
  rewrite IH.
  change (spaced (u :: l)) with (u +:+ " " +:+ spaced l).
  now rewrite !app_assoc_str.
Qed.

Lemma lstrip_unit_app (u y : string) :
  unit_like u -> Str.lstrip (u +:+ y) = u +:+ y.
Proof.
  intros [Ht Hi]. rewrite lstrip_app, Hi. now rewrite trimmed_lstrip.
Qed.

(** A text that starts with a unit has no white space to its left. *)
Lemma lstrip_units (W L : list string) (x : string) :
  Forall unit_like W -> Forall unit_like L -> unit_like x ->
  Str.lstrip ((Str.join " " W +:+ spaced L) +:+ x)
  = (Str.join " " W +:+ spaced L) +:+ x.
Proof.
  intros HW HL Hx. destruct W as [|u W].
  - change (Str.join " " [] +:+ spaced L) with (spaced L).
    destruct L as [|v L].
    + change (spaced [] +:+ x) with x. destruct Hx as [Ht _].
      now apply trimmed_lstrip.
    + inversion HL; subst.
      change (spaced (v :: L)) with (v +:+ " " +:+ spaced L).
      rewrite !app_assoc_str. now apply lstrip_unit_app.
  - inversion HW; subst.
    assert (Hj : exists y, Str.join " " (u :: W) = u +:+ y).
    { destruct W; [exists ""; simpl; now rewrite app_empty_r | now eexists]. }
    destruct Hj as (y & ->). rewrite !app_assoc_str. now apply lstrip_unit_app.
Qed.

(** The text of the chunk that is emitted: the space after the last unit is
    all that [strip] removes. *)
Lemma strip_pending (W L : list string) (x : string) :
  Forall unit_like W -> Forall unit_like L -> unit_like x ->
  Str.strip (Str.join " " W +:+ spaced (L ++ [x]))
  = Str.join " " W +:+ Str.join " " (L ++ [x]).
Proof.
  intros HW HL Hx. rewrite spaced_snoc, join_snoc.
  rewrite <- !app_assoc_str. unfold Str.strip.
  rewrite rstrip_app_space, rstrip_app.
  destruct Hx as [Ht Hi]. rewrite Hi, trimmed_rstrip by exact Ht.
  apply lstrip_units; [exact HW | exact HL | now split].
Qed.

Section ChunkUnits.

Variable chunk_size : Z.
Variable chunk_overlap : Z.
Hypothesis overlap_nonneg : 0 <= chunk_overlap.

Variable page_data : PageData.
Variable units : list string.
Hypothesis units_ok : Forall unit_like units.

Let inv := loop_inv chunk_size chunk_overlap units.

Lemma window_nonneg : 0 <= chunk_overlap / 50.
Proof. apply Z.div_pos; lia. Qed.

Lemma lookup_unit (i : Z) :
  0 <= i < Z.of_nat (length units) ->
  exists x, units !! Z.to_nat i = Some x /\ unit_like x.
Proof.
  intros Hi. destruct (lookup_lt_is_Some_2 units (Z.to_nat i)) as [x Hx]; [lia |].
  exists x. split; [exact Hx |].
  exact (Forall_lookup_1 _ _ _ _ units_ok Hx).
Qed.

(** The chunk under construction ends with the last unit consumed and a
    space. *)
Lemma pending_last (first m i : Z) :
  0 <= first -> 0 <= m -> first + m <= i - 1 -> i <= Z.of_nat (length units) ->
  exists x,
    unit_like x /\
    Str.slice units (first + m) i = Str.slice units (first + m) (i - 1) ++ [x].
Proof.
  intros Hf Hm Hle Hi. destruct (lookup_unit (i - 1)) as (x & Hx & Hu); [lia |].
  exists x. split; [exact Hu |].
  replace i with (i - 1 + 1) at 1 by lia. apply slice_snoc; [lia | exact Hx].
Qed.

(** The chunk that is emitted when [i] units have been consumed. *)
Lemma pending_chunk (i : Z) (st : LoopState) :
  0 < i <= Z.of_nat (length units) ->
  pending_ok chunk_size chunk_overlap units i st ->
  Str.non_empty (current_chunk st) = true /\
  chunk_of_units chunk_size chunk_overlap units
    (make_chunk page_data (current_chunk st) (chunk_start_sentence st) (i - 1)).
Proof.
  intros Hi Hpend. unfold pending_ok in Hpend.
  destruct (Z.eqb_spec i 0) as [-> |_]; [lia |].
  destruct Hpend as (m & Hm & Hs & Hle & Hcur & Hsize).
  destruct (pending_last (chunk_start_sentence st) m i) as (x & Hx & Hsl);
    try lia.
  assert (Htext : Str.strip (current_chunk st)
                  = window_text units (chunk_start_sentence st) m (i - 1)).
  { unfold window_text. replace (i - 1 + 1) with i by lia.
    rewrite Hcur, Hsl.
    apply strip_pending; [now apply Forall_slice | now apply Forall_slice | exact Hx]. }
  split.
  - rewrite Hcur, Hsl, spaced_snoc, <- app_assoc_str. apply non_empty_app_space.
  - exists m. unfold make_chunk. simpl.
    split; [exact Hm |]. split; [exact Hs |]. split; [lia |].
    split; [exact Htext |]. destruct Hsize as [Hsize | Hsize]; [now left | now right].
Qed.

Lemma chunk_step_units (i : Z) (sentence : string) (st : LoopState) :
  i < Z.of_nat (length units) ->
  units !! Z.to_nat i = Some sentence ->
  inv i st ->
  inv (i + 1) (chunk_step chunk_size chunk_overlap page_data units i sentence st).
Proof.
  intros Hlt Hx ((Hi & _) & Hall & Hpend). pose proof window_nonneg as Hw.
  unfold inv, loop_inv. split; [lia |].
  unfold chunk_step, pending_ok.
  destruct (Z.eqb_spec (i + 1) 0) as [|_]; [lia |].
  destruct (Z.eqb_spec i 0) as [-> | Hne].
  - unfold pending_ok in Hpend. simpl in Hpend. destruct Hpend as [Hcur Hstart].
    rewrite Hcur. simpl. rewrite andb_false_r. simpl. rewrite Hcur, Hstart.
    split; [exact Hall |]. exists 0.
    split; [lia |]. split; [lia |]. split; [lia |]. split; [| right; lia].
    change (0 + 0) with 0.
    rewrite slice_nil, (slice_one units 0 sentence) by (auto; lia). reflexivity.
  - destruct (pending_chunk i st) as [Hnon Hchunk]; [lia | exact Hpend |].
    unfold pending_ok in Hpend.
    destruct (Z.eqb_spec i 0) as [|_]; [lia |].
    destruct Hpend as (m & Hm & Hs & Hle & Hcur & Hsize).
    rewrite Hnon, andb_true_r.
    destruct (Str.len (current_chunk st +:+ sentence) >? chunk_size) eqn:Hcut;
      simpl.
    + split.
      * apply Forall_app. split; [exact Hall |]. constructor; [exact Hchunk | constructor].
      * exists (i - overlap_start chunk_overlap i). unfold overlap_start.
        split; [lia |]. split; [lia |]. split; [lia |]. split; [| right; lia].
        replace (Z.max 0 (i - chunk_overlap / 50)
                 + (i - Z.max 0 (i - chunk_overlap / 50))) with i by lia.
        now rewrite (slice_one units i sentence) by (auto; lia).
    + split; [exact Hall |]. exists m.
      split; [exact Hm |]. split; [exact Hs |]. split; [lia |]. split.
      * rewrite (slice_snoc units _ i sentence) by (auto; lia).
        rewrite spaced_snoc, Hcur. now rewrite !app_assoc_str.
      * left. rewrite <- app_assoc_str.
        pose proof (len_strip_app_space (current_chunk st +:+ sentence)).
        destruct (Z.gtb_spec (Str.len (current_chunk st +:+ sentence)) chunk_size);
          [discriminate | lia].
Qed.

Lemma chunk_loop_units (rest : list string) : forall i st,
  0 <= i ->
  list.drop (Z.to_nat i) units = rest ->
  inv i st ->
  inv (Z.of_nat (length units))
    (chunk_loop chunk_size chunk_overlap page_data units rest i st).
Proof.
  induction rest as [|sentence rest IH]; intros i st Hi Hdrop Hinv;
    simpl chunk_loop.
  - destruct Hinv as ((_ & Hle) & Hall & Hpend).
    assert (Hlen : length (list.drop (Z.to_nat i) units) = 0%nat)
      by now rewrite Hdrop.
    rewrite length_drop in Hlen.
    replace (Z.of_nat (length units)) with i by lia.
    split; [lia |]. split; assumption.
  - assert (Hx : units !! Z.to_nat i = Some sentence).
    { rewrite <- (Nat.add_0_r (Z.to_nat i)), <- lookup_drop, Hdrop. reflexivity. }
    assert (Hlt : i < Z.of_nat (length units)).
    { apply lookup_lt_Some in Hx. lia. }
    apply IH; [lia | | now apply chunk_step_units].
    replace (Z.to_nat (i + 1)) with (S (Z.to_nat i)) by lia.
    rewrite <- Nat.add_1_r, <- drop_drop, Hdrop. reflexivity.
Qed.

End ChunkUnits.

Lemma chunk_page_units chunk_size chunk_overlap page_data :
  0 <= chunk_overlap ->
  Forall (chunk_of_units chunk_size chunk_overlap
            (_split_into_sentences (pd_text page_data)))
    (chunk_page chunk_size chunk_overlap [] page_data).
Proof.
  intros Ho. unfold chunk_page.
  set (units := _split_into_sentences (pd_text page_data)).
  pose proof (split_into_sentences_units (pd_text page_data)) as Hunits.
  fold units in Hunits.
  set (st0 := {| chunks := []; current_chunk := ""; chunk_start_sentence := 0 |}).
  assert (Hinv : loop_inv chunk_size chunk_overlap units 0 st0).
  { split; [lia |]. split; [constructor | split; reflexivity]. }
  apply (chunk_loop_units chunk_size chunk_overlap Ho page_data units Hunits
           units 0 st0) in Hinv; [| lia | reflexivity].
  destruct Hinv as (_ & Hall & Hpend).
  destruct (Str.non_empty (Str.strip (current_chunk _))) eqn:Hlast;
    [| exact Hall].
  apply Forall_app. split; [exact Hall |]. constructor; [| constructor].
  destruct (Z.eqb_spec (Z.of_nat (length units)) 0) as [H0 | Hne].
  - unfold pending_ok in Hpend. rewrite H0 in Hpend. simpl in Hpend.
    destruct Hpend as [Hcur _]. rewrite Hcur in Hlast. discriminate.
  - now apply (pending_chunk chunk_size chunk_overlap page_data units Hunits);
      [lia |].
Qed.

(** Without a window, a chunk beyond the size is one unit. *)
Lemma chunk_without_window chunk_size chunk_overlap units c :
  0 <= chunk_overlap < 50 ->
  chunk_of_units chunk_size chunk_overlap units c ->
  Str.len (c_text c) <= chunk_size \/ single_unit units c.
Proof.
  intros Ho (m & Hm & Hs & Hle & Htext & [Hsize | Hend]); [now left |].
  right. assert (m = 0) as -> by (rewrite Z.div_small in Hm; lia).
  rewrite Z.add_0_r in *. split; [now symmetry |].
  destruct (lookup_lt_is_Some_2 units (Z.to_nat (start_sentence c))) as [x Hx];
    [lia |].
  rewrite Hx, Htext. unfold window_text.
  rewrite Z.add_0_r, slice_nil, Hend.
  now rewrite (slice_one units (start_sentence c) x) by (auto; lia).
Qed.

(** C2, as amended. For every text, chunk size and non-negative overlap,
    every chunk of [chunk_text] is made of the units of its page from
    [start_sentence] to [end_sentence]: its text is the overlap window, of at
    most [chunk_overlap // 50] units joined by a space, followed with
    nothing in between by the further units joined by a space. The text has
    at most [chunk_size] characters, or else exactly one unit follows the
    window, whether that unit is code or a plain sentence; with an overlap
    below 50 there is no window, and a chunk beyond the size is one unit of
    the page as it is. *)
Theorem chunk_text_size_bound (chunk_size chunk_overlap : Z)
    (text_content : list PageData) :
  0 <= chunk_overlap ->
  Forall (chunk_ok chunk_size chunk_overlap text_content)
    (chunk_text chunk_size chunk_overlap text_content).
Proof.
  intros Ho. apply List.Forall_forall. intros c Hc.
  apply in_chunk_text in Hc as (p & Hp & Hc).
  exists p. split; [exact Hp |].
  destruct (chunk_page_sound chunk_size chunk_overlap p) as [Hsound _].
  rewrite List.Forall_forall in Hsound. destruct (Hsound c Hc) as [[Hpage _] _].
  pose proof (chunk_page_units chunk_size chunk_overlap p Ho) as Hunits.
  rewrite List.Forall_forall in Hunits. specialize (Hunits c Hc).
  split; [exact Hpage |]. split; [exact Hunits |].
  intros Hlt. apply (chunk_without_window chunk_size chunk_overlap); [lia | exact Hunits].
Qed.

(** The bound at the two plain sentences, [chunk_size = 20] and
    [chunk_overlap = 50]. *)
Lemma chunk_text_size_bound_witness :
  0 <= 50 /\ Forall (chunk_ok 20 50 [plain_page]) (chunk_text 20 50 [plain_page]).
Proof. split; [lia | apply (chunk_text_size_bound 20 50 [plain_page]); lia]. Defined.

(** ** Pages without ink *)

Lemma prefix_cons (a b : ascii) (p s : string) :
  String.prefix (String a p) (String b s)
  = if ascii_dec a b then String.prefix p s else false.
Proof. reflexivity. Qed.

Lemma space_not_backquote (c : ascii) (s : string) :
  Str.is_space c = true -> String.prefix Re.fence_open (String c s) = false.
Proof.
  intros Hc. unfold Re.fence_open. rewrite prefix_cons.
  destruct (ascii_dec "`" c) as [<- |]; [discriminate | reflexivity].
Qed.

Lemma space_not_placeholder (c : ascii) (s : string) :
  Str.is_space c = true -> String.prefix Re.PLACEHOLDER (String c s) = false.
Proof.
  intros Hc. unfold Re.PLACEHOLDER. rewrite prefix_cons.
  destruct (ascii_dec "C" c) as [<- |]; [discriminate | reflexivity].
Qed.

Lemma no_ink_cons (c : ascii) (s : string) :
  has_ink (String c s) = false -> Str.is_space c = true /\ has_ink s = false.
Proof.
  simpl. intros H. apply orb_false_iff in H as [Hc Hs].
  split; [now apply negb_false_iff in Hc | exact Hs].
Qed.

Lemma sub_code_no_ink (s : string) : has_ink s = false -> Re.sub_from s 0 = s.
Proof.
  induction s as [|c s IH]; intros H; [reflexivity |].
  apply no_ink_cons in H as [Hc Hs]. simpl.
  unfold Re.match_code_block. rewrite space_not_backquote by exact Hc.
  now rewrite IH.
Qed.

Lemma split_from_no_ink (s : string) : forall prev_punct in_sep,
  has_ink s = false ->
  Forall (fun piece => has_ink piece = false) (Re.split_from s prev_punct in_sep).
Proof.
  induction s as [|c s IH]; intros prev_punct in_sep H; simpl.
  - repeat constructor.
  - apply no_ink_cons in H as [Hc Hs]. rewrite Hc. simpl.
    destruct (in_sep || prev_punct) eqn:Hsep.
    + destruct in_sep; [now apply IH |]. constructor; [reflexivity | now apply IH].
    + specialize (IH (Re.is_end_punct c) false Hs).
      destruct (Re.split_from s (Re.is_end_punct c) false) as [|piece rest];
        simpl.
      * constructor; [| constructor]. simpl. now rewrite Hc.
      * inversion IH; subst. constructor; [| assumption]. simpl. now rewrite Hc.
Qed.

Lemma contains_placeholder_no_ink (s : string) :
  has_ink s = false -> Str.contains Re.PLACEHOLDER s = false.
Proof.
  induction s as [|c s IH]; intros H; [reflexivity |].
  apply no_ink_cons in H as [Hc Hs].
  change (String.prefix Re.PLACEHOLDER (String c s)
          || Str.contains Re.PLACEHOLDER s = false).
  rewrite space_not_placeholder by exact Hc. now apply IH.
Qed.

Lemma split_into_sentences_no_ink (text : string) :
  has_ink text = false -> _split_into_sentences text = [].
Proof.
  intros H. unfold _split_into_sentences, Re.sub_code, Re.split_sentences.
  rewrite sub_code_no_ink by exact H.
  pose proof (split_from_no_ink text false false H) as Hpieces.
  generalize (Re.findall_code text) as code_blocks. intros code_blocks.
  generalize 0%nat as code_index.
  induction Hpieces as [|piece pieces Hp _ IH]; intros code_index;
    [reflexivity |].
  simpl. rewrite contains_placeholder_no_ink by exact Hp. simpl.
  rewrite non_empty_strip, Hp. apply IH.
Qed.

(** X4. A page of white space gives no chunk, and neither does an empty list
    of pages. *)
Theorem blank_pages_no_chunk (chunk_size chunk_overlap : Z) (pages : list PageData) :
  Forall (fun p => has_ink (pd_text p) = false) pages ->
  chunk_text chunk_size chunk_overlap pages = [].
Proof.
  induction 1 as [|p pages Hp _ IH]; [reflexivity |].
  rewrite chunk_text_cons, IH, app_nil_r.
  unfold chunk_page. now rewrite split_into_sentences_no_ink.
Qed.

(** A page of a newline and three spaces. *)
Lemma blank_pages_no_chunk_witness :
  Forall (fun p => has_ink (pd_text p) = false) [blank_page] /\
  chunk_text 1000 200 [blank_page] = [].
Proof.
  assert (H : Forall (fun p => has_ink (pd_text p) = false) [blank_page])
    by (constructor; [reflexivity | constructor]).
  split; [exact H | exact (blank_pages_no_chunk 1000 200 [blank_page] H)].
Defined.

(** ** What chunking keeps of the text *)

Lemma squeeze_app (a b : string) : squeeze (a +:+ b) = squeeze a +:+ squeeze b.
Proof.
  induction a as [|c a IH]; str_cons; simpl; [reflexivity |].
  destruct (Str.is_space c); str_cons; now rewrite IH.
Qed.

Lemma squeeze_no_ink (s : string) : has_ink s = false -> squeeze s = "".
Proof.
  induction s as [|c s IH]; intros H; [reflexivity |].
  apply no_ink_cons in H as [Hc Hs]. simpl. rewrite Hc. now apply IH.
Qed.

Lemma squeeze_lstrip (s : string) : squeeze (Str.lstrip s) = squeeze s.
Proof.
  induction s as [|c s IH]; simpl; [reflexivity |].
  destruct (Str.is_space c) eqn:Hc; simpl; [exact IH | now rewrite Hc].
Qed.

Lemma squeeze_rstrip (s : string) : squeeze (Str.rstrip s) = squeeze s.
Proof.
  induction s as [|c s IH]; simpl; [reflexivity |].
  destruct (Str.rstrip s) as [|c' r] eqn:Hr.
  - simpl in IH. rewrite <- IH.
    destruct (Str.is_space c) eqn:Hc; simpl; now rewrite ?Hc.
  - change (squeeze (String c (String c' r)))
      with (if Str.is_space c then squeeze (String c' r)
            else String c (squeeze (String c' r))).
    now rewrite IH.
Qed.

Lemma squeeze_strip (s : string) : squeeze (Str.strip s) = squeeze s.
Proof. unfold Str.strip. now rewrite squeeze_lstrip, squeeze_rstrip. Qed.

Lemma concat_str_cons (x : string) (l : list string) :
  concat_str (x :: l) = x +:+ concat_str l.
Proof. reflexivity. Qed.

Lemma concat_str_single (x : string) : concat_str [x] = x.
Proof. rewrite concat_str_cons. apply app_empty_r. Qed.

Lemma concat_str_app (l1 l2 : list string) :
  concat_str (l1 ++ l2) = concat_str l1 +:+ concat_str l2.
Proof.
  induction l1 as [|x l1 IH]; [reflexivity |].
  change ((x :: l1) ++ l2) with (x :: (l1 ++ l2)).
  now rewrite !concat_str_cons, IH, app_assoc_str.
Qed.

Lemma squeeze_cons (c : ascii) (s : string) :
  squeeze (String c s)
  = if Str.is_space c then squeeze s else String c (squeeze s).
Proof. reflexivity. Qed.

Lemma concat_str_cons_head (c : ascii) (l : list string) :
  concat_str (Re.cons_head c l) = String c (concat_str l).
Proof. destruct l; reflexivity. Qed.

(** The separators of [re.split] are white space. *)
Lemma squeeze_split_from (s : string) : forall prev_punct in_sep,
  squeeze (concat_str (Re.split_from s prev_punct in_sep)) = squeeze s.
Proof.
  induction s as [|c s IH]; intros prev_punct in_sep; [reflexivity |].
  simpl Re.split_from. rewrite (squeeze_cons c s).
  destruct (Str.is_space c && (in_sep || prev_punct)) eqn:Hsep.
  - apply andb_true_iff in Hsep as [Hc _]. rewrite Hc.
    destruct in_sep; [apply IH |].
    rewrite concat_str_cons. str_cons. apply IH.
  - rewrite concat_str_cons_head, squeeze_cons, IH. reflexivity.
Qed.

(** Without a fenced block nothing is replaced. *)
Lemma sub_from_no_match (s : string) : forall skip,
  Re.findall_from s skip = [] -> Re.sub_from s skip = Str.drop skip s.
Proof.
  induction s as [|c s IH]; intros skip H; simpl in *.
  - now destruct skip.
  - destruct skip as [|n]; [| now apply IH].
    destruct (Re.match_code_block (String c s)) as [[body n]|]; [discriminate |].
    rewrite (IH 0%nat H). reflexivity.
Qed.

Lemma restore_code_nil (sentences : list string) (code_index : nat) :
  restore_code sentences [] code_index = sentences.
Proof.
  induction sentences as [|x l IH]; simpl; [reflexivity |].
  destruct (Str.contains Re.PLACEHOLDER x); now rewrite IH.
Qed.

Lemma squeeze_kept_units (l : list string) :
  squeeze (concat_str
             (omap (fun s => if Str.non_empty (Str.strip s)
                             then Some (Str.strip s) else None) l))
  = squeeze (concat_str l).
Proof.
  induction l as [|x l IH]; [reflexivity |].
  rewrite concat_str_cons, squeeze_app, <- IH. simpl omap.
  destruct (Str.non_empty (Str.strip x)) eqn:Hx.
  - now rewrite concat_str_cons, squeeze_app, squeeze_strip.
  - rewrite non_empty_strip in Hx. now rewrite (squeeze_no_ink x Hx).
Qed.

(** X5. When the text has no complete fenced block, splitting it into
    sentences only discards white space: the other characters of the units,
    in order, are those of the text. *)
Theorem split_keeps_ink (text : string) :
  Re.findall_code text = [] ->
  squeeze (concat_str (_split_into_sentences text)) = squeeze text.
Proof.
  intros H. unfold _split_into_sentences.
  rewrite H, restore_code_nil, squeeze_kept_units.
  unfold Re.sub_code, Re.split_sentences.
  rewrite (sub_from_no_match text 0 H). simpl Str.drop.
  replace (Str.drop 0 text) with text by now destruct text.
  apply squeeze_split_from.
Qed.

(** The text of the scenario. *)
Lemma split_keeps_ink_witness :
  Re.findall_code (pd_text scenario_page) = [] /\
  squeeze (concat_str (_split_into_sentences (pd_text scenario_page)))
  = squeeze (pd_text scenario_page).
Proof.
  assert (H : Re.findall_code (pd_text scenario_page) = []) by reflexivity.
  split; [exact H | exact (split_keeps_ink (pd_text scenario_page) H)].
Defined.

Section Partition.

Variable chunk_size : Z.
Variable chunk_overlap : Z.
Hypothesis no_window : 0 <= chunk_overlap < 50.

Lemma window_zero : chunk_overlap / 50 = 0.
Proof. apply Z.div_small. exact no_window. Qed.

Lemma slice_window_empty (sentences : list string) (i : Z) :
  Str.slice sentences (overlap_start chunk_overlap i) i = [].
Proof.
  unfold Str.slice, overlap_start. rewrite window_zero.
  replace (Z.to_nat (i - Z.max 0 (i - 0))) with 0%nat by lia.
  reflexivity.
Qed.

(** The chunks and the chunk under construction hold the ink of the units
    consumed, once and in order. *)
Lemma chunk_loop_partition page_data sentences rest : forall i us st,
  squeeze (concat_str (map c_text (chunks st))) +:+ squeeze (current_chunk st)
  = squeeze (concat_str us) ->
  let st' := chunk_loop chunk_size chunk_overlap page_data sentences rest i st in
  squeeze (concat_str (map c_text (chunks st'))) +:+ squeeze (current_chunk st')
  = squeeze (concat_str (us ++ rest)).
Proof.
  induction rest as [|sentence rest IH]; intros i us st H.
  - simpl. now rewrite app_nil_r.
  - simpl chunk_loop.
    replace (us ++ sentence :: rest) with ((us ++ [sentence]) ++ rest)
      by now rewrite <- app_assoc.
    apply IH. unfold chunk_step.
    rewrite concat_str_app, squeeze_app, <- H, concat_str_single.
    destruct ((Str.len (current_chunk st +:+ sentence) >? chunk_size)
              && Str.non_empty (current_chunk st)); simpl.
    + rewrite slice_window_empty. simpl Str.join.
      rewrite map_app, concat_str_app, squeeze_app. simpl map.
      rewrite concat_str_single, squeeze_strip.
      str_cons. rewrite squeeze_app. simpl squeeze.
      now rewrite app_empty_r.
    + rewrite !squeeze_app. simpl squeeze.
      now rewrite app_empty_r, app_assoc_str.
Qed.

Lemma chunk_page_partition page_data :
  squeeze (concat_str (map c_text (chunk_page chunk_size chunk_overlap [] page_data)))
  = squeeze (concat_str (_split_into_sentences (pd_text page_data))).
Proof.
  unfold chunk_page.
  set (sentences := _split_into_sentences (pd_text page_data)).
  set (st0 := {| chunks := []; current_chunk := ""; chunk_start_sentence := 0 |}).
  assert (H0 : squeeze (concat_str (map c_text (chunks st0)))
               +:+ squeeze (current_chunk st0) = squeeze (concat_str []))
    by reflexivity.
  pose proof (chunk_loop_partition page_data sentences sentences 0 [] st0 H0) as H.
  simpl in H. rewrite <- H.
  destruct (Str.non_empty (Str.strip (current_chunk _))) eqn:Hlast.
  - rewrite map_app, concat_str_app, squeeze_app. simpl map.
    now rewrite concat_str_single, squeeze_strip.
  - rewrite non_empty_strip in Hlast.
    now rewrite (squeeze_no_ink _ Hlast), app_empty_r.
Qed.

Lemma chunk_text_partition pages :
  squeeze (concat_str (map c_text (chunk_text chunk_size chunk_overlap pages)))
  = squeeze (concat_str
               (map (fun p => concat_str (_split_into_sentences (pd_text p))) pages)).
Proof.
  induction pages as [|p pages IH]; [reflexivity |].
  rewrite chunk_text_cons, map_app, concat_str_app, squeeze_app.
  rewrite chunk_page_partition, IH. simpl map.
  now rewrite concat_str_cons, squeeze_app.
Qed.

End Partition.

(** X6. With an overlap below 50 the overlap window is empty and the chunks
    are a partition of the units: the characters other than white space of
    the chunk texts, put end to end, are exactly those of the units of the
    pages, nothing lost and nothing twice. *)
Theorem chunks_partition_units (chunk_size chunk_overlap : Z) (pages : list PageData) :
  0 <= chunk_overlap < 50 ->
  squeeze (concat_str (map c_text (chunk_text chunk_size chunk_overlap pages)))
  = squeeze (concat_str
               (map (fun p => concat_str (_split_into_sentences (pd_text p))) pages)).
Proof. intros H. now apply chunk_text_partition. Qed.

(** The scenario, [chunk_overlap = 10]. *)
Lemma chunks_partition_units_witness :
  0 <= 10 < 50 /\
  squeeze (concat_str (map c_text (chunk_text 50 10 [scenario_page])))
  = squeeze (concat_str
               (map (fun p => concat_str (_split_into_sentences (pd_text p)))
                  [scenario_page])).
Proof.
  assert (H : 0 <= 10 < 50) by lia.
  split; [exact H | exact (chunks_partition_units 50 10 [scenario_page] H)].
Defined.

(** ** The index: reads *)

Lemma same_memory_refl s : same_memory s s.
Proof. repeat split. Qed.

Lemma same_memory_searched query k s : same_memory s (searched query k s).
Proof. repeat split. Qed.

Lemma similarity_search_state
    (encode : string -> vector)
    (index_search : IndexFlatIP -> vector -> Z -> result (list (Q * Z)))
    (query : string) (k : Z) (threshold : Q) (s : State) :
  let s' := snd (similarity_search encode index_search query k threshold s) in
  s' = s \/ s' = searched query k s.
Proof.
  destruct (Str.non_empty (Str.strip query)) eqn:Hq.
  - right. rewrite similarity_search_unfold by exact Hq.
    destruct (index_search (index s) (encode query) k) as [hits|e];
      [| reflexivity].
    destruct (collect_results (metadata s) threshold hits []); reflexivity.
  - left. now rewrite similarity_search_blank.
Qed.

(** X7. A search only reads: whatever [similarity_search],
    [search_with_context] or [batch_similarity_search] return or raise, the
    index, the metadata, the dimension, the model name and the disk are as
    before. *)
Theorem search_read_only
    (encode : string -> vector)
    (index_search : IndexFlatIP -> vector -> Z -> result (list (Q * Z)))
    (query : string) (queries : list string) (k : Z) (threshold : Q) (s : State) :
  let s1 := snd (similarity_search encode index_search query k threshold s) in
  let s2 := snd (search_with_context encode index_search query k threshold s) in
  let s3 := snd (batch_similarity_search encode index_search queries k s) in
  (same_memory s s1 /\ disk s1 = disk s) /\
  (same_memory s s2 /\ disk s2 = disk s) /\
  (same_memory s s3 /\ disk s3 = disk s).
Proof.
  assert (H1 : let s1 := snd (similarity_search encode index_search query k threshold s) in
               same_memory s s1 /\ disk s1 = disk s).
  { destruct (similarity_search_state encode index_search query k threshold s)
      as [-> | ->]; repeat split. }
  split; [exact H1 |]. split.
  - unfold search_with_context, bind.
    destruct (similarity_search encode index_search query k threshold s)
      as [[results|e] s'] eqn:Hs; simpl in H1.
    + destruct results; exact H1.
    + exact H1.
  - unfold batch_similarity_search.
    destruct queries as [|q queries]; [repeat split |].
    unfold bind, encoder_encode, bind, modify, ret, gets, lift. simpl.
    repeat match goal with
      | |- context [match ?x with _ => _ end] => destruct x; simpl
      end;
      repeat split.
Qed.

(** The entries that the loop appends carry the metadata found at their
    position. *)
Lemma collect_results_metadata md threshold hits : forall acc res,
  Forall (fun r => py_index md (position r) = Ok (r_metadata r)) acc ->
  collect_results md threshold hits acc = Ok res ->
  Forall (fun r => py_index md (position r) = Ok (r_metadata r)) res.
Proof.
  induction hits as [|[sc idx] hits IH]; intros acc res Hacc H; simpl in H.
  - now injection H as <-.
  - destruct ((idx <? Z.of_nat (length md)) && float32_ge sc threshold).
    + destruct (py_index md idx) as [m|e] eqn:Hm; [| discriminate].
      eapply IH; [| exact H].
      apply Forall_app. split; [exact Hacc |]. constructor; [exact Hm | constructor].
    + eapply IH; eassumption.
Qed.

Lemma py_index_nonneg {A} (l : list A) (i : Z) (x : A) :
  0 <= i -> py_index l i = Ok x -> l !! Z.to_nat i = Some x.
Proof.
  intros Hi. unfold py_index.
  destruct (i <? 0) eqn:Hneg; [apply Z.ltb_lt in Hneg; lia |]. rewrite Hneg.
  destruct (l !! Z.to_nat i); [| discriminate]. now intros [= ->].
Qed.

(** X8. Every result carries the metadata stored at its position: for a
    position that is not negative, [r_metadata] is the entry of the metadata
    list at that index. *)
Theorem results_carry_stored_metadata
    (encode : string -> vector)
    (index_search : IndexFlatIP -> vector -> Z -> result (list (Q * Z)))
    (query : string) (k : Z) (threshold : Q) (s s' : State)
    (results : list SearchResult) :
  similarity_search encode index_search query k threshold s = (Ok results, s') ->
  Forall (fun r => py_index (metadata s) (position r) = Ok (r_metadata r)
                   /\ (0 <= position r ->
                       metadata s !! Z.to_nat (position r) = Some (r_metadata r)))
    results.
Proof.
  intros Hs.
  apply similarity_search_ok in Hs
    as [(_ & -> & _) | (_ & hits & res & _ & Hc & -> & _)]; [constructor |].
  apply sort_desc_Forall.
  eapply Forall_impl;
    [eapply collect_results_metadata; [constructor | exact Hc] |].
  intros r Hr. split; [exact Hr |]. intros Hpos. now apply py_index_nonneg.
Qed.

(** The search over the twin passages. *)
Lemma results_carry_stored_metadata_witness :
  similarity_search demo_encode flat_ip_search demo_query 2 (1 # 2) store_twins
  = (Ok twins_results, searched demo_query 2 store_twins) /\
  Forall (fun r => py_index (metadata store_twins) (position r) = Ok (r_metadata r)
                   /\ (0 <= position r ->
                       metadata store_twins !! Z.to_nat (position r)
                       = Some (r_metadata r)))
    twins_results.
Proof.
  split; [exact twins_search |].
  exact (results_carry_stored_metadata demo_encode flat_ip_search demo_query 2
           (1 # 2) store_twins _ twins_results twins_search).
Defined.

Lemma insert_desc_perm x l : Permutation (insert_desc x l) (x :: l).
Proof.
  induction l as [|y l IH]; simpl; [reflexivity |].
  destruct (Qle_bool (score y) (score x)); [reflexivity |].
  rewrite IH. apply perm_swap.
Qed.

Lemma sort_desc_perm l : Permutation (sort_desc l) l.
Proof.
  induction l as [|x l IH]; simpl; [reflexivity |].
  rewrite insert_desc_perm. now constructor.
Qed.

(** X9. The results are the rows of the backend that pass the filter, each
    of them once: the pairs of score and position of the results are a
    permutation of the retained rows. *)
Theorem results_are_kept_rows
    (encode : string -> vector)
    (index_search : IndexFlatIP -> vector -> Z -> result (list (Q * Z)))
    (query : string) (k : Z) (threshold : Q) (s s' : State)
    (results : list SearchResult) (hits : list (Q * Z)) :
  Str.non_empty (Str.strip query) = true ->
  index_search (index s) (encode query) k = Ok hits ->
  similarity_search encode index_search query k threshold s = (Ok results, s') ->
  Permutation (map hit_of results) (kept (metadata s) threshold hits).
Proof.
  intros Hq Hh Hs.
  apply similarity_search_ok in Hs
    as [(Hq' & _) | (_ & hits' & res & Hh' & Hc & -> & _)]; [congruence |].
  rewrite Hh in Hh'. injection Hh' as <-.
  apply collect_results_hits in Hc. simpl in Hc. rewrite <- Hc.
  apply Permutation_map, sort_desc_perm.
Qed.

(** The search over the twin passages, both rows retained. *)
Lemma results_are_kept_rows_witness :
  Str.non_empty (Str.strip demo_query) = true /\
  flat_ip_search (index store_twins) (demo_encode demo_query) 2
  = Ok [(4 # 5, 1); (4 # 5, 0)] /\
  Permutation (map hit_of twins_results)
    (kept (metadata store_twins) (1 # 2) [(4 # 5, 1); (4 # 5, 0)]).
Proof.
  assert (H1 : Str.non_empty (Str.strip demo_query) = true) by reflexivity.
  assert (H2 : flat_ip_search (index store_twins) (demo_encode demo_query) 2
               = Ok [(4 # 5, 1); (4 # 5, 0)]) by (vm_compute; reflexivity).
  split; [exact H1 |]. split; [exact H2 |].
  exact (results_are_kept_rows demo_encode flat_ip_search demo_query 2 (1 # 2)
           store_twins _ twins_results _ H1 H2 twins_search).
Defined.

(** ** The index: writes *)

Lemma add_documents_ok encode documents s :
  valid_documents documents <> [] ->
  rows_fit (map encode (map fst (valid_documents documents))) s = true ->
  exists s1,
    _save_index (extended encode documents s) = (Ok tt, s1) /\
    same_memory (extended encode documents s) s1 /\
    add_documents encode documents s
    = (Ok tt, add_event (Logged INFO "Added documents to vector store") s1).
Proof.
  intros Hvalid Hfit.
  destruct (_save_index_returns (extended encode documents s)) as (s1 & Hsave & Hmem).
  exists s1. split; [exact Hsave |]. split; [exact Hmem |].
  rewrite add_documents_unfold, Hfit, Hsave.
  destruct (valid_documents documents); [congruence | reflexivity].
Qed.

(** X10. The three outcomes of [add_documents]. With no document of a text
    that is not blank it returns, and only a warning is logged; when a row of
    the embeddings has not the dimension of the index it raises
    [AssertionError]; in both cases the index, the metadata and the disk are
    as before. Otherwise it returns, and the metadata and the vectors of the
    documents kept are appended in order, the entries of before staying at
    their positions. *)
Theorem add_documents_outcomes
    (encode : string -> vector) (documents : list Document) (s : State) :
  let valid := valid_documents documents in
  let x := map encode (map fst valid) in
  let r := add_documents encode documents s in
  (valid = [] /\ fst r = Ok tt /\ same_memory s (snd r) /\ disk (snd r) = disk s /\
   exists msg, events (snd r) = events s ++ [Logged WARNING msg]) \/
  (valid <> [] /\ rows_fit x s = false /\ fst r = Raise AssertionError /\
   same_memory s (snd r) /\ disk (snd r) = disk s) \/
  (valid <> [] /\ rows_fit x s = true /\ fst r = Ok tt /\
   metadata (snd r) = metadata s ++ map snd valid /\
   vectors (index (snd r)) = vectors (index s) ++ x /\
   d (index (snd r)) = d (index s)).
Proof.
  cbv zeta.
  destruct (valid_documents documents) as [|v valid] eqn:Hv.
  - left. rewrite add_documents_unfold, Hv. simpl.
    repeat split. eexists. reflexivity.
  - right.
    destruct (rows_fit (map encode (map fst (v :: valid))) s) eqn:Hfit.
    + right. split; [discriminate |]. split; [reflexivity |].
      destruct (add_documents_ok encode documents s) as (s1 & _ & Hmem & ->);
        [rewrite Hv; discriminate | now rewrite Hv |].
      destruct Hmem as (Hi & Hm & _). simpl. rewrite Hi, Hm.
      unfold extended. rewrite Hv. repeat split.
    + left. split; [discriminate |]. split; [reflexivity |].
      rewrite add_documents_unfold, Hv, Hfit. repeat split.
Qed.

(** X11. What is saved is what is loaded: after an [add_documents] that
    appends, or a [clear_index], on a disk that takes the writes, a store
    constructed from that disk has the index and the metadata of the store
    that saved them. *)
Theorem save_load_round_trip
    (name : string) (encoder_dimension : Z)
    (encode : string -> vector) (documents : list Document) (s : State) :
  index_writable (disk s) = true ->
  metadata_writable (disk s) = true ->
  valid_documents documents <> [] ->
  rows_fit (map encode (map fst (valid_documents documents))) s = true ->
  (let s' := snd (add_documents encode documents s) in
   exists s2,
     __init__ name encoder_dimension (disk s') = (Ok tt, s2) /\
     index s2 = index s' /\ metadata s2 = metadata s')
  /\ (let s' := snd (clear_index s) in
      exists s2,
        __init__ name encoder_dimension (disk s') = (Ok tt, s2) /\
        index s2 = index s' /\ metadata s2 = metadata s' /\ metadata s2 = []).
Proof.
  intros Hi Hm Hvalid Hfit. split.
  - destruct (add_documents_ok encode documents s Hvalid Hfit)
      as (s1 & Hsave & (Hmi & Hmm & _) & ->).
    destruct (_save_index_success (extended encode documents s) s1 Hi Hm Hsave)
      as [Hfi Hfm].
    simpl. unfold __init__.
    match goal with
    | |- context [_load_existing_index ?s0] =>
        destruct (_load_existing_index_spec s0) as (s2 & -> & _ & _ & _ & Hst)
    end.
    simpl in Hst. rewrite Hfi, Hfm in Hst. injection Hst as Hx Hy.
    exists s2. simpl. rewrite Hx, Hy, Hmi, Hmm. repeat split; reflexivity.
  - rewrite clear_index_unfold.
    destruct (_save_index_returns (cleared s)) as (s1 & Hsave & (Hmi & Hmm & _)).
    rewrite Hsave.
    destruct (_save_index_success (cleared s) s1 Hi Hm Hsave) as [Hfi Hfm].
    simpl. unfold __init__.
    match goal with
    | |- context [_load_existing_index ?s0] =>
        destruct (_load_existing_index_spec s0) as (s2 & -> & _ & _ & _ & Hst)
    end.
    simpl in Hst. rewrite Hfi, Hfm in Hst. injection Hst as Hx Hy.
    exists s2. simpl. rewrite Hx, Hy, Hmi, Hmm. repeat split; reflexivity.
Qed.

(** A second passage added to the store of one, then the store reloaded. *)
Lemma save_load_round_trip_witness :
  index_writable (disk store_one) = true /\
  metadata_writable (disk store_one) = true /\
  valid_documents [doc_basics] <> [] /\
  rows_fit (map demo_encode (map fst (valid_documents [doc_basics]))) store_one
  = true /\
  (let s' := snd (add_documents demo_encode [doc_basics] store_one) in
   exists s2,
     __init__ "all-MiniLM-L6-v2" 2 (disk s') = (Ok tt, s2) /\
     index s2 = index s' /\ metadata s2 = metadata s').
Proof.
  assert (H1 : index_writable (disk store_one) = true) by reflexivity.
  assert (H2 : metadata_writable (disk store_one) = true) by reflexivity.
  assert (H3 : valid_documents [doc_basics] <> []) by (vm_compute; discriminate).
  assert (H4 : rows_fit (map demo_encode (map fst (valid_documents [doc_basics])))
                 store_one = true) by reflexivity.
  split; [exact H1 |]. split; [exact H2 |]. split; [exact H3 |].
  split; [exact H4 |].
  exact (proj1 (save_load_round_trip "all-MiniLM-L6-v2" 2 demo_encode [doc_basics]
                  store_one H1 H2 H3 H4)).
Defined.

(** X12. [update_documents] is a rebuild: when the embeddings have the
    dimension of the store, the store afterwards holds the documents kept and
    nothing else, whatever it held before and whether the writes succeed;
    with no document kept it is left empty. *)
Theorem update_documents_rebuilds
    (encode : string -> vector) (documents : list Document) (s : State) :
  rows_fit (map encode (map fst (valid_documents documents))) (cleared s) = true ->
  exists s',
    update_documents encode documents s = (Ok tt, s') /\
    metadata s' = map snd (valid_documents documents) /\
    vectors (index s') = map encode (map fst (valid_documents documents)) /\
    d (index s') = dimension s.
Proof.
  intros Hfit. unfold update_documents, bind, log, modify. simpl.
  rewrite clear_index_unfold.
  match goal with
  | |- context [_save_index ?s0] =>
      destruct (_save_index_returns s0) as (s1 & Hsave & (Hi & Hm & _))
  end.
  rewrite Hsave. simpl in Hi, Hm.
  set (sc := add_event (Logged INFO "Cleared vector store index") s1).
  assert (Hic : index sc = new_IndexFlatIP (dimension s)) by exact Hi.
  assert (Hmc : metadata sc = []) by exact Hm.
  assert (Hfit' : rows_fit (map encode (map fst (valid_documents documents))) sc = true).
  { unfold rows_fit in *. now rewrite Hic. }
  destruct (valid_documents documents) as [|v valid] eqn:Hv.
  - rewrite add_documents_unfold, Hv. eexists. split; [reflexivity |].
    simpl. rewrite Hi, Hm. repeat split; reflexivity.
  - destruct (add_documents_ok encode documents sc) as (s2 & _ & (Hi2 & Hm2 & _) & ->);
      [rewrite Hv; discriminate | now rewrite Hv |].
    eexists. split; [reflexivity |]. simpl. rewrite Hi2, Hm2.
    unfold extended. rewrite Hv. simpl. rewrite Hi, Hm.
    repeat split; reflexivity.
Qed.

(** The store of one document rebuilt from the other passage. *)
Lemma update_documents_rebuilds_witness :
  rows_fit (map demo_encode (map fst (valid_documents [doc_basics])))
    (cleared store_one) = true /\
  exists s',
    update_documents demo_encode [doc_basics] store_one = (Ok tt, s') /\
    metadata s' = map snd (valid_documents [doc_basics]) /\
    vectors (index s') = map demo_encode (map fst (valid_documents [doc_basics])) /\
    d (index s') = dimension store_one.
Proof.
  assert (H : rows_fit (map demo_encode (map fst (valid_documents [doc_basics])))
                (cleared store_one) = true) by reflexivity.
  split; [exact H | exact (update_documents_rebuilds demo_encode [doc_basics] store_one H)].
Defined.

(** ** Callers of the search *)

Lemma search_results_ranked
    (encode : string -> vector)
    (index_search : IndexFlatIP -> vector -> Z -> result (list (Q * Z)))
    (query : string) (k : Z) (threshold : Q) (s s' : State)
    (results : list SearchResult) :
  0 < k ->
  (forall hits, index_search (index s) (encode query) k = Ok hits ->
                Z.of_nat (length hits) <= k) ->
  similarity_search encode index_search query k threshold s = (Ok results, s') ->
  ranked k threshold (metadata s) results.
Proof.
  intros Hk Hlen Hs.
  apply similarity_search_ok in Hs
    as [(_ & -> & _) | (_ & hits & res & Hh & Hc & -> & _)].
  - repeat split; try constructor. simpl. lia.
  - destruct (ranked_properties _ _ _ _ Hc) as (Hl & Ht & Hp & Hsorted & _).
    specialize (Hlen hits Hh). repeat split; try assumption. lia.
Qed.

Lemma StronglySorted_map {A B} (f : A -> B) (R : A -> A -> Prop)
    (R' : B -> B -> Prop) (l : list A) :
  (forall a b, R a b -> R' (f a) (f b)) ->
  StronglySorted R l -> StronglySorted R' (map f l).
Proof.
  intros HR. induction 1 as [|a l Hs IH Hall]; simpl; constructor; [exact IH |].
  apply List.Forall_map. eapply Forall_impl; [exact Hall |]. intros b. apply HR.
Qed.

Lemma half_is_float32 : is_float32 (1 # 2).
Proof. exists (1 # 2)%Q. split; [vm_compute; reflexivity | reflexivity]. Qed.

(** What a search with a query that is not blank returns, in terms of the
    rows of the backend. *)
Lemma search_results_of
    (encode : string -> vector)
    (index_search : IndexFlatIP -> vector -> Z -> result (list (Q * Z)))
    (query : string) (k : Z) (threshold : Q) (s s' : State)
    (results : list SearchResult) :
  Str.non_empty (Str.strip query) = true ->
  similarity_search encode index_search query k threshold s = (Ok results, s') ->
  exists hits,
    index_search (index s) (encode query) k = Ok hits /\
    results_of (metadata s) threshold hits results.
Proof.
  intros Hq Hs.
  apply similarity_search_ok in Hs
    as [(Hq' & _) | (_ & hits & res & Hh & Hc & -> & _)]; [congruence |].
  exists hits. split; [exact Hh |]. split; [| split].
  - pose proof (collect_results_hits _ _ _ _ _ Hc) as Hhits. simpl in Hhits.
    rewrite <- Hhits. apply Permutation_map, sort_desc_perm.
  - apply sort_desc_Forall.
    eapply collect_results_metadata; [constructor | exact Hc].
  - apply sort_desc_sorted.
Qed.

(** X13. [get_recommendations] gives one recommendation per result of the
    search with the threshold 0.5. For a topic that is not blank the
    recommendations are built, in rank order, from the rows of the backend
    that the search retains, each from the metadata stored at the position
    of its row; a blank topic gives none. For a positive number and a
    backend that answers with at most that many rows there are at most that
    many recommendations, each for the topic and with a relevance of at
    least 0.5, by non-increasing relevance. *)
Theorem recommendations_ranked
    (encode : string -> vector)
    (index_search : IndexFlatIP -> vector -> Z -> result (list (Q * Z)))
    (topic : string) (num_recommendations : Z) (s s' : State)
    (recommendations : list Chatbot.Recommendation) :
  0 < num_recommendations ->
  (forall hits,
     index_search (index s) (encode topic) num_recommendations = Ok hits ->
     Z.of_nat (length hits) <= num_recommendations) ->
  Chatbot.get_recommendations encode index_search topic num_recommendations s
  = (Ok recommendations, s') ->
  (Z.of_nat (length recommendations) <= num_recommendations /\
   Forall (fun r => (1 # 2 <= Chatbot.relevance_score r)%Q
                    /\ Chatbot.rec_topic r = topic) recommendations /\
   StronglySorted desc_rec recommendations) /\
  (Str.non_empty (Str.strip topic) = false -> recommendations = []) /\
  (Str.non_empty (Str.strip topic) = true ->
   exists hits results,
     index_search (index s) (encode topic) num_recommendations = Ok hits /\
     results_of (metadata s) (1 # 2) hits results /\
     recommendations = map (Chatbot.make_recommendation topic) results).
Proof.
  intros Hk Hlen H. unfold Chatbot.get_recommendations, bind in H.
  destruct (similarity_search encode index_search topic num_recommendations
              (1 # 2) s) as [[results|e] s1] eqn:Hs; [| discriminate].
  injection H as <- <-.
  destruct (search_results_ranked _ _ _ _ _ _ _ _ Hk Hlen Hs)
    as (Hl & Ht & _ & Hsorted).
  split; [| split].
  - rewrite length_map. split; [exact Hl |]. split.
    + apply List.Forall_map. eapply Forall_impl; [exact Ht |].
      intros r Hr. split; [| reflexivity].
      exact (at_least32_exact _ _ half_is_float32 Hr).
    + eapply StronglySorted_map; [| exact Hsorted]. intros a b Hab. exact Hab.
  - intros Hq. rewrite similarity_search_blank in Hs by exact Hq.
    now injection Hs as <- _.
  - intros Hq. destruct (search_results_of _ _ _ _ _ _ _ _ Hq Hs) as (hits & Hh & Hr).
    now exists hits, results.
Qed.

(** The recommendations for the query over the twin passages. *)
Lemma recommendations_ranked_witness :
  0 < 2 /\
  (forall hits,
     flat_ip_search (index store_twins) (demo_encode demo_query) 2 = Ok hits ->
     Z.of_nat (length hits) <= 2) /\
  Chatbot.get_recommendations demo_encode flat_ip_search demo_query 2 store_twins
  = (Ok (map (Chatbot.make_recommendation demo_query) twins_results),
     searched demo_query 2 store_twins) /\
  Z.of_nat (length (map (Chatbot.make_recommendation demo_query) twins_results)) <= 2.
Proof.
  assert (H1 : 0 < 2) by lia.
  assert (H2 : forall hits,
             flat_ip_search (index store_twins) (demo_encode demo_query) 2 = Ok hits ->
             Z.of_nat (length hits) <= 2).
  { intros hits H. vm_compute in H. injection H as <-. simpl. lia. }
  assert (H3 : Chatbot.get_recommendations demo_encode flat_ip_search demo_query 2
                 store_twins
               = (Ok (map (Chatbot.make_recommendation demo_query) twins_results),
                  searched demo_query 2 store_twins)).
  { unfold Chatbot.get_recommendations, bind. now rewrite twins_search. }
  split; [exact H1 |]. split; [exact H2 |]. split; [exact H3 |].
  exact (proj1 (proj1 (recommendations_ranked demo_encode flat_ip_search demo_query 2
                         store_twins _ _ H1 H2 H3))).
Defined.

Lemma context_line_non_empty (i : nat) (r : SearchResult) :
  Str.non_empty (context_line i r) = true.
Proof. unfold context_line. str_cons. reflexivity. Qed.

Lemma join_non_empty (sep x : string) (l : list string) :
  Str.non_empty x = true -> Str.join sep (x :: l) <> "".
Proof.
  intros Hx. destruct x as [|c x]; [discriminate |].
  destruct l; simpl; str_cons; discriminate.
Qed.

(** X14. [search_with_context] gives one reference and one line of context
    per result, in rank order. For a query that is not blank they are built
    from the rows of the backend that the search retains, each from the
    metadata stored at the position of its row; a blank query gives the
    empty context and no reference. For a positive [k] and a backend that
    answers with at most [k] rows there are at most [k] references, each
    with a score of at least the threshold in single precision, by
    non-increasing score; and the context is the empty string exactly when
    there is no reference. *)
Theorem references_ranked
    (encode : string -> vector)
    (index_search : IndexFlatIP -> vector -> Z -> result (list (Q * Z)))
    (query : string) (k : Z) (threshold : Q) (s s' : State)
    (context : string) (references : list Reference) :
  0 < k ->
  (forall hits, index_search (index s) (encode query) k = Ok hits ->
                Z.of_nat (length hits) <= k) ->
  search_with_context encode index_search query k threshold s
  = (Ok (context, references), s') ->
  (Z.of_nat (length references) <= k /\
   Forall (fun ref => at_least32 threshold (ref_score ref)) references /\
   StronglySorted desc_ref references /\
   (context = "" <-> references = [])) /\
  (Str.non_empty (Str.strip query) = false -> context = "" /\ references = []) /\
  (Str.non_empty (Str.strip query) = true ->
   exists hits results,
     index_search (index s) (encode query) k = Ok hits /\
     results_of (metadata s) threshold hits results /\
     references = map make_reference results /\
     context = Str.join (String Str.newline "") (imap context_line results)).
Proof.
  intros Hk Hlen H.
  destruct (similarity_search encode index_search query k threshold s)
    as [[results|e] s1] eqn:Hs.
  - rewrite (search_with_context_shape _ _ _ _ _ _ _ _ Hs) in H.
    injection H as <- <- <-.
    destruct (search_results_ranked _ _ _ _ _ _ _ _ Hk Hlen Hs)
      as (Hl & Ht & _ & Hsorted).
    split; [| split].
    + rewrite length_map. split; [exact Hl |]. split; [| split].
      * apply List.Forall_map. exact Ht.
      * eapply StronglySorted_map; [| exact Hsorted]. intros a b Hab. exact Hab.
      * destruct results as [|r results]; [split; reflexivity |].
        split; [| discriminate].
        intros Hctx. exfalso. revert Hctx. simpl imap.
        apply join_non_empty, context_line_non_empty.
    + intros Hq. rewrite similarity_search_blank in Hs by exact Hq.
      injection Hs as <- _. split; reflexivity.
    + intros Hq.
      destruct (search_results_of _ _ _ _ _ _ _ _ Hq Hs) as (hits & Hh & Hr).
      now exists hits, results.
  - unfold search_with_context, bind in H. rewrite Hs in H. discriminate.
Qed.

(** The context and the references for the query over the twin passages. *)
Lemma references_ranked_witness :
  0 < 2 /\
  (forall hits,
     flat_ip_search (index store_twins) (demo_encode demo_query) 2 = Ok hits ->
     Z.of_nat (length hits) <= 2) /\
  exists context references s',
    search_with_context demo_encode flat_ip_search demo_query 2 (1 # 2) store_twins
    = (Ok (context, references), s') /\
    Z.of_nat (length references) <= 2.
Proof.
  assert (H1 : 0 < 2) by lia.
  assert (H2 : forall hits,
             flat_ip_search (index store_twins) (demo_encode demo_query) 2 = Ok hits ->
             Z.of_nat (length hits) <= 2).
  { intros hits H. vm_compute in H. injection H as <-. simpl. lia. }
  split; [exact H1 |]. split; [exact H2 |].
  eexists _, _, _. split.
  - exact (search_with_context_shape _ _ _ _ _ _ _ _ twins_search).
  - exact (proj1 (proj1 (references_ranked demo_encode flat_ip_search demo_query 2
                           (1 # 2) store_twins _ _ _ H1 H2
                           (search_with_context_shape _ _ _ _ _ _ _ _ twins_search)))).
Defined.

(** ** The batch search *)

Section BatchProofs.

Variable encode : string -> vector.
Variable index_search : IndexFlatIP -> vector -> Z -> result (list (Q * Z)).

Lemma search_rows_ok ix x k rows :
  search_rows index_search ix x k = Ok rows ->
  Forall2 (fun row hits => index_search ix row k = Ok hits) x rows.
Proof.
  revert rows. induction x as [|row x IH]; intros rows H; simpl in H.
  - injection H as <-. constructor.
  - destruct (index_search ix row k) as [hits|e] eqn:Hh; [| discriminate].
    destruct (search_rows index_search ix x k) as [others|e]; [| discriminate].
    injection H as <-. constructor; [exact Hh | now apply IH].
Qed.

Lemma collect_all_hits md hits : forall acc res,
  collect_all md hits acc = Ok res ->
  map hit_of res
  = map hit_of acc ++ List.filter (fun h => snd h <? Z.of_nat (length md)) hits.
Proof.
  induction hits as [|[sc idx] hits IH]; intros acc res H; simpl in H.
  - injection H as <-. simpl. now rewrite app_nil_r.
  - simpl. destruct (idx <? Z.of_nat (length md)) eqn:Hp.
    + destruct (py_index md idx) as [m|e]; [| discriminate].
      apply IH in H. rewrite H, map_app. simpl. now rewrite <- app_assoc.
    + now apply IH in H.
Qed.

Lemma collect_all_ranked md hits res k :
  Z.of_nat (length hits) <= k ->
  collect_all md hits [] = Ok res ->
  batch_ranked k md (sort_desc res).
Proof.
  intros Hk H. apply collect_all_hits in H. simpl in H.
  split; [| split].
  - rewrite sort_desc_length, <- (length_map hit_of), H.
    pose proof (filter_length_le (fun h => snd h <? Z.of_nat (length md)) hits).
    lia.
  - apply sort_desc_Forall.
    assert (Hall : Forall (fun h => (snd h <? Z.of_nat (length md)) = true)
                     (map hit_of res)).
    { rewrite H. apply List.Forall_forall. intros h Hh.
      now apply filter_In in Hh as [_ Hh]. }
    clear H. induction res as [|r res IH]; [constructor |].
    inversion Hall; subst. constructor; [| now apply IH].
    now apply Z.ltb_lt.
  - apply sort_desc_sorted.
Qed.

Lemma collect_rows_ranked md k rows : forall all_results,
  Forall (fun hits => Z.of_nat (length hits) <= k) rows ->
  collect_rows md rows = Ok all_results ->
  length all_results = length rows /\ Forall (batch_ranked k md) all_results.
Proof.
  induction rows as [|hits rows IH]; intros all_results Hk H; simpl in H.
  - injection H as <-. split; [reflexivity | constructor].
  - inversion Hk as [|? ? Hh Hrest]; subst.
    destruct (collect_all md hits []) as [res|e] eqn:Hc; [| discriminate].
    destruct (collect_rows md rows) as [others|e]; [| discriminate].
    injection H as <-. destruct (IH others Hrest eq_refl) as [Hl Hall].
    split; [simpl; now rewrite Hl |].
    constructor; [now apply (collect_all_ranked md hits res k) | exact Hall].
Qed.

Lemma collect_all_metadata md hits : forall acc res,
  Forall (fun r => py_index md (position r) = Ok (r_metadata r)) acc ->
  collect_all md hits acc = Ok res ->
  Forall (fun r => py_index md (position r) = Ok (r_metadata r)) res.
Proof.
  induction hits as [|[sc idx] hits IH]; intros acc res Hacc H; simpl in H.
  - now injection H as <-.
  - destruct (idx <? Z.of_nat (length md)).
    + destruct (py_index md idx) as [m|e] eqn:Hm; [| discriminate].
      eapply IH; [| exact H].
      apply Forall_app. split; [exact Hacc |]. constructor; [exact Hm | constructor].
    + eapply IH; eassumption.
Qed.

Lemma collect_rows_of md rows : forall all_results,
  collect_rows md rows = Ok all_results ->
  Forall2 (fun hits results => batch_results_of md hits results) rows all_results.
Proof.
  induction rows as [|hits rows IH]; intros all_results H; simpl in H.
  - injection H as <-. constructor.
  - destruct (collect_all md hits []) as [res|e] eqn:Hc; [| discriminate].
    destruct (collect_rows md rows) as [others|e]; [| discriminate].
    injection H as <-. constructor; [| now apply IH].
    split; [| split].
    + pose proof (collect_all_hits _ _ _ _ Hc) as Hhits. simpl in Hhits.
      unfold kept_all. rewrite <- Hhits. apply Permutation_map, sort_desc_perm.
    + apply sort_desc_Forall.
      eapply collect_all_metadata; [constructor | exact Hc].
    + apply sort_desc_sorted.
Qed.

Lemma batch_similarity_search_ok queries k s all_results s' :
  queries <> [] ->
  batch_similarity_search encode index_search queries k s = (Ok all_results, s') ->
  exists rows,
    search_rows index_search (index s) (map encode queries) k = Ok rows /\
    collect_rows (metadata s) rows = Ok all_results.
Proof.
  intros Hq H. unfold batch_similarity_search in H.
  destruct queries as [|q queries]; [congruence |].
  unfold bind, encoder_encode, bind, modify, ret, gets, lift in H. simpl in H.
  match type of H with
  | context [match ?x with Ok _ => _ | Raise _ => _ end] =>
      destruct x as [rows|e] eqn:Hrows; [| discriminate]
  end.
  exists rows. split; [exact Hrows |].
  destruct (collect_rows (metadata s) rows); [| discriminate].
  now injection H as <- _.
Qed.

End BatchProofs.

(** X15. [batch_similarity_search] answers query by query: when it returns,
    there is one list of results per query, in the order of the queries, and
    the list of a query holds one result for each row that the backend gives
    for that query with a label below the number of metadata entries, with
    the metadata stored at its position, by non-increasing score. No query
    is passed over, not even a blank one, and no threshold applies. For a
    backend that answers each query with at most [k] rows every list has at
    most [k] results. *)
Theorem batch_search_shape
    (encode : string -> vector)
    (index_search : IndexFlatIP -> vector -> Z -> result (list (Q * Z)))
    (queries : list string) (k : Z) (s s' : State)
    (all_results : list (list SearchResult)) :
  (forall q hits, In q queries ->
                  index_search (index s) (encode q) k = Ok hits ->
                  Z.of_nat (length hits) <= k) ->
  batch_similarity_search encode index_search queries k s = (Ok all_results, s') ->
  length all_results = length queries /\
  Forall (batch_ranked k (metadata s)) all_results /\
  Forall2 (fun q results =>
             exists hits,
               index_search (index s) (encode q) k = Ok hits /\
               batch_results_of (metadata s) hits results)
    queries all_results.
Proof.
  intros Hk H. destruct queries as [|q0 queries0] eqn:Hq.
  - injection H as <- _. split; [reflexivity |]. split; constructor.
  - rewrite <- Hq in *.
    assert (Hne : queries <> []) by (rewrite Hq; discriminate).
    destruct (batch_similarity_search_ok encode index_search queries k s
                all_results s' Hne H) as (rows & Hrows & Hall).
    apply search_rows_ok in Hrows.
    assert (Hlen : length rows = length queries).
    { apply Forall2_length in Hrows. now rewrite length_map in Hrows. }
    assert (Hrk : Forall (fun hits => Z.of_nat (length hits) <= k) rows).
    { clear Hall Hlen H Hne Hq. revert rows Hrows.
      induction queries as [|q queries IH]; intros rows Hrows;
        inversion Hrows; subst; constructor.
      - apply (Hk q); [now left | assumption].
      - apply IH; [| assumption]. intros q' hits Hin. apply Hk. now right. }
    destruct (collect_rows_ranked (metadata s) k rows all_results Hrk Hall)
      as [Hl Hr].
    split; [now rewrite Hl |]. split; [exact Hr |].
    apply collect_rows_of in Hall.
    clear Hk Hl Hr Hrk Hlen H Hne Hq. revert rows all_results Hrows Hall.
    induction queries as [|q queries IH]; intros rows all_results Hrows Hall.
    + inversion Hrows; subst. inversion Hall; subst. constructor.
    + inversion Hrows as [|? hits ? rows' Hh Hrows']; subst.
      inversion Hall as [|? results ? others Hres Hall']; subst.
      constructor; [now exists hits | now apply (IH rows')].
Qed.

(** Two queries over the twin passages, the second of them blank. *)
Lemma batch_search_shape_witness :
  (forall q hits, In q batch_demo ->
                  flat_ip_search (index store_twins) (demo_encode q) 2 = Ok hits ->
                  Z.of_nat (length hits) <= 2) /\
  exists all_results s',
    batch_similarity_search demo_encode flat_ip_search batch_demo 2 store_twins
    = (Ok all_results, s') /\
    length all_results = length batch_demo /\
    Forall (batch_ranked 2 (metadata store_twins)) all_results.
Proof.
  assert (H1 : forall q hits, In q batch_demo ->
                 flat_ip_search (index store_twins) (demo_encode q) 2 = Ok hits ->
                 Z.of_nat (length hits) <= 2).
  { intros q hits [<- | [<- | []]] H; vm_compute in H; injection H as <-;
      simpl; lia. }
  split; [exact H1 |].
  eexists _, _. split; [vm_compute; reflexivity |].
  assert (H2 : batch_similarity_search demo_encode flat_ip_search batch_demo 2
                 store_twins
               = (Ok _, _)) by (vm_compute; reflexivity).
  destruct (batch_search_shape demo_encode flat_ip_search batch_demo 2 store_twins
              _ _ H1 H2) as (Ha & Hb & _).
  split; [exact Ha | exact Hb].
Defined.

(** ** From the files to the chunks *)

Lemma extract_pages_entries pages : forall n p,
  In p (extract_pages pages n) ->
  trimmed (pd_text p) /\ has_ink (pd_text p) = true /\ pd_filename p = None /\
  n + 1 <= pd_page p <= n + Z.of_nat (length pages) /\
  exists t, pages !! Z.to_nat (pd_page p - n - 1) = Some (Some t)
            /\ pd_text p = Str.strip t.
Proof.
  induction pages as [|text pages IH]; intros n p Hp; simpl in Hp; [contradiction |].
  assert (Htail : In p (extract_pages pages (n + 1)) ->
                  trimmed (pd_text p) /\ has_ink (pd_text p) = true /\
                  pd_filename p = None /\
                  n + 1 <= pd_page p <= n + Z.of_nat (length (text :: pages)) /\
                  exists t, (text :: pages) !! Z.to_nat (pd_page p - n - 1)
                            = Some (Some t) /\ pd_text p = Str.strip t).
  { intros H. destruct (IH (n + 1) p H) as (Ht & Hi & Hf & Hr & t & Hl & Hs).
    repeat split; try assumption; try (simpl length; lia).
    exists t. split; [| exact Hs].
    replace (Z.to_nat (pd_page p - n - 1))
      with (S (Z.to_nat (pd_page p - (n + 1) - 1))) by lia.
    exact Hl. }
  destruct text as [t|]; [| now apply Htail].
  destruct (Str.non_empty (Str.strip t)) eqn:Hne; [| now apply Htail].
  destruct Hp as [<- | Hp]; [| now apply Htail]. simpl.
  repeat split; try (simpl length; lia).
  - apply strip_idem.
  - now rewrite has_ink_strip, <- non_empty_strip.
  - exists t. split; [| reflexivity].
    replace (Z.to_nat (n + 1 - n - 1)) with 0%nat by lia. reflexivity.
Qed.

Lemma extract_pages_above pages : forall n,
  Forall (fun p => n < pd_page p) (extract_pages pages n).
Proof.
  induction pages as [|text pages IH]; intros n; simpl; [constructor |].
  assert (Htail : Forall (fun p => n < pd_page p) (extract_pages pages (n + 1))).
  { eapply Forall_impl; [apply IH |]. simpl. intros p Hp. lia. }
  destruct text as [t|]; [| exact Htail].
  destruct (Str.non_empty (Str.strip t)); [| exact Htail].
  constructor; [simpl; lia | exact Htail].
Qed.

Lemma extract_pages_sorted pages : forall n,
  StronglySorted (fun a b => pd_page a < pd_page b) (extract_pages pages n).
Proof.
  induction pages as [|text pages IH]; intros n; simpl; [constructor |].
  destruct text as [t|]; [| apply IH].
  destruct (Str.non_empty (Str.strip t)); [| apply IH].
  constructor; [apply IH |]. simpl.
  eapply Forall_impl; [apply (extract_pages_above pages (n + 1)) |].
  simpl. intros p Hp. lia.
Qed.

Lemma extract_pages_complete pages : forall n i t,
  pages !! i = Some (Some t) -> has_ink t = true ->
  In {| pd_text := Str.strip t; pd_page := n + Z.of_nat i + 1; pd_filename := None |}
    (extract_pages pages n).
Proof.
  induction pages as [|text pages IH]; intros n i t Hl Hink; [discriminate |].
  destruct i as [|i]; simpl in Hl.
  - injection Hl as ->. simpl. rewrite non_empty_strip, Hink.
    left. f_equal. lia.
  - simpl.
    assert (Htail : In {| pd_text := Str.strip t;
                          pd_page := n + Z.of_nat (S i) + 1;
                          pd_filename := None |}
                      (extract_pages pages (n + 1))).
    { replace (n + Z.of_nat (S i) + 1) with ((n + 1) + Z.of_nat i + 1) by lia.
      now apply IH. }
    destruct text as [t'|]; [| exact Htail].
    destruct (Str.non_empty (Str.strip t')); [now right | exact Htail].
Qed.

(** X16. The extraction numbers the pages from 1 by their place in the file
    and passes over the pages without text: the entries are exactly the
    pages that have ink, each with its text trimmed and its 1-based number,
    without a file name, by increasing page number. *)
Theorem extract_pages_spec (pages : list (option string)) :
  let text_content := extract_pages pages 0 in
  Forall (fun p =>
            trimmed (pd_text p) /\ has_ink (pd_text p) = true /\
            pd_filename p = None /\
            1 <= pd_page p <= Z.of_nat (length pages) /\
            exists t, pages !! Z.to_nat (pd_page p - 1) = Some (Some t)
                      /\ pd_text p = Str.strip t) text_content /\
  StronglySorted (fun a b => pd_page a < pd_page b) text_content /\
  forall i t,
    pages !! i = Some (Some t) -> has_ink t = true ->
    In {| pd_text := Str.strip t; pd_page := Z.of_nat i + 1; pd_filename := None |}
      text_content.
Proof.
  cbv zeta. split; [| split].
  - apply List.Forall_forall. intros p Hp.
    destruct (extract_pages_entries pages 0 p Hp) as (Ht & Hi & Hf & Hr & t & Hl & Hs).
    repeat split; try assumption; try lia.
    exists t. split; [| exact Hs].
    now replace (pd_page p - 1) with (pd_page p - 0 - 1) by lia.
  - apply extract_pages_sorted.
  - intros i t Hl Hink.
    exact (extract_pages_complete pages 0 i t Hl Hink).
Qed.

Lemma in_flat_map_files chunk_size chunk_overlap files c :
  In c (process_pdf_directory chunk_size chunk_overlap files) ->
  exists extracted_data c0,
    In (Some extracted_data) files /\
    In c0 (chunk_text chunk_size chunk_overlap (ex_text_content extracted_data)) /\
    c = annotate extracted_data c0.
Proof.
  unfold process_pdf_directory. intros H.
  apply in_flat_map in H as ([ex|] & Hf & Hc); [| contradiction].
  apply in_map_iff in Hc as (c0 & <- & Hc0). now exists ex, c0.
Qed.

(** X17. What [process_pdf_directory] puts in the metadata of a chunk: the
    file name of its file under ['filename'], the title of the file under
    ['title'], the page of the chunk under ['page']; and, for a text content
    that comes from the extraction, the empty string under ['source'], the
    page being one of the file. *)
Theorem directory_chunks_metadata (chunk_size chunk_overlap : Z)
    (files : list (option Extracted)) (c : Chunk) :
  In c (process_pdf_directory chunk_size chunk_overlap files) ->
  exists extracted_data,
    In (Some extracted_data) files /\
    c_metadata c !! "filename" = Some (PyStr (ex_filename extracted_data)) /\
    c_metadata c !! "title"
    = Some (dict_get (ex_metadata extracted_data) "title" (PyStr "")) /\
    c_metadata c !! "page" = Some (PyInt (c_page c)) /\
    (forall pages,
       ex_text_content extracted_data = extract_pages pages 0 ->
       c_metadata c !! "source" = Some (PyStr "") /\
       1 <= c_page c <= Z.of_nat (length pages)).
Proof.
  intros H. apply in_flat_map_files in H as (ex & c0 & Hf & Hc0 & ->).
  apply in_chunk_text in Hc0 as (p & Hp & Hc0).
  destruct (chunk_page_sound chunk_size chunk_overlap p) as [Hall _].
  rewrite List.Forall_forall in Hall.
  destruct (Hall c0 Hc0) as [[Hpage Hmeta] _].
  exists ex. split; [exact Hf |]. unfold annotate. simpl. rewrite Hmeta.
  unfold page_metadata.
  split; [now rewrite lookup_insert_eq |].
  split; [now rewrite !lookup_insert_ne, lookup_insert_eq by discriminate |].
  split.
  - rewrite !lookup_insert_ne by discriminate.
    now rewrite lookup_insert_eq, Hpage.
  - intros pages Hpages. rewrite Hpages in Hp.
    destruct (extract_pages_entries pages 0 p Hp) as (_ & _ & Hfn & Hr & _).
    split.
    + rewrite !lookup_insert_ne by discriminate.
      now rewrite lookup_insert_eq, Hfn.
    + rewrite Hpage. lia.
Qed.

(** The first chunk of the file of three pages. *)
Lemma directory_chunks_metadata_witness :
  In demo_chunk (process_pdf_directory 50 10 [Some demo_extracted; None]) /\
  exists extracted_data,
    In (Some extracted_data) [Some demo_extracted; None] /\
    c_metadata demo_chunk !! "filename" = Some (PyStr (ex_filename extracted_data)) /\
    c_metadata demo_chunk !! "title"
    = Some (dict_get (ex_metadata extracted_data) "title" (PyStr "")) /\
    c_metadata demo_chunk !! "page" = Some (PyInt (c_page demo_chunk)) /\
    (forall pages,
       ex_text_content extracted_data = extract_pages pages 0 ->
       c_metadata demo_chunk !! "source" = Some (PyStr "") /\
       1 <= c_page demo_chunk <= Z.of_nat (length pages)).
Proof.
  assert (H : In demo_chunk (process_pdf_directory 50 10 [Some demo_extracted; None]))
    by (vm_compute; left; reflexivity).
  split; [exact H |].
  exact (directory_chunks_metadata 50 10 [Some demo_extracted; None] demo_chunk H).
Defined.

(** ** The prompt manager *)

Lemma map_drop {A B} (f : A -> B) (n : nat) (l : list A) :
  map f (drop n l) = drop n (map f l).
Proof.
  revert l. induction n as [|n IH]; intros [|x l]; simpl; auto.
Qed.

Lemma recent_history_eq (pm : PromptManager.Manager) (max_messages : Z) :
  0 <= max_messages ->
  let history := map view (PromptManager.conversation_history pm) in
  PromptManager.get_recent_history pm max_messages
  = (if max_messages =? 0 then history
     else drop (length history - Z.to_nat max_messages) history).
Proof.
  intros Hn. cbv zeta. unfold PromptManager.get_recent_history.
  set (h := PromptManager.conversation_history pm).
  assert (Heq : map (fun msg => PromptManager.message (PromptManager.role msg)
                                  (PromptManager.content msg))
                  (PromptManager.last_slice h max_messages)
                = if max_messages =? 0 then map view h
                  else drop (length (map view h) - Z.to_nat max_messages) (map view h)).
  { unfold PromptManager.last_slice. rewrite map_drop, length_map.
    fold view. change (map (fun msg => view msg) h) with (map view h).
    destruct (Z.eqb_spec max_messages 0) as [-> | Hne].
    - reflexivity.
    - destruct (Z.ltb_spec 0 max_messages); [| lia].
      f_equal. lia. }
  assert (Hcase : match h with
                  | [] => []
                  | _ => PromptManager.last_slice h max_messages
                  end = PromptManager.last_slice h max_messages).
  { destruct h; [| reflexivity]. unfold PromptManager.last_slice.
    now rewrite drop_nil. }
  now rewrite Hcase, Heq.
Qed.

(** X18. [get_recent_history] for [max_messages >= 0]: a positive number
    gives the last that many messages, all of them when there are fewer, in
    their order; 0 gives the whole history, not the empty list. *)
Theorem recent_history_spec (pm : PromptManager.Manager) (max_messages : Z) :
  0 <= max_messages ->
  let history := map view (PromptManager.conversation_history pm) in
  let recent := PromptManager.get_recent_history pm max_messages in
  recent = (if max_messages =? 0 then history
            else drop (length history - Z.to_nat max_messages) history) /\
  length recent = (if max_messages =? 0 then length history
                   else Nat.min (Z.to_nat max_messages) (length history)).
Proof.
  intros Hn. cbv zeta. rewrite (recent_history_eq pm max_messages Hn).
  split; [reflexivity |].
  destruct (max_messages =? 0); [reflexivity |].
  rewrite length_drop. lia.
Qed.

(** The last message, and all the messages, of a history of two. *)
Lemma recent_history_spec_witness :
  0 <= 1 /\
  PromptManager.get_recent_history demo_manager 1 = [("assistant", "Use c().")] /\
  length (PromptManager.get_recent_history demo_manager 1) = 1%nat.
Proof.
  assert (H : 0 <= 1) by lia.
  split; [exact H |].
  exact (recent_history_spec demo_manager 1 H).
Defined.

(** X19. A message added to the history is its last one: whatever the
    history, after [add_to_history] the most recent message is the one
    added and the messages of before come first, unchanged; after
    [clear_history] there is none. *)
Theorem history_add_and_clear (pm : PromptManager.Manager)
    (r c : string) (ts : option string) (max_messages : Z) :
  PromptManager.get_recent_history (PromptManager.add_to_history r c ts pm) 1
  = [PromptManager.message r c] /\
  PromptManager.get_recent_history (PromptManager.add_to_history r c ts pm) 0
  = PromptManager.get_recent_history pm 0 ++ [PromptManager.message r c] /\
  PromptManager.get_recent_history (PromptManager.clear_history pm) max_messages = [].
Proof.
  split; [| split].
  - rewrite (recent_history_eq (PromptManager.add_to_history r c ts pm) 1)
      by lia.
    simpl. rewrite map_app, length_app. simpl.
    replace (length (map view (PromptManager.conversation_history pm)) + 1
             - Z.to_nat 1)%nat
      with (length (map view (PromptManager.conversation_history pm))) by lia.
    now rewrite drop_app_length.
  - rewrite (recent_history_eq (PromptManager.add_to_history r c ts pm) 0)
      by lia.
    rewrite (recent_history_eq pm 0) by lia.
    simpl. now rewrite map_app.
  - reflexivity.
Qed.

(** X20. [get_messages_with_context] always gives two messages, the system
    prompt and one user message, and never the conversation history; with
    no context, or with the empty context that a search without result
    gives, the user message goes as it is. *)
Theorem messages_without_grounding (pm pm' : PromptManager.Manager)
    (user_message : string) (context : option string) :
  PromptManager.system_prompt pm = PromptManager.system_prompt pm' ->
  PromptManager.get_messages_with_context pm user_message context
  = PromptManager.get_messages_with_context pm' user_message context /\
  (exists user_content,
     PromptManager.get_messages_with_context pm user_message context
     = [("system", PromptManager.system_prompt pm); ("user", user_content)]
     /\ substr user_message user_content) /\
  PromptManager.get_messages_with_context pm user_message (Some "")
  = [("system", PromptManager.system_prompt pm); ("user", user_message)] /\
  PromptManager.get_messages_with_context pm user_message None
  = [("system", PromptManager.system_prompt pm); ("user", user_message)].
Proof.
  intros Hp. unfold PromptManager.get_messages_with_context.
  split; [now rewrite Hp |]. split; [| split; reflexivity].
  destruct (PromptManager.has_context context).
  - eexists. split; [reflexivity |].
    eexists _, "". rewrite app_empty_r.
    change (String Str.newline
              (default "" context +:+ String Str.newline
                 (String Str.newline ("User question: " +:+ user_message))))
      with (String Str.newline "" +:+
              (default "" context +:+ String Str.newline
                 (String Str.newline ("User question: " +:+ user_message)))).
    change (String Str.newline (String Str.newline ("User question: " +:+ user_message)))
      with (String Str.newline (String Str.newline "User question: ") +:+ user_message).
    rewrite <- !app_assoc_str. reflexivity.
  - exists user_message. split; [reflexivity |].
    exists "", "". now rewrite app_empty_r.
Qed.

(** Two managers of the same prompt, one with a history. *)
Lemma messages_without_grounding_witness :
  PromptManager.system_prompt demo_manager
  = PromptManager.system_prompt (PromptManager.clear_history demo_manager) /\
  PromptManager.get_messages_with_context demo_manager "What is a list?" (Some "")
  = [("system", "You are a friendly R tutor."); ("user", "What is a list?")].
Proof.
  assert (H : PromptManager.system_prompt demo_manager
              = PromptManager.system_prompt (PromptManager.clear_history demo_manager))
    by reflexivity.
  split; [exact H |].
  exact (proj1 (proj2 (proj2 (messages_without_grounding demo_manager
                                (PromptManager.clear_history demo_manager)
                                "What is a list?" (Some "") H)))).
Defined.

Lemma fold_left_append {A} (f : A -> string) (l : list A) : forall init,
  fold_left (fun acc r => acc +:+ f r) l init = init +:+ concat_str (map f l).
Proof.
  induction l as [|x l IH]; intros init; simpl.
  - now rewrite app_empty_r.
  - now rewrite IH, concat_str_cons, app_assoc_str.
Qed.

Lemma reference_line_retriever (ref : Reference) :
  PromptManager.reference_line (PromptManager.reference_dict ref)
  = retriever_line ref.
Proof.
  unfold PromptManager.reference_line, PromptManager.reference_dict,
    retriever_line, dict_get.
  rewrite lookup_insert_eq.
  rewrite (lookup_insert_ne _ "module" "timestamp") by discriminate.
  rewrite (lookup_insert_ne _ "page" "timestamp") by discriminate.
  rewrite (lookup_insert_ne _ "source" "timestamp") by discriminate.
  rewrite lookup_empty.
  rewrite (lookup_insert_ne _ "module" "page") by discriminate.
  rewrite lookup_insert_eq.
  destruct (ref_page ref) as [|c p]; simpl truthy; simpl Str.non_empty;
    cbv iota; simpl py_str; rewrite !app_assoc_str; reflexivity.
Qed.

(** X21. The references of the retriever as [format_response_with_references]
    shows them: the response comes first, unchanged; without reference
    nothing is added; otherwise the header follows and one line per
    reference, with its module and, when it has one, its page, and never a
    timestamp. *)
Theorem format_retriever_references (response : string) (references : list Reference) :
  PromptManager.format_response_with_references response
    (Some (map PromptManager.reference_dict references))
  = match references with
    | [] => response
    | _ => response +:+ PromptManager.references_header
             +:+ concat_str (map retriever_line references)
    end
  /\ PromptManager.format_response_with_references response None = response.
Proof.
  split; [| reflexivity].
  destruct references as [|ref refs]; [reflexivity |].
  unfold PromptManager.format_response_with_references.
  change (map PromptManager.reference_dict (ref :: refs))
    with (PromptManager.reference_dict ref :: map PromptManager.reference_dict refs).
  cbv beta iota.
  rewrite (fold_left_append PromptManager.reference_line), app_assoc_str.
  f_equal. f_equal.
  change (PromptManager.reference_dict ref :: map PromptManager.reference_dict refs)
    with (map PromptManager.reference_dict (ref :: refs)).
  rewrite map_map. f_equal. apply map_ext. intros r.
  apply reference_line_retriever.
Qed.

(** ** Timestamps *)

Lemma sound_seq (m1 m2 : matcher) (P1 P2 : string -> Prop) :
  sound m1 P1 -> sound m2 P2 ->
  sound (m_seq m1 m2) (fun x => exists a b, x = a +:+ b /\ P1 a /\ P2 b).
Proof.
  intros H1 H2 s rest Hin. unfold m_seq in Hin.
  apply in_flat_map in Hin as (mid & Hmid & Hrest).
  destruct (H1 s mid Hmid) as (a & -> & Ha).
  destruct (H2 mid rest Hrest) as (b & -> & Hb).
  exists (a +:+ b). split; [now rewrite app_assoc_str |]. now exists a, b.
Qed.

Lemma sound_weaken (m : matcher) (P Q : string -> Prop) :
  (forall x, P x -> Q x) -> sound m P -> sound m Q.
Proof.
  intros HPQ H s rest Hin. destruct (H s rest Hin) as (x & Hx & HP).
  exists x. auto.
Qed.

Lemma sound_digit : sound m_digit (digits 1).
Proof.
  intros [|c s] rest Hin; simpl in Hin; [contradiction |].
  destruct (is_digit c) eqn:Hc; [| contradiction].
  destruct Hin as [<- | []]. exists (String c "").
  split; [reflexivity |]. split; [simpl; now rewrite Hc | reflexivity].
Qed.

Lemma digits_app (n m : nat) (a b : string) :
  digits n a -> digits m b -> digits (n + m) (a +:+ b).
Proof.
  intros [Ha <-] [Hb <-]. split; [| apply str_length_app].
  clear -Ha Hb. induction a as [|c a IH]; str_cons; simpl in *; [exact Hb |].
  apply andb_true_iff in Ha as [Hc Ha]. rewrite Hc. now apply IH.
Qed.

Lemma sound_digits_1_2 : sound m_digits_1_2 (fun x => digits 1 x \/ digits 2 x).
Proof.
  intros s rest Hin. unfold m_digits_1_2 in Hin.
  apply in_flat_map in Hin as (r1 & Hr1 & Hin).
  destruct (sound_digit s r1 Hr1) as (a & -> & Ha).
  apply in_app_iff in Hin as [Hin | [<- | []]].
  - destruct (sound_digit r1 rest Hin) as (b & -> & Hb).
    exists (a +:+ b). split; [now rewrite app_assoc_str |].
    right. exact (digits_app 1 1 a b Ha Hb).
  - exists a. split; [reflexivity | now left].
Qed.

Lemma sound_digits_2 : sound m_digits_2 (digits 2).
Proof.
  eapply sound_weaken; [| exact (sound_seq _ _ _ _ sound_digit sound_digit)].
  intros x (a & b & -> & Ha & Hb). exact (digits_app 1 1 a b Ha Hb).
Qed.

Lemma sound_digits_3 : sound m_digits_3 (digits 3).
Proof.
  eapply sound_weaken; [| exact (sound_seq _ _ _ _ sound_digit sound_digits_2)].
  intros x (a & b & -> & Ha & Hb). exact (digits_app 1 2 a b Ha Hb).
Qed.

Lemma sound_char (a : ascii) : sound (m_char a) (fun x => x = String a "").
Proof.
  intros [|c s] rest Hin; simpl in Hin; [contradiction |].
  destruct (Ascii.eqb_spec c a) as [-> |]; [| contradiction].
  destruct Hin as [<- | []]. now exists (String a "").
Qed.

Lemma sound_boundary : sound m_boundary_after (fun x => x = "").
Proof.
  intros [|c s] rest Hin; simpl in Hin.
  - destruct Hin as [<- | []]. now exists "".
  - destruct (is_word c); [contradiction |].
    destruct Hin as [<- | []]. now exists "".
Qed.

Lemma sound_mm_ss : sound mm_ss stamp_mm_ss.
Proof.
  eapply sound_weaken;
    [| exact (sound_seq _ _ _ _ sound_digits_1_2
                (sound_seq _ _ _ _ (sound_char ":")
                   (sound_seq _ _ _ _ sound_digits_2 sound_boundary)))].
  intros x (a & x1 & -> & Ha & colon & x2 & -> & -> & b & e & -> & Hb & ->).
  exists a, b. rewrite app_empty_r. auto.
Qed.

Lemma sound_hh_mm_ss : sound hh_mm_ss stamp_hh_mm_ss.
Proof.
  eapply sound_weaken;
    [| exact (sound_seq _ _ _ _ sound_digits_1_2
                (sound_seq _ _ _ _ (sound_char ":")
                   (sound_seq _ _ _ _ sound_digits_2
                      (sound_seq _ _ _ _ (sound_char ":")
                         (sound_seq _ _ _ _ sound_digits_2 sound_boundary)))))].
  intros x (a & x1 & -> & Ha & c1 & x2 & -> & -> & b & x3 & -> & Hb
            & c2 & x4 & -> & -> & c & e & -> & Hc & ->).
  exists a, b, c. rewrite app_empty_r. auto.
Qed.

Lemma sound_hh_mm_ss_mmm : sound hh_mm_ss_mmm stamp_hh_mm_ss_mmm.
Proof.
  eapply sound_weaken;
    [| exact (sound_seq _ _ _ _ sound_digits_1_2
                (sound_seq _ _ _ _ (sound_char ":")
                   (sound_seq _ _ _ _ sound_digits_2
                      (sound_seq _ _ _ _ (sound_char ":")
                         (sound_seq _ _ _ _ sound_digits_2
                            (sound_seq _ _ _ _ (sound_char ".")
                               (sound_seq _ _ _ _ sound_digits_3
                                  sound_boundary)))))))].
  intros x (a & x1 & -> & Ha & c1 & x2 & -> & -> & b & x3 & -> & Hb
            & c2 & x4 & -> & -> & c & x5 & -> & Hc
            & c3 & x6 & -> & -> & f & e & -> & Hf & ->).
  exists a, b, c, f. rewrite app_empty_r. auto.
Qed.

Lemma str_take_app (x rest : string) :
  str_take (String.length x) (x +:+ rest) = x.
Proof.
  induction x as [|c x IH]; str_cons; simpl; [now destruct rest |].
  now rewrite IH.
Qed.

Lemma substr_cons (t : string) (c : ascii) (s : string) :
  substr t s -> substr t (String c s).
Proof. intros (a & b & ->). now exists (String c a), b. Qed.

Lemma findall_stamps_sound (pattern : matcher) (P : string -> Prop) :
  sound pattern P ->
  forall s prev_word skip,
    Forall (fun t => P t /\ substr t s) (findall_stamps pattern s prev_word skip).
Proof.
  intros Hsound s. induction s as [|c s IH]; intros prev_word skip; simpl;
    [constructor |].
  assert (Htail : forall pw k,
             Forall (fun t => P t /\ substr t (String c s))
               (findall_stamps pattern s pw k)).
  { intros pw k. eapply Forall_impl; [apply IH |].
    intros t [Ht Hs]. split; [exact Ht | now apply substr_cons]. }
  destruct skip as [|n]; [| apply Htail].
  unfold match_stamp. destruct prev_word; [apply Htail |].
  destruct (pattern (String c s)) as [|rest others] eqn:Hp; [apply Htail |].
  constructor; [| apply Htail].
  destruct (Hsound (String c s) rest) as (x & Hx & HP); [rewrite Hp; now left |].
  assert (Heq : str_take (String.length (String c s) - String.length rest)
                  (String c s) = x).
  { rewrite Hx, str_length_app.
    replace (String.length x + String.length rest - String.length rest)%nat
      with (String.length x) by lia.
    apply str_take_app. }
  rewrite Heq. split; [exact HP |].
  exists "", rest. exact Hx.
Qed.

Lemma extract_timestamps_sound_aux (text : string) :
  Forall (fun t => substr t text /\
                   (stamp_mm_ss t \/ stamp_hh_mm_ss t \/ stamp_hh_mm_ss_mmm t))
    (extract_timestamps text).
Proof.
  unfold extract_timestamps. repeat apply Forall_app_2.
  - eapply Forall_impl; [exact (findall_stamps_sound _ _ sound_mm_ss text false 0) |].
    intros t [Ht Hs]. auto.
  - eapply Forall_impl; [exact (findall_stamps_sound _ _ sound_hh_mm_ss text false 0) |].
    intros t [Ht Hs]. auto.
  - eapply Forall_impl;
      [exact (findall_stamps_sound _ _ sound_hh_mm_ss_mmm text false 0) |].
    intros t [Ht Hs]. auto.
Qed.

(** X22. Every timestamp that [extract_timestamps] returns is a piece of
    the text and has one of the three forms, [M:SS], [H:MM:SS] or
    [H:MM:SS.mmm], with one or two digits in front. *)
Theorem extract_timestamps_sound (text : string) :
  Forall (fun t => substr t text /\
                   (stamp_mm_ss t \/ stamp_hh_mm_ss t \/ stamp_hh_mm_ss_mmm t))
    (extract_timestamps text).
Proof. apply extract_timestamps_sound_aux. Qed.

Lemma has_char_app (a : ascii) (x y : string) :
  has_char a (x +:+ y) = has_char a x || has_char a y.
Proof.
  induction x as [|c x IH]; str_cons; simpl; [reflexivity |].
  rewrite IH. now rewrite orb_assoc.
Qed.

Lemma substr_has_char (a : ascii) (t s : string) :
  substr t s -> has_char a t = true -> has_char a s = true.
Proof.
  intros (x & y & ->) Ht. rewrite !has_char_app, Ht. now rewrite orb_true_r.
Qed.

Lemma stamp_has_colon (t : string) :
  stamp_mm_ss t \/ stamp_hh_mm_ss t \/ stamp_hh_mm_ss_mmm t ->
  has_char ":" t = true.
Proof.
  intros [(a & b & _ & _ & ->) | [(a & b & c & _ & _ & _ & ->)
                                 | (a & b & c & e & _ & _ & _ & _ & ->)]];
    rewrite has_char_app; str_cons; simpl; now rewrite orb_true_r.
Qed.

(** X23. A text without a colon, the empty text among them, has no
    timestamp. *)
Theorem no_colon_no_timestamp (text : string) :
  has_char ":" text = false -> extract_timestamps text = [].
Proof.
  intros Hno. pose proof (extract_timestamps_sound_aux text) as Hall.
  destruct (extract_timestamps text) as [|t ts]; [reflexivity |].
  inversion Hall as [|? ? [Hsub Hshape] _]; subst.
  apply stamp_has_colon in Hshape.
  rewrite (substr_has_char ":" t text Hsub Hshape) in Hno. discriminate.
Qed.

(** A text of words only. *)
Lemma no_colon_no_timestamp_witness :
  has_char ":" "Vectors store values." = false /\
  extract_timestamps "Vectors store values." = [].
Proof.
  assert (H : has_char ":" "Vectors store values." = false) by reflexivity.
  split; [exact H | exact (no_colon_no_timestamp "Vectors store values." H)].
Defined.

(** ** The size of the output *)

Section ChunkCount.

Variable chunk_size : Z.
Variable chunk_overlap : Z.

Lemma chunk_loop_count page_data sentences rest : forall i st (n : nat),
  (length (chunks st) + (if Str.non_empty (current_chunk st) then 1 else 0)
   <= n)%nat ->
  let st' := chunk_loop chunk_size chunk_overlap page_data sentences rest i st in
  (length (chunks st') + (if Str.non_empty (current_chunk st') then 1 else 0)
   <= n + length rest)%nat.
Proof.
  induction rest as [|sentence rest IH]; intros i st n H.
  - simpl. lia.
  - simpl chunk_loop. replace (n + length (sentence :: rest))%nat
      with (S n + length rest)%nat by (simpl; lia).
    apply IH. unfold chunk_step.
    destruct ((Str.len (current_chunk st +:+ sentence) >? chunk_size)
              && Str.non_empty (current_chunk st)) eqn:Hcut; simpl.
    + apply andb_true_iff in Hcut as [_ Hne]. rewrite Hne in H.
      rewrite non_empty_app_space, length_app. simpl. lia.
    + rewrite non_empty_app_space.
      destruct (Str.non_empty (current_chunk st)); lia.
Qed.

Lemma chunk_page_count page_data :
  (length (chunk_page chunk_size chunk_overlap [] page_data)
   <= length (_split_into_sentences (pd_text page_data)))%nat.
Proof.
  unfold chunk_page.
  set (sentences := _split_into_sentences (pd_text page_data)).
  set (st0 := {| chunks := []; current_chunk := ""; chunk_start_sentence := 0 |}).
  pose proof (chunk_loop_count page_data sentences sentences 0 st0 0) as H.
  simpl in H. specialize (H (le_n 0)).
  destruct (Str.non_empty (Str.strip (current_chunk _))) eqn:Hlast; [| lia].
  rewrite length_app. simpl.
  destruct (Str.non_empty (current_chunk _)) eqn:Hne in H; [lia |].
  apply non_empty_false in Hne. rewrite Hne in Hlast. discriminate.
Qed.

End ChunkCount.

(** X24. There are never more chunks than units: the number of chunks of a
    list of pages is at most the number of their sentences, whatever the
    size and the overlap. *)
Theorem chunk_count_bound (chunk_size chunk_overlap : Z) (pages : list PageData) :
  (length (chunk_text chunk_size chunk_overlap pages)
   <= length (flat_map (fun p => _split_into_sentences (pd_text p)) pages))%nat.
Proof.
  induction pages as [|p pages IH]; [simpl; lia |].
  rewrite chunk_text_cons, length_app. simpl flat_map. rewrite length_app.
  pose proof (chunk_page_count chunk_size chunk_overlap p). lia.
Qed.

(** ** What a search may raise *)

Lemma py_index_in_range {A} (l : list A) (i : Z) :
  - Z.of_nat (length l) <= i < Z.of_nat (length l) ->
  exists x, py_index l i = Ok x.
Proof.
  intros Hi. unfold py_index.
  destruct (i <? 0) eqn:Hneg.
  - apply Z.ltb_lt in Hneg.
    destruct (i + Z.of_nat (length l) <? 0) eqn:Hj;
      [apply Z.ltb_lt in Hj; lia |].
    destruct (lookup_lt_is_Some_2 l (Z.to_nat (i + Z.of_nat (length l))))
      as [x Hx]; [lia |].
    rewrite Hx. now exists x.
  - rewrite Hneg. apply Z.ltb_ge in Hneg.
    destruct (lookup_lt_is_Some_2 l (Z.to_nat i)) as [x Hx]; [lia |].
    rewrite Hx. now exists x.
Qed.

Lemma py_index_below {A} (l : list A) (i : Z) :
  i < - Z.of_nat (length l) -> py_index l i = Raise IndexError.
Proof.
  intros Hi. unfold py_index.
  destruct (i <? 0) eqn:Hneg; [| apply Z.ltb_ge in Hneg; lia].
  destruct (i + Z.of_nat (length l) <? 0) eqn:Hj; [reflexivity |].
  apply Z.ltb_ge in Hj. lia.
Qed.

(** The loop fails exactly on a retained row whose label lies below
    [-len(metadata)]. *)
Lemma collect_results_outcome md threshold hits : forall acc,
  if labels_indexable md (kept md threshold hits)
  then exists res, collect_results md threshold hits acc = Ok res
  else collect_results md threshold hits acc = Raise IndexError.
Proof.
  induction hits as [|[sc idx] hits IH]; intros acc; simpl.
  - now exists acc.
  - unfold kept, passes, labels_indexable in *. simpl.
    destruct ((idx <? Z.of_nat (length md)) && float32_ge sc threshold) eqn:Hp;
      [| apply IH].
    simpl. apply andb_true_iff in Hp as [Hlt _]. apply Z.ltb_lt in Hlt.
    destruct (- Z.of_nat (length md) <=? idx) eqn:Hlow; simpl.
    + apply Z.leb_le in Hlow.
      destruct (py_index_in_range md idx) as [m ->]; [lia |]. apply IH.
    + apply Z.leb_gt in Hlow. now rewrite py_index_below.
Qed.

(** X25. What [similarity_search] does with a query that is not blank, once
    the encoder has returned its embedding: it raises what the backend
    search raises; when the backend answers, it raises [IndexError] if a row
    that the loop retains has a label below [-len(metadata)], and returns
    otherwise. *)
Theorem search_raises_only
    (encode : string -> vector)
    (index_search : IndexFlatIP -> vector -> Z -> result (list (Q * Z)))
    (query : string) (k : Z) (threshold : Q) (s : State) :
  Str.non_empty (Str.strip query) = true ->
  match index_search (index s) (encode query) k with
  | Raise e =>
      fst (similarity_search encode index_search query k threshold s) = Raise e
  | Ok hits =>
      if labels_indexable (metadata s) (kept (metadata s) threshold hits)
      then exists results,
             fst (similarity_search encode index_search query k threshold s)
             = Ok results
      else fst (similarity_search encode index_search query k threshold s)
           = Raise IndexError
  end.
Proof.
  intros Hq. rewrite similarity_search_unfold by exact Hq.
  destruct (index_search (index s) (encode query) k) as [hits|e]; [| reflexivity].
  pose proof (collect_results_outcome (metadata s) threshold hits []) as H.
  destruct (labels_indexable (metadata s) (kept (metadata s) threshold hits)).
  - destruct H as (res & ->). now eexists.
  - now rewrite H.
Qed.

(** The query over the empty store, [k = 1] and the lowest threshold: the
    padding row is retained and its label lies below [-len(metadata)]. *)
Lemma search_raises_only_witness :
  Str.non_empty (Str.strip demo_query) = true /\
  fst (similarity_search demo_encode flat_ip_search demo_query 1 NEG_FLT_MAX
         empty_store) = Raise IndexError.
Proof.
  assert (H1 : Str.non_empty (Str.strip demo_query) = true) by reflexivity.
  split; [exact H1 |].
  exact (search_raises_only demo_encode flat_ip_search demo_query 1 NEG_FLT_MAX
           empty_store H1).
Defined.

(** ** From the directory to the index *)

Lemma directory_chunks_ink chunk_size chunk_overlap files :
  Forall (fun c => has_ink (c_text c) = true)
    (process_pdf_directory chunk_size chunk_overlap files).
Proof.
  apply List.Forall_forall. intros c Hc.
  apply in_flat_map_files in Hc as (ex & c0 & _ & Hc0 & ->). simpl.
  apply in_chunk_text in Hc0 as (p & _ & Hc0).
  destruct (chunk_page_sound chunk_size chunk_overlap p) as [Hall _].
  rewrite List.Forall_forall in Hall. now destruct (Hall c0 Hc0) as (_ & _ & Hi).
Qed.

Lemma valid_documents_chunks (cs : list Chunk) :
  Forall (fun c => has_ink (c_text c) = true) cs ->
  valid_documents (map of_chunk cs) = map (fun c => (c_text c, c_metadata c)) cs.
Proof.
  induction 1 as [|c cs Hc _ IH]; [reflexivity |].
  simpl. rewrite non_empty_strip, Hc. simpl. now f_equal.
Qed.

(** X26. Every chunk is indexed: [index_pdfs] adds to the store, in order,
    the text and the metadata of every chunk of the directory, none being
    dropped as blank, when the embeddings have the dimension of the index;
    it reports "warning" and adds nothing when there is no chunk, "success"
    otherwise. *)
Theorem index_pdfs_indexes_every_chunk
    (encode : string -> vector) (files : list (option Extracted)) (s : State) :
  let chunks := process_pdf_directory 1000 200 files in
  rows_fit (map encode (map c_text chunks)) s = true ->
  exists report s',
    Chatbot.index_pdfs encode files s = (Ok report, s') /\
    metadata s' = metadata s ++ map c_metadata chunks /\
    vectors (index s') = vectors (index s) ++ map encode (map c_text chunks) /\
    Chatbot.status report = (match chunks with [] => "warning" | _ => "success" end).
Proof.
  cbv zeta. intros Hfit. unfold Chatbot.index_pdfs.
  pose proof (directory_chunks_ink 1000 200 files) as Hink.
  pose proof (valid_documents_chunks _ Hink) as Hvalid.
  destruct (process_pdf_directory 1000 200 files) as [|c cs] eqn:Hcs.
  - unfold bind, log, modify, ret. simpl. eexists _, _. split; [reflexivity |].
    simpl. now rewrite !app_nil_r.
  - assert (Hfst : map fst (valid_documents (map of_chunk (c :: cs)))
                   = map c_text (c :: cs)).
    { rewrite Hvalid, map_map. reflexivity. }
    assert (Hsnd : map snd (valid_documents (map of_chunk (c :: cs)))
                   = map c_metadata (c :: cs)).
    { rewrite Hvalid, map_map. reflexivity. }
    set (s0 := add_event (Logged INFO "Indexing PDFs") s).
    destruct (add_documents_ok encode (map of_chunk (c :: cs)) s0)
      as (s1 & _ & (Hi & Hm & _) & Hadd).
    { rewrite Hvalid. discriminate. }
    { rewrite Hfst. exact Hfit. }
    unfold bind at 1. unfold log at 1. unfold modify at 1. fold s0.
    unfold bind at 1. rewrite Hadd.
    unfold bind, gets, log, modify, ret. simpl.
    eexists _, _. split; [reflexivity |]. simpl. rewrite Hi, Hm.
    unfold extended. rewrite Hfst, Hsnd. simpl. auto.
Qed.

(** The file of three pages indexed into the empty store. *)
Lemma index_pdfs_indexes_every_chunk_witness :
  rows_fit (map demo_encode
              (map c_text (process_pdf_directory 1000 200 [Some demo_extracted])))
    empty_store = true /\
  exists report s',
    Chatbot.index_pdfs demo_encode [Some demo_extracted] empty_store
    = (Ok report, s') /\
    metadata s'
    = metadata empty_store
      ++ map c_metadata (process_pdf_directory 1000 200 [Some demo_extracted]).
Proof.
  assert (H : rows_fit
                (map demo_encode
                   (map c_text (process_pdf_directory 1000 200 [Some demo_extracted])))
                empty_store = true) by (vm_compute; reflexivity).
  split; [exact H |].
  destruct (index_pdfs_indexes_every_chunk demo_encode [Some demo_extracted]
              empty_store H) as (report & s' & Ha & Hb & _).
  exists report, s'. auto.
Defined.

Example extract_timestamps_test :
  extract_timestamps stamps_text = ["12:34"; "1:23"; "1:23:45"].
Proof. vm_compute. reflexivity. Qed.
